(** * FillFlow: a shallow embedding of the form-filling core

    The development follows the TypeScript sources of the repository:

    - [src/utils/coordinateConverter.ts]  ([CoordinateConverter])
    - [src/utils/pdfParser.ts]            ([PDFParser])
    - [src/utils/fontLoader.ts]           ([FontLoader], [wrapText])
    - [src/utils/templateSaver.ts]        ([TemplateSaver])
    - [src/utils/fontMatcher.ts]          ([FontMatcher])
    - [src/hooks/usePDFGeneration.ts]     ([PDFGeneration], [PDFExport])
    - [src/context/FormContext.tsx]       ([FormContext])
    - [src/components/FieldMapper.tsx]    ([FieldMapper])
    - [src/components/PDFPreview.tsx]     ([PDFPreview])

    The store of [templateSaver.ts] is [TemplateStore], the class of
    [fontLoader.ts] is [FontRegistry], the analysis of [pdfParser.ts] is
    [PDFAnalysis].

    Conventions of the embedding.

    - A JavaScript [number] is an exact rational ([Q]).  Rounding of
      binary64 arithmetic, [NaN] and the infinities are not represented;
      a division by zero is the [x / 0 = 0] of [Q].  The statements below
      either have non-zero divisors or do not depend on the value of the
      quotient.  Equality of numbers is [Qeq] (written [==]).  A statement
      that holds of the exact numbers only says so; [Binary64] has the
      conversions between the page and the canvas over binary64.
    - A JavaScript string is a [string] of 8-bit characters;
      [toLowerCase] and [trim] are restricted to these code points.
    - A [Map] is a [gmap], a [Set<number>] is a [gset nat].
    - Code that calls into the browser or into jsPDF takes the foreign
      behaviour as a parameter (a text-metrics function, a transition
      function of the jsPDF document that may throw, an encoder).
    - Exceptions are values: a computation returns [inl e] when it throws
      [e] and [inr v] when it returns [v]. *)

From Stdlib Require Import QArith Qabs Qminmax Qround Lqa Lia.
From Stdlib Require Import Ascii String DecimalString.
From Stdlib Require Floats.
From stdpp Require Import gmap strings list.

Set Default Proof Using "Type".
Local Open Scope Q_scope.

(** ** Part I. The embedding *)

(** *** [src/types/index.ts] *)

Record PDFDimensions := mkDimensions {
  width : Q;
  height : Q
}.

(** The object literal [{ x, y }] returned by the converter. *)
Record Coords := mkCoords {
  cx : Q;
  cy : Q
}.

Inductive CoordinateSystem := pdf | canvas | screen.

Definition CoordinateSystem_eqb (a b : CoordinateSystem) : bool :=
  match a, b with
  | pdf, pdf | canvas, canvas | screen, screen => true
  | _, _ => false
  end.

(** *** [src/utils/coordinateConverter.ts] *)

(** [Math.round]: the nearest integer, a tie going up. *)
Definition Math_round (q : Q) : Q := inject_Z (Qfloor (q + (1 # 2))).

Module CoordinateConverter.

(** The four private members of the class. *)
Record t := new {
  pdfDimensions : PDFDimensions;
  canvasDimensions : PDFDimensions;
  scale : Q;
  dpi : Q
}.

Definition pdfToCanvas (this : t) (x y : Q) : Coords :=
  let scaleX := width (canvasDimensions this) / width (pdfDimensions this) in
  let scaleY := height (canvasDimensions this) / height (pdfDimensions this) in
  {| cx := x * scaleX;
     cy := height (canvasDimensions this) - (y * scaleY) |}.

Definition canvasToPdf (this : t) (x y : Q) : Coords :=
  let scaleX := width (pdfDimensions this) / width (canvasDimensions this) in
  let scaleY := height (pdfDimensions this) / height (canvasDimensions this) in
  {| cx := x * scaleX;
     cy := (height (canvasDimensions this) - y) * scaleY |}.

Definition canvasToScreen (this : t) (x y : Q) : Coords :=
  {| cx := x * scale this; cy := y * scale this |}.

Definition screenToCanvas (this : t) (x y : Q) : Coords :=
  {| cx := x / scale this; cy := y / scale this |}.

Definition pdfToScreen (this : t) (x y : Q) : Coords :=
  let canvas := pdfToCanvas this x y in
  canvasToScreen this (cx canvas) (cy canvas).

Definition screenToPdf (this : t) (x y : Q) : Coords :=
  let canvas := screenToCanvas this x y in
  canvasToPdf this (cx canvas) (cy canvas).

Definition convert (this : t) (x y : Q) (from to : CoordinateSystem) : Coords :=
  if CoordinateSystem_eqb from to then {| cx := x; cy := y |}
  else
    let canvasCoords :=
      match from with
      | pdf => pdfToCanvas this x y
      | screen => screenToCanvas this x y
      | canvas => {| cx := x; cy := y |}
      end in
    match to with
    | pdf => canvasToPdf this (cx canvasCoords) (cy canvasCoords)
    | screen => canvasToScreen this (cx canvasCoords) (cy canvasCoords)
    | canvas => canvasCoords
    end.

Definition pointsToPixels (this : t) (points : Q) : Q :=
  (points * dpi this) / 72.

Definition pixelsToPoints (this : t) (pixels : Q) : Q :=
  (pixels * 72) / dpi this.

Definition updateScale (this : t) (newScale : Q) : t :=
  {| pdfDimensions := pdfDimensions this;
     canvasDimensions := canvasDimensions this;
     scale := newScale;
     dpi := dpi this |}.

Definition getScale (this : t) : Q := scale this.

(** [createCoordinateConverter] without the optional arguments: the canvas
    has the size of the page, [scale = 1], [dpi = 72]. *)
Definition create (pdfDims canvasDims : PDFDimensions) : t :=
  new pdfDims canvasDims 1 72.

Definition snapToGrid (this : t) (x y gridSize : Q) : Coords :=
  {| cx := Math_round (x / gridSize) * gridSize;
     cy := Math_round (y / gridSize) * gridSize |}.

(** The static method [calculateFitScale]; [padding] is 20 when left
    out. *)
Definition calculateFitScale (pdfDims containerDims : PDFDimensions) (padding : Q) : Q :=
  let scaleX := (width containerDims - padding * 2) / width pdfDims in
  let scaleY := (height containerDims - padding * 2) / height pdfDims in
  Qmin scaleX scaleY.

Definition default_padding : Q := 20.

End CoordinateConverter.

(** *** [src/utils/pdfParser.ts] *)

(** JavaScript white space among the 8-bit code points: TAB, LF, VT, FF,
    CR, SPACE and NO-BREAK SPACE. *)
Definition is_whitespace (c : ascii) : bool :=
  let n := nat_of_ascii c in
  ((9 <=? n)%nat && (n <=? 13)%nat) || (n =? 32)%nat || (n =? 160)%nat.

Definition is_empty_string (s : string) : bool :=
  match s with EmptyString => true | String _ _ => false end.

Fixpoint trimStart (s : string) : string :=
  match s with
  | EmptyString => EmptyString
  | String c s' => if is_whitespace c then trimStart s' else s
  end.

Fixpoint trimEnd (s : string) : string :=
  match s with
  | EmptyString => EmptyString
  | String c s' =>
      let r := trimEnd s' in
      if is_whitespace c && is_empty_string r then EmptyString else String c r
  end.

Definition trim (s : string) : string := trimEnd (trimStart s).

(** A string in a condition: the empty string is the only falsy one. *)
Definition truthy_string (s : string) : bool := negb (is_empty_string s).

(** [a || b] on strings. *)
Definition or_string (a b : string) : string :=
  if truthy_string a then a else b.

Module PDFParser.

(** The transformation matrix [[a, b, c, d, e, f]] of a text item;
    [transform[3]] is [td], [transform[4]] is [te], [transform[5]] is
    [tf]. *)
Record Transform := mkTransform {
  ta : Q; tb : Q; tc : Q; td : Q; te : Q; tf : Q
}.

Record TextItem := mkTextItem {
  str : string;
  transform : Transform;
  item_width : Q;
  item_height : Q;
  item_fontName : string;
  dir : string
}.

(** An entry of [textContent.items]: a text item, or marked content, which
    has no [str] property. *)
Inductive ContentItem :=
| Text (item : TextItem)
| MarkedContent.

Record ExtractedFieldData := mkExtracted {
  ef_text : string;
  ef_x : Q;
  ef_y : Q;
  ef_width : Q;
  ef_height : Q;
  ef_fontName : string;
  ef_fontSize : Q
}.

(** What [pdf.getPage], [page.getTextContent] and
    [page.getViewport({ scale: 1.0 })] deliver for one page. *)
Record Page := mkPage {
  viewport : PDFDimensions;
  items : list ContentItem
}.

(** The test [('str' in item && item.str.trim())] of the callback. *)
Definition has_text (item : ContentItem) : bool :=
  match item with
  | Text i => truthy_string (trim (str i))
  | MarkedContent => false
  end.

(** The body of the [forEach] callback: what is pushed for one item. *)
Definition extractItem (viewportHeight : Q) (extractedFields : list ExtractedFieldData)
    (item : ContentItem) : list ExtractedFieldData :=
  match item with
  | Text i =>
      if truthy_string (trim (str i)) then
        let x := te (transform i) in
        let y := viewportHeight - tf (transform i) in
        let fontSize := Qabs (td (transform i)) in
        extractedFields ++
          [ {| ef_text := str i;
               ef_x := x;
               ef_y := y;
               ef_width := item_width i;
               ef_height := item_height i;
               ef_fontName := or_string (item_fontName i) "Unknown";
               ef_fontSize := fontSize |} ]
      else extractedFields
  | MarkedContent => extractedFields
  end.

(** [page] is [None] when one of the awaited calls rejects; the [catch]
    block then throws a fresh [Error]. *)
Definition extractTextWithPositions (page : option Page)
    : string + list ExtractedFieldData :=
  match page with
  | None => inl "Failed to extract text from PDF"%string
  | Some p => inr (fold_left (extractItem (height (viewport p))) (items p) [])
  end.

(** The inner [for] loop, from index [i] on; [rest] is
    [extractedData.slice(i)]. *)
Fixpoint scanLine (rest : list ExtractedFieldData) (i : nat) (currentY maxDistance : Q)
    (group : list ExtractedFieldData) (processed : gset nat)
    : list ExtractedFieldData * gset nat :=
  match rest with
  | [] => (group, processed)
  | nextItem :: rest' =>
      if decide (i ∈ processed) then
        scanLine rest' (S i) currentY maxDistance group processed
      else
        let yDiff := Qabs (ef_y nextItem - currentY) in
        if Qle_bool yDiff maxDistance then
          scanLine rest' (S i) currentY maxDistance (group ++ [nextItem]) ({[ i ]} ∪ processed)
        else
          scanLine rest' (S i) currentY maxDistance group processed
  end.

(** [Math.min(...l)] and [Math.max(...l)] for a list with head [a]. *)
Definition Math_min (a : Q) (l : list Q) : Q := fold_left Qmin l a.
Definition Math_max (a : Q) (l : list Q) : Q := fold_left Qmax l a.

(** The merge of a group into one field; [None] when the test
    [group.length > 0] fails. *)
Definition mergeGroup (item : ExtractedFieldData) (group : list ExtractedFieldData)
    : option ExtractedFieldData :=
  match group with
  | [] => None
  | g0 :: gs =>
      let minX := Math_min (ef_x g0) (map ef_x gs) in
      let maxX := Math_max (ef_x g0 + ef_width g0) (map (fun g => ef_x g + ef_width g) gs) in
      let avgY := fold_left (fun sum g => sum + ef_y g) group 0
                  / inject_Z (Z.of_nat (length group)) in
      Some {| ef_text := String.concat " " (map ef_text group);
              ef_x := minX;
              ef_y := avgY;
              ef_width := maxX - minX;
              ef_height := ef_height item;
              ef_fontName := ef_fontName item;
              ef_fontSize := ef_fontSize item |}
  end.

(** The outer [forEach], from index [index] on. *)
Fixpoint groupFrom (rest : list ExtractedFieldData) (index : nat) (maxDistance : Q)
    (grouped : list ExtractedFieldData) (processed : gset nat)
    : list ExtractedFieldData :=
  match rest with
  | [] => grouped
  | item :: rest' =>
      if decide (index ∈ processed) then
        groupFrom rest' (S index) maxDistance grouped processed
      else
        let currentY := ef_y item in
        let '(group, processed1) :=
          scanLine rest' (S index) currentY maxDistance [item] processed in
        match mergeGroup item group with
        | Some merged =>
            groupFrom rest' (S index) maxDistance (grouped ++ [merged])
                      ({[ index ]} ∪ processed1)
        | None => groupFrom rest' (S index) maxDistance grouped processed1
        end
  end.

Definition groupNearbyText (extractedData : list ExtractedFieldData) (maxDistance : Q)
    : list ExtractedFieldData :=
  groupFrom extractedData 0 maxDistance [] ∅.

(** The default value of [maxDistance]. *)
Definition default_maxDistance : Q := 5.

End PDFParser.

(** *** [src/utils/fontLoader.ts] *)

(** [a > b] on numbers. *)
Definition Qgt_bool (a b : Q) : bool := negb (Qle_bool a b).

Definition space : ascii := " "%char.

(** [s.split(' ')]: the pieces between the spaces, empty pieces kept;
    the result is never the empty list. *)
Fixpoint split_space (s : string) : list string :=
  match s with
  | EmptyString => [EmptyString]
  | String c s' =>
      if Ascii.eqb c space then EmptyString :: split_space s'
      else match split_space s' with
           | [] => [String c EmptyString]
           | w :: ws => String c w :: ws
           end
  end.

(** [l.join(' ')]. *)
Definition join_space (l : list string) : string := String.concat " " l.

Module FontLoader.

(** A 2D canvas context as far as the module uses it: the width
    [measureText(text).width] once [context.font] has been set to
    [`${fontSize}px ${fontFamily}`]. *)
Definition Context2D := Q -> string -> string -> Q.

(** [context] is [None] when [canvas.getContext('2d')] returns [null]. *)
Definition measureTextWidth (context : option Context2D)
    (text : string) (fontSize : Q) (fontFamily : string) : Q :=
  match context with
  | None => 0
  | Some ctx => ctx fontSize fontFamily text
  end.

(** The [for (const word of words)] loop, carrying [lines] and
    [currentLine]. *)
Fixpoint wrapLoop (measureText : string -> Q) (maxWidth : Q) (words : list string)
    (lines : list string) (currentLine : string) : list string * string :=
  match words with
  | [] => (lines, currentLine)
  | word :: words' =>
      let testLine :=
        if truthy_string currentLine then (currentLine ++ " " ++ word)%string else word in
      let metrics_width := measureText testLine in
      if Qgt_bool metrics_width maxWidth && truthy_string currentLine then
        wrapLoop measureText maxWidth words' (lines ++ [currentLine]) word
      else
        wrapLoop measureText maxWidth words' lines testLine
  end.

Definition wrapText (context : option Context2D)
    (text : string) (maxWidth fontSize : Q) (fontFamily : string) : list string :=
  match context with
  | None => [text]
  | Some ctx =>
      let words := split_space text in
      let '(lines, currentLine) :=
        wrapLoop (ctx fontSize fontFamily) maxWidth words [] EmptyString in
      if truthy_string currentLine then lines ++ [currentLine] else lines
  end.

End FontLoader.

(** *** [src/utils/templateSaver.ts] *)

#[local] Set Warnings "-register-all".

(** The values [JSON.parse] produces.  An object is the list of its
    members, a property being read from the first member of that name. *)
Inductive json :=
| JNull
| JBool (b : bool)
| JNumber (q : Q)
| JString (s : string)
| JArray (elements : list json)
| JObject (members : list (string * json)).

Fixpoint assoc {A : Type} (key : string) (members : list (string * A)) : option A :=
  match members with
  | [] => None
  | (k, v) :: rest => if String.eqb k key then Some v else assoc key rest
  end.

(** [obj.key = v] on an object: an existing member is replaced in place,
    a new one is appended. *)
Fixpoint assoc_set {A : Type} (key : string) (v : A) (members : list (string * A))
    : list (string * A) :=
  match members with
  | [] => [(key, v)]
  | (k, w) :: rest =>
      if String.eqb k key then (k, v) :: rest else (k, w) :: assoc_set key v rest
  end.

(** Truthiness of a JSON value. *)
Definition truthy (v : json) : bool :=
  match v with
  | JNull => false
  | JBool b => b
  | JNumber q => negb (Qeq_bool q 0)
  | JString s => truthy_string s
  | JArray _ | JObject _ => true
  end.

(** Truthiness of the result of a property read; [None] is [undefined]. *)
Definition truthy_value (v : option json) : bool :=
  match v with
  | None => false
  | Some j => truthy j
  end.

(** [typeof v === 'object'] ([null] included). *)
Definition typeof_object (v : json) : bool :=
  match v with
  | JNull | JArray _ | JObject _ => true
  | _ => false
  end.

(** [key in v] for an object or an array; of an array only [length] is
    looked at, the names asked for are never array indices. *)
Definition has_property (key : string) (v : json) : bool :=
  match v with
  | JObject members => bool_decide (is_Some (assoc key members))
  | JArray _ => String.eqb key "length"
  | _ => false
  end.

(** The read [v.key]: [inl tt] is the [TypeError] of reading a property of
    [null]; [inr None] is [undefined].  Only [width], [height] and member
    names of objects are read. *)
Definition get_property (v : json) (key : string) : unit + option json :=
  match v with
  | JNull => inl tt
  | JObject members => inr (assoc key members)
  | _ => inr None
  end.

Definition Array_isArray (v : option json) : bool :=
  match v with
  | Some (JArray _) => true
  | _ => false
  end.

Module TemplateSaver.

Definition requiredFields : list string :=
  ["id"; "templateName"; "pdfDimensions"; "fields"]%string.

(** [inl tt] when the body throws a [TypeError]. *)
Definition validateTemplate (template : json) : unit + bool :=
  if negb (truthy template) || negb (typeof_object template) then inr false
  else
    let hasRequiredFields :=
      forallb (fun field => has_property field template) requiredFields in
    if negb hasRequiredFields then inr false
    else
      match get_property template "pdfDimensions" with
      | inl e => inl e
      | inr None => inl tt
      | inr (Some pdfDimensions) =>
          match get_property pdfDimensions "width" with
          | inl e => inl e
          | inr w =>
              if negb (truthy_value w) then inr false
              else
                match get_property pdfDimensions "height" with
                | inl e => inl e
                | inr h =>
                    if negb (truthy_value h) then inr false
                    else
                      match get_property template "fields" with
                      | inl e => inl e
                      | inr fields =>
                          if negb (Array_isArray fields) then inr false
                          else inr true
                      end
                end
          end
      end.

(** How the promise returned by [importTemplate] settles. *)
Inductive Settled :=
| Resolved (template : json)
| Rejected (message : string).

Definition set_updatedAt (template : json) (now : string) : json :=
  match template with
  | JObject members => JObject (assoc_set "updatedAt" (JString now) members)
  | other => other
  end.

(** [content] is [None] when the [FileReader] fails; [JSON_parse] returns
    [None] when [JSON.parse] throws; [now] is
    [new Date().toISOString()]. *)
Definition importTemplate (JSON_parse : string -> option json) (now : string)
    (content : option string) : Settled :=
  match content with
  | None => Rejected "Failed to read template file"
  | Some c =>
      match JSON_parse c with
      | None => Rejected "Failed to parse template file"
      | Some template =>
          match validateTemplate template with
          | inl _ => Rejected "Failed to parse template file"
          | inr false => Rejected "Invalid template format"
          | inr true => Resolved (set_updatedAt template now)
          end
      end
  end.

End TemplateSaver.

(** *** [src/context/FormContext.tsx] and [src/App.tsx]: the import handler *)

Module App.

Record NotificationMessage := mkNotification {
  n_type : string;
  n_message : string
}.

(** The part of [AppState] the import handler can reach. *)
Record AppState := mkAppState {
  currentTemplate : option json;
  formData : list (string * json);
  selectedFieldId : option string;
  notifications : list NotificationMessage
}.

(** The reducer case [SET_TEMPLATE]. *)
Definition setTemplate (payload : json) (state : AppState) : AppState :=
  {| currentTemplate := Some payload;
     formData := [];
     selectedFieldId := None;
     notifications := notifications state |}.

(** The reducer case [ADD_NOTIFICATION]. *)
Definition addNotification (type message : string) (state : AppState) : AppState :=
  {| currentTemplate := currentTemplate state;
     formData := formData state;
     selectedFieldId := selectedFieldId state;
     notifications := notifications state ++ [mkNotification type message] |}.

(** [file] is [None] when no file was chosen; a chosen file is the content
    the reader delivers, if any. *)
Definition handleImportTemplate (JSON_parse : string -> option json) (now : string)
    (file : option (option string)) (state : AppState) : AppState :=
  match file with
  | None => state
  | Some content =>
      match TemplateSaver.importTemplate JSON_parse now content with
      | TemplateSaver.Resolved importedTemplate =>
          addNotification "success" "Template imported successfully!"
            (setTemplate importedTemplate state)
      | TemplateSaver.Rejected _ =>
          addNotification "error" "Failed to import template" state
      end
  end.

End App.

(** *** [src/utils/fontMatcher.ts] *)

(** [c.toLowerCase()] on one 8-bit character: A-Z, and the capital letters
    of Latin-1 (192-222 without the multiplication sign 215). *)
Definition lower_char (c : ascii) : ascii :=
  let n := nat_of_ascii c in
  if ((65 <=? n)%nat && (n <=? 90)%nat)
     || ((192 <=? n)%nat && (n <=? 222)%nat && negb (n =? 215)%nat)
  then ascii_of_nat (n + 32) else c.

Fixpoint toLowerCase (s : string) : string :=
  match s with
  | EmptyString => EmptyString
  | String c s' => String (lower_char c) (toLowerCase s')
  end.

(** [s] starts with [p], letter case ignored; [p] is in lower case. *)
Fixpoint starts_with_ci (p s : string) : bool :=
  match p, s with
  | EmptyString, _ => true
  | String a p', String b s' => Ascii.eqb a (lower_char b) && starts_with_ci p' s'
  | String _ _, EmptyString => false
  end.

(** The alternatives of the group [(Bold|Italic|BoldItalic|Oblique)], in
    the order the regular expression tries them. *)
Definition style_alternatives : list string :=
  ["bold"; "italic"; "bolditalic"; "oblique"]%string.

(** The length of the first alternative that matches at the start of [s];
    nothing follows the group in the pattern, so the first alternative that
    matches is the one taken. *)
Definition match_alternative (s : string) : option nat :=
  String.length <$> List.find (fun alt => starts_with_ci alt s) style_alternatives.

(** [s.replace(/-(Bold|Italic|BoldItalic|Oblique)/gi, '')]: a left-to-right
    scan; [skip] counts the characters of the current match still to be
    dropped. *)
Fixpoint replace_style (skip : nat) (s : string) : string :=
  match s with
  | EmptyString => EmptyString
  | String c s' =>
      match skip with
      | S k => replace_style k s'
      | O =>
          if Ascii.eqb c "-" then
            match match_alternative s' with
            | Some n => replace_style n s'
            | None => String c (replace_style 0 s')
            end
          else String c (replace_style 0 s')
      end
  end.

(** [new Map(entries)]: the entries are set one after the other, a later
    entry replaces an earlier one with the same key. *)
Definition Map_of {A : Type} (entries : list (string * A)) : gmap string A :=
  fold_left (fun m kv => <[ kv.1 := kv.2 ]> m) entries ∅.

(** [hay.includes(needle)]. *)
Fixpoint includes (needle hay : string) : bool :=
  match hay with
  | EmptyString => String.prefix needle EmptyString
  | String _ hay' => String.prefix needle hay || includes needle hay'
  end.

(** [Array.from(new Set(l))]: the elements of [l] in the order of their
    first occurrence; [seen] holds the elements already in the set. *)
Fixpoint unique_from (seen l : list string) : list string :=
  match l with
  | [] => []
  | a :: rest =>
      if existsb (String.eqb a) seen then unique_from seen rest
      else a :: unique_from (a :: seen) rest
  end.

(** [s.replace(/\s+/g, ' ')]: every run of white space becomes one space;
    [in_run] tells that the previous character was white space. *)
Fixpoint collapse_whitespace (in_run : bool) (s : string) : string :=
  match s with
  | EmptyString => EmptyString
  | String c s' =>
      if is_whitespace c then
        if in_run then collapse_whitespace true s'
        else String space (collapse_whitespace true s')
      else String c (collapse_whitespace false s')
  end.

(** The exported helper [normalizeFontName]. *)
Definition normalizeFontName (fontName : string) : string :=
  collapse_whitespace false (trim fontName).

Module FontMatcher.

Record Font := mkFont {
  name : string;
  family : string;
  path : string;
  loaded : bool
}.

Record FontMapping := mkMapping {
  pdfFont : string;
  systemFont : string;
  fallbacks : list string
}.

Definition FONT_MAPPINGS : list FontMapping :=
  [ mkMapping "Helvetica" "Arial" ["Helvetica"; "Arial"; "sans-serif"];
    mkMapping "Helvetica-Bold" "Arial" ["Helvetica"; "Arial"; "sans-serif"];
    mkMapping "Times-Roman" "Times New Roman" ["Times"; "Times New Roman"; "serif"];
    mkMapping "Times-Bold" "Times New Roman" ["Times"; "Times New Roman"; "serif"];
    mkMapping "Courier" "Courier New" ["Courier"; "Courier New"; "monospace"];
    mkMapping "Courier-Bold" "Courier New" ["Courier"; "Courier New"; "monospace"];
    mkMapping "Symbol" "Symbol" ["Symbol"; "serif"];
    mkMapping "ZapfDingbats" "Zapf Dingbats" ["Zapf Dingbats"; "serif"] ]%string.

Record t := mkMatcher {
  customFonts : gmap string Font;
  fontMappings : gmap string FontMapping
}.

(** The constructor. *)
Definition new (fonts : list Font) : t :=
  {| customFonts := Map_of (map (fun font => (toLowerCase (name font), font)) fonts);
     fontMappings := Map_of (map (fun m => (toLowerCase (pdfFont m), m)) FONT_MAPPINGS) |}.

Definition addFontMapping (this : t) (pdfFont systemFont : string) (fallbacks : list string) : t :=
  {| customFonts := customFonts this;
     fontMappings :=
       <[ toLowerCase pdfFont := mkMapping pdfFont systemFont fallbacks ]> (fontMappings this) |}.

Definition addCustomFont (this : t) (font : Font) : t :=
  {| customFonts := <[ toLowerCase (name font) := font ]> (customFonts this);
     fontMappings := fontMappings this |}.

Definition matchFont (this : t) (pdfFontName : string) : string :=
  let normalizedName := toLowerCase pdfFontName in
  match customFonts this !! normalizedName with
  | Some customFont => or_string (family customFont) pdfFontName
  | None =>
      match fontMappings this !! normalizedName with
      | Some mapping => systemFont mapping
      | None =>
          let baseFontName := replace_style 0 pdfFontName in
          let normalizedBaseName := toLowerCase baseFontName in
          match fontMappings this !! normalizedBaseName with
          | Some baseMapping => or_string (systemFont baseMapping) pdfFontName
          | None => pdfFontName
          end
      end
  end.

Definition isSansSerif (fontName : string) : bool :=
  let sansSerifPatterns := ["helvetica"; "arial"; "verdana"; "tahoma"; "trebuchet"]%string in
  let normalized := toLowerCase fontName in
  existsb (fun pattern => includes pattern normalized) sansSerifPatterns.

Definition isMonospace (fontName : string) : bool :=
  let monospacePatterns := ["courier"; "monaco"; "consolas"; "monospace"]%string in
  let normalized := toLowerCase fontName in
  existsb (fun pattern => includes pattern normalized) monospacePatterns.

Definition getFontFallbacks (this : t) (pdfFontName : string) : list string :=
  let normalizedName := toLowerCase pdfFontName in
  match fontMappings this !! normalizedName with
  | Some mapping => fallbacks mapping
  | None =>
      if isSansSerif pdfFontName then ["Arial"; "Helvetica"; "sans-serif"]%string
      else if isMonospace pdfFontName then ["Courier New"; "Courier"; "monospace"]%string
      else ["Times New Roman"; "Times"; "serif"]%string
  end.

(** The array [uniqueFonts] of [getFontFamily]. *)
Definition uniqueFonts (this : t) (pdfFontName : string) : list string :=
  let primaryFont := matchFont this pdfFontName in
  let fallbacks := getFontFallbacks this pdfFontName in
  unique_from [] (primaryFont :: fallbacks).

(** The callback of [uniqueFonts.map]: a name with a space is quoted. *)
Definition quote_font (font : string) : string :=
  if includes " " font then (String (ascii_of_nat 34) font ++ String (ascii_of_nat 34) "")%string
  else font.

Definition getFontFamily (this : t) (pdfFontName : string) : string :=
  String.concat ", " (map quote_font (uniqueFonts this pdfFontName)).

Definition getFontWeight (pdfFontName : string) : string :=
  if includes "bold" (toLowerCase pdfFontName) then "bold"%string else "normal"%string.

Definition getFontStyle (pdfFontName : string) : string :=
  let normalized := toLowerCase pdfFontName in
  if includes "italic" normalized then "italic"%string
  else if includes "oblique" normalized then "oblique"%string
  else "normal"%string.

End FontMatcher.

(** *** [src/hooks/usePDFGeneration.ts] *)

Module PDFGeneration.

Inductive FieldType := text | number | date | dropdown | checkbox | textarea.

Record Field := mkField {
  id : string;
  label : string;
  type : FieldType;
  x : Q;
  y : Q;
  fontSize : Q;
  fontFamily : string;
  fontWeight : string;
  color : string;
  maxWidth : option Q;
  alignment : string;
  multiline : option bool
}.

Record Template := mkTemplate {
  templateName : string;
  pdfDimensions : PDFDimensions;
  backgroundImage : string;
  fields : list Field
}.

(** A value stored in [FormData]; a missing key reads as [undefined],
    which is [None] of [formData !! key]. *)
Inductive Value :=
| VString (s : string)
| VNumber (n : Q)
| VBoolean (b : bool)
| VNull.

Inductive Format := fmt_pdf | fmt_png | fmt_jpg.

(** [Partial<ExportOptions>]: [None] is a property left out. *)
Record ExportOptions := mkOptions {
  format : option Format;
  quality : option Q;
  includeBackground : option bool
}.

(** What is thrown: an [Error] with its message, or some other value. *)
Inductive Thrown :=
| Error (message : string)
| NotAnError.

(** The calls made on the jsPDF document; [drawText] is [pdf.text]. *)
Inductive Call :=
| addImage (imageData : string) (px py w h : Q)
| setFont (fontName fontStyle : string)
| setFontSize (size : Q)
| setTextColor (c : string)
| drawText (s : string) (px py : Q) (options : option (string * Q)).

(** What the hook does that can be observed from outside: its state
    setters, the console, and the calls it issues on the document (a call
    is recorded when it is issued, whether or not it throws). *)
Inductive Event :=
| setIsGenerating (b : bool)
| setProgress (p : Q)
| setError (e : option string)
| console_warn
| console_error
| Called (c : Call).

(** The mark drawn for a ticked checkbox: the string literal of the
    source, whose three characters are given by their Windows-1252 codes
    (they are the UTF-8 bytes of a check mark). *)
Definition checkMark : string :=
  String (ascii_of_nat 226) (String (ascii_of_nat 156) (String (ascii_of_nat 147) EmptyString)).

Definition px_to_mm : Q := 264583 # 1000000.

Section Render.

(** The jsPDF document and the produced blob. *)
Variables Doc Blob : Type.

(** The foreign code: the constructor of the document, one call on it, the
    production of the blob ([pdf.output('blob')], or the two awaited
    helpers for an image), the canvas context of [wrapText], and
    [String(n)] for a number. *)
Record Backend := mkBackend {
  jsPDF_new : string -> Q -> Q -> Thrown + Doc;
  jsPDF_call : Doc -> Call -> Thrown + Doc;
  toBlob : Doc -> Format -> Q -> Thrown + Blob;
  context2d : option FontLoader.Context2D;
  String_of_number : Q -> string
}.

Variable B : Backend.

Record State := mkState {
  doc : Doc;
  log : list Event
}.

(** Computations of the [try] block: a state transformer that returns a
    value or throws. *)
Definition M (A : Type) : Type := State -> State * (Thrown + A).

Definition ret {A : Type} (a : A) : M A := fun s => (s, inr a).

Definition bind {A C : Type} (m : M A) (k : A -> M C) : M C :=
  fun s =>
    match m s with
    | (s', inl e) => (s', inl e)
    | (s', inr a) => k a s'
    end.

Declare Scope render_scope.
Delimit Scope render_scope with render.
Notation "m ;; k" := (bind m (fun _ => k))
  (at level 100, k at level 200, right associativity) : render_scope.
Local Open Scope render_scope.

Definition emit (e : Event) : M unit :=
  fun s => ({| doc := doc s; log := log s ++ [e] |}, inr tt).

Definition call (c : Call) : M unit :=
  fun s =>
    let s1 := {| doc := doc s; log := log s ++ [Called c] |} in
    match jsPDF_call B (doc s) c with
    | inl e => (s1, inl e)
    | inr d => ({| doc := d; log := log s1 |}, inr tt)
    end.

(** [try { m } catch (err) { h }]. *)
Definition try_catch (m : M unit) (h : M unit) : M unit :=
  fun s =>
    match m s with
    | (s', inl _) => h s'
    | (s', inr a) => (s', inr a)
    end.

(** [l.forEach((a, index) => f a index)], from [index] on. *)
Fixpoint forEach {A : Type} (f : A -> nat -> M unit) (l : list A) (index : nat) : M unit :=
  match l with
  | [] => ret tt
  | a :: rest => f a index ;; forEach f rest (S index)
  end.

(** [value === undefined || value === null || value === ''] *)
Definition unfilled (value : option Value) : bool :=
  match value with
  | None => true
  | Some VNull => true
  | Some (VString s) => is_empty_string s
  | Some _ => false
  end.

(** [value === true || value === 'true' || value === '1'] *)
Definition isChecked (value : option Value) : bool :=
  match value with
  | Some (VBoolean b) => b
  | Some (VString s) => String.eqb s "true" || String.eqb s "1"
  | _ => false
  end.

(** [String(value)]. *)
Definition String_of (value : option Value) : string :=
  match value with
  | None => "undefined"
  | Some VNull => "null"
  | Some (VString s) => s
  | Some (VNumber n) => String_of_number B n
  | Some (VBoolean true) => "true"
  | Some (VBoolean false) => "false"
  end.

(** A number in a condition; [None] is [undefined]. *)
Definition truthy_number (n : option Q) : bool :=
  match n with
  | Some q => negb (Qeq_bool q 0)
  | None => false
  end.

Definition is_checkbox (ty : FieldType) : bool :=
  match ty with checkbox => true | _ => false end.

Definition of_nat (n : nat) : Q := inject_Z (Z.of_nat n).

(** The callback of [template.fields.forEach]. *)
Definition renderField (converter : CoordinateConverter.t) (pdfWidth : Q)
    (formData : gmap string Value) (fields_length : nat)
    (field : Field) (index : nat) : M unit :=
  let value := formData !! id field in
  if unfilled value then ret tt
  else
    let pdfCoords := CoordinateConverter.canvasToPdf converter (x field) (y field) in
    let xMm := cx pdfCoords * px_to_mm in
    let yMm := cy pdfCoords * px_to_mm in
    call (setFont (or_string (fontFamily field) "helvetica") (fontWeight field)) ;;
    call (setFontSize (fontSize field)) ;;
    call (setTextColor (or_string (color field) "#000000")) ;;
    let maxWidthMm :=
      match maxWidth field with
      | Some w => if truthy_number (Some w) then w * px_to_mm else pdfWidth - xMm
      | None => pdfWidth - xMm
      end in
    let valueStr := String_of value in
    (if is_checkbox (type field) then
       if isChecked value then
         call (setFontSize (fontSize field)) ;;
         call (drawText checkMark xMm yMm None)
       else ret tt
     else
       match maxWidth field, multiline field with
       | Some w, Some true =>
           if truthy_number (Some w) then
             let lines :=
               FontLoader.wrapText (context2d B) valueStr w (fontSize field) (fontFamily field) in
             let lineHeight := fontSize field * (12 # 10) * px_to_mm in
             forEach (fun line i =>
                        call (drawText line xMm (yMm + of_nat i * lineHeight)
                                (Some (or_string (alignment field) "left", maxWidthMm))))
                     lines 0
           else
             call (drawText valueStr xMm yMm
                     (Some (or_string (alignment field) "left", maxWidthMm)))
       | _, _ =>
           call (drawText valueStr xMm yMm
                   (Some (or_string (alignment field) "left", maxWidthMm)))
       end) ;;
    emit (setProgress (40 + (of_nat index / of_nat fields_length) * 50)).

Definition or_default {A : Type} (o : option A) (d : A) : A :=
  match o with Some a => a | None => d end.

(** The [try] block once the document exists. *)
Definition tryBlock (template : Template) (formData : gmap string Value)
    (options : ExportOptions) (pdfWidth pdfHeight : Q) : M Blob :=
  let fmt := or_default (format options) fmt_pdf in
  let qual := or_default (quality options) 95 in
  let withBackground := or_default (includeBackground options) true in
  emit (setProgress 20) ;;
  (if withBackground && truthy_string (backgroundImage template) then
     try_catch
       (call (addImage (backgroundImage template) 0 0 pdfWidth pdfHeight))
       (emit console_warn)
   else ret tt) ;;
  emit (setProgress 40) ;;
  let converter :=
    CoordinateConverter.new (pdfDimensions template) (pdfDimensions template) 1 72 in
  forEach (renderField converter pdfWidth formData (length (fields template)))
          (fields template) 0 ;;
  emit (setProgress 95) ;;
  bind (fun s => (s, toBlob B (doc s) fmt qual))
       (fun blob => emit (setProgress 100) ;; ret blob).

Definition errorMessage (err : Thrown) : string :=
  match err with
  | Error message => message
  | NotAnError => "Unknown error"
  end.

(** The [catch] and [finally] blocks. *)
Definition settle (events : list Event) (outcome : Thrown + Blob)
    : list Event * option Blob :=
  match outcome with
  | inr blob => (events ++ [setIsGenerating false], Some blob)
  | inl err =>
      (events ++ [setError (Some ("Failed to generate PDF: " ++ errorMessage err)%string);
                  console_error;
                  setIsGenerating false],
       None)
  end.

(** The observable events of one call, and the blob or [null]. *)
Definition generatePDF (template : Template) (formData : gmap string Value)
    (options : ExportOptions) : list Event * option Blob :=
  let start := [setIsGenerating true; setProgress 0; setError None] in
  let pdfWidth := width (pdfDimensions template) * px_to_mm in
  let pdfHeight := height (pdfDimensions template) * px_to_mm in
  let orientation :=
    if Qgt_bool pdfWidth pdfHeight then "landscape"%string else "portrait"%string in
  match jsPDF_new B orientation pdfWidth pdfHeight with
  | inl err => settle start (inl err)
  | inr pdf0 =>
      let '(s, outcome) :=
        tryBlock template formData options pdfWidth pdfHeight
                 {| doc := pdf0; log := start |} in
      settle (log s) outcome
  end.

End Render.

Arguments mkBackend {Doc Blob}.
Arguments jsPDF_new {Doc Blob}.
Arguments jsPDF_call {Doc Blob}.
Arguments toBlob {Doc Blob}.
Arguments context2d {Doc Blob}.
Arguments String_of_number {Doc Blob}.
Arguments mkState {Doc}.
Arguments doc {Doc}.
Arguments log {Doc}.
Arguments ret {Doc A}.
Arguments bind {Doc A C}.
Arguments emit {Doc}.
Arguments call {Doc Blob}.
Arguments try_catch {Doc}.
Arguments forEach {Doc A}.
Arguments String_of {Doc Blob}.
Arguments renderField {Doc Blob}.
Arguments tryBlock {Doc Blob}.
Arguments settle {Blob}.
Arguments generatePDF {Doc Blob}.
Arguments or_default {A}.
Arguments M Doc A : clear implicits.

(** The progress values of a run, in the order they are reported. *)
Fixpoint progress_values (events : list Event) : list Q :=
  match events with
  | [] => []
  | setProgress p :: rest => p :: progress_values rest
  | _ :: rest => progress_values rest
  end.

(** The calls issued on the document, in order. *)
Fixpoint calls (events : list Event) : list Call :=
  match events with
  | [] => []
  | Called c :: rest => c :: calls rest
  | _ :: rest => calls rest
  end.

Definition is_drawText (c : Call) : bool :=
  match c with drawText _ _ _ _ => true | _ => false end.

(** The draw calls among the events. *)
Definition draws (events : list Event) : list Call :=
  List.filter is_drawText (calls events).

End PDFGeneration.

(** *** [src/utils/pdfParser.ts], continued: detection and analysis *)

(** [/needle/i.test(hay)] for a pattern that is a plain word in lower
    case: [hay] has a piece that is [needle], letter case ignored. *)
Fixpoint includes_ci (needle hay : string) : bool :=
  match hay with
  | EmptyString => starts_with_ci needle EmptyString
  | String _ hay' => starts_with_ci needle hay || includes_ci needle hay'
  end.

Module PDFAnalysis.
Import PDFParser.

(** The sources of the patterns [/name/i], [/address/i], ... *)
Definition labelPatterns : list string :=
  [ "name"; "address"; "phone"; "email"; "date"; "signature";
    "amount"; "number"; "city"; "state"; "zip"; "country" ]%string.

(** [labelPatterns.some(pattern => pattern.test(field.text))] *)
Definition isLabel (field : ExtractedFieldData) : bool :=
  existsb (fun pattern => includes_ci pattern (ef_text field)) labelPatterns.

Definition detectFormFields (extractedData : list ExtractedFieldData)
    : list ExtractedFieldData :=
  fold_left (fun formFields field =>
               if isLabel field then formFields ++ [field] else formFields)
            extractedData [].

(** What pdf.js delivers for a file that could be opened: the viewport of
    the first page for [getPDFDimensions], the first page for
    [extractTextWithPositions], and the data URL of the rendered page for
    [convertPageToImage]; [None] where the awaited calls reject (or the
    canvas has no 2D context). *)
Record Document := mkDocument {
  first_viewport : option PDFDimensions;
  first_page : option Page;
  rendered_page : option string
}.

Record Analysis := mkAnalysis {
  dimensions : PDFDimensions;
  suggestedFields : list ExtractedFieldData;
  backgroundImage : string
}.

(** [file] is [None] when the file cannot be read or opened; [inl] is the
    message of the [Error] the promise is rejected with. *)
Definition analyzePDFForFields (file : option Document) : string + Analysis :=
  match file with
  | None => inl "Failed to load PDF file"%string
  | Some pdfDoc =>
      match first_viewport pdfDoc with
      | None => inl "Failed to get PDF dimensions"%string
      | Some dims =>
          match extractTextWithPositions (first_page pdfDoc) with
          | inl message => inl message
          | inr extractedText =>
              let groupedText := groupNearbyText extractedText default_maxDistance in
              let suggested := detectFormFields groupedText in
              match rendered_page pdfDoc with
              | None => inl "Failed to convert PDF page to image"%string
              | Some image => inr (mkAnalysis dims suggested image)
              end
          end
      end
  end.

End PDFAnalysis.

(** *** [src/hooks/usePDFGeneration.ts], continued: download and batch *)

Module PDFExport.
Import PDFGeneration.

(** The options object as [exportPDF] and [batchExport] read it:
    [filename], and [rendering] for the properties that [generatePDF]
    reads. *)
Record Options := mkExport {
  filename : option string;
  rendering : ExportOptions
}.

(** The format as the string it is in the source. *)
Definition format_name (f : Format) : string :=
  match f with fmt_pdf => "pdf" | fmt_png => "png" | fmt_jpg => "jpg" end.

(** [options.filename || d]. *)
Definition filename_or (options : Options) (d : string) : string :=
  match filename options with
  | Some s => or_string s d
  | None => d
  end.

(** [options.format || 'pdf']. *)
Definition extension (options : Options) : string :=
  format_name (or_default (format (rendering options)) fmt_pdf).

(** An index in a template literal. *)
Definition decimal (n : nat) : string := NilZero.string_of_uint (Nat.to_uint n).

(** The name under which record [i] (from 0) of a batch is saved. *)
Definition recordFile (options : Options) (i : nat) : string :=
  ((filename_or options "form" ++ "_" ++ decimal (i + 1)) ++ "." ++ extension options)%string.

Section Exports.

Variables Doc Blob : Type.
Variable B : Backend Doc Blob.

(** [saveAs(blob, name)] of file-saver: [Some e] when it throws [e]. *)
Variable saveAs : Blob -> string -> option Thrown.

(** What is observed of an export: the events of the hook and the calls of
    [saveAs] (recorded when issued). *)
Inductive Observed :=
| Hook (e : Event)
| SaveAs (blob : Blob) (name : string).

Definition exportPDF (template : Template) (formData : gmap string Value)
    (options : Options) : list Observed * bool :=
  let '(events, blob) := generatePDF B template formData (rendering options) in
  match blob with
  | None => (map Hook events, false)
  | Some blob =>
      let name := (filename_or options "filled-form" ++ "." ++ extension options)%string in
      match saveAs blob name with
      | None => (map Hook events ++ [SaveAs blob name], true)
      | Some _ =>
          (map Hook events
             ++ [SaveAs blob name;
                 Hook (setError (Some "Failed to download file"%string));
                 Hook console_error],
           false)
      end
  end.

(** The [for] loop of [batchExport] from index [i] on; [total] is
    [records.length], and [observed], [success] and [failed] are what was
    observed and counted so far. *)
Fixpoint batchLoop (template : Template) (options : Options) (total : nat)
    (records : list (gmap string Value)) (i : nat)
    (observed : list Observed) (success failed : nat) : list Observed * (nat * nat) :=
  match records with
  | [] => (observed, (success, failed))
  | record :: rest =>
      let '(events, blob) := generatePDF B template record (rendering options) in
      let progress := Hook (setProgress ((of_nat (i + 1) / of_nat total) * 100)) in
      match blob with
      | Some blob =>
          match saveAs blob (recordFile options i) with
          | None =>
              batchLoop template options total rest (S i)
                (observed ++ map Hook events ++ [SaveAs blob (recordFile options i); progress])
                (S success) failed
          | Some _ =>
              batchLoop template options total rest (S i)
                (observed ++ map Hook events
                   ++ [SaveAs blob (recordFile options i); Hook console_error; progress])
                success (S failed)
          end
      | None =>
          batchLoop template options total rest (S i)
            (observed ++ map Hook events ++ [progress])
            success (S failed)
      end
  end.

Definition batchExport (template : Template) (records : list (gmap string Value))
    (options : Options) : list Observed * (nat * nat) :=
  let '(observed, counts) :=
    batchLoop template options (length records) records 0
      [Hook (setIsGenerating true); Hook (setProgress 0)] 0 0 in
  (observed ++ [Hook (setIsGenerating false)], counts).

End Exports.

Arguments Hook {Blob}.
Arguments SaveAs {Blob}.
Arguments exportPDF {Doc Blob}.
Arguments batchLoop {Doc Blob}.
Arguments batchExport {Doc Blob}.

(** The events of the hook among what was observed. *)
Fixpoint hook_events {Blob : Type} (observed : list (Observed Blob)) : list Event :=
  match observed with
  | [] => []
  | Hook e :: rest => e :: hook_events rest
  | SaveAs _ _ :: rest => hook_events rest
  end.

(** The files handed to [saveAs], in order. *)
Fixpoint saved {Blob : Type} (observed : list (Observed Blob)) : list (Blob * string) :=
  match observed with
  | [] => []
  | Hook _ :: rest => saved rest
  | SaveAs blob name :: rest => (blob, name) :: saved rest
  end.

End PDFExport.

(** *** [src/utils/templateSaver.ts], continued: the store *)

(** [s.replace(/\s+/g, by)] for a one-character [replacement]. *)
Fixpoint replace_whitespace (replacement : ascii) (in_run : bool) (s : string) : string :=
  match s with
  | EmptyString => EmptyString
  | String c s' =>
      if is_whitespace c then
        if in_run then replace_whitespace replacement true s'
        else String replacement (replace_whitespace replacement true s')
      else String c (replace_whitespace replacement false s')
  end.

Module TemplateStore.

Definition STORAGE_KEY_PREFIX : string := "pdf_form_template_".
Definition TEMPLATES_LIST_KEY : string := "pdf_form_templates_list".

(** A [Template]; each field is kept as the object it is. *)
Record Template := mkTemplate {
  id : string;
  templateName : string;
  pdfDimensions : PDFDimensions;
  backgroundImage : string;
  fields : list json;
  createdAt : string;
  updatedAt : string;
  version : string
}.

(** The template as the JavaScript object that [JSON.stringify] is
    given. *)
Definition toObject (template : Template) : json :=
  JObject
    [ ("id", JString (id template));
      ("templateName", JString (templateName template));
      ("pdfDimensions",
       JObject [ ("width", JNumber (width (pdfDimensions template)));
                 ("height", JNumber (height (pdfDimensions template))) ]);
      ("backgroundImage", JString (backgroundImage template));
      ("fields", JArray (fields template));
      ("createdAt", JString (createdAt template));
      ("updatedAt", JString (updatedAt template));
      ("version", JString (version template)) ]%string.

(** [localStorage]: the items by key. *)
Abbreviation Storage := (gmap string string).

Definition getItem (storage : Storage) (key : string) : option string := storage !! key.

Definition removeItem (storage : Storage) (key : string) : Storage := delete key storage.

(** The entry [{ id, name }] of the list of templates. *)
Definition entry (id name : string) : json :=
  JObject [ ("id", JString id); ("name", JString name) ]%string.

(** [t.id === id] for an entry [t] of the list; [None] when the read of
    [t.id] throws. *)
Definition has_id (id : string) (t : json) : option bool :=
  match get_property t "id" with
  | inl _ => None
  | inr (Some (JString s)) => Some (String.eqb s id)
  | inr _ => Some false
  end.

(** [list.findIndex(t => t.id === id)] from index [i] on: [None] when the
    callback throws, [Some None] for [-1]. *)
Fixpoint findIndex (id : string) (entries : list json) (i : nat) : option (option nat) :=
  match entries with
  | [] => Some None
  | t :: rest =>
      match has_id id t with
      | None => None
      | Some true => Some (Some i)
      | Some false => findIndex id rest (S i)
      end
  end.


(** [t.name = name] on an entry. *)
Definition set_name (name : string) (t : json) : json :=
  match t with
  | JObject members => JObject (assoc_set "name" (JString name) members)
  | other => other
  end.

(** What [exportTemplate] offers for download. *)
Record Download := mkDownload {
  download : string;
  content : string
}.

Section Store.

(** The foreign code: [JSON.stringify] (with and without indentation),
    [JSON.parse] ([None] when it throws), the refusal of a write by
    [localStorage.setItem] (it then throws), and the conversion to a string
    of an [id] that is not a string. *)
Variable JSON_stringify : json -> string.
Variable JSON_stringify_indented : json -> string.
Variable JSON_parse : string -> option json.
Variable refused : Storage -> string -> string -> bool.
Variable String_of : option json -> string.

(** [None] when [setItem] throws. *)
Definition setItem (storage : Storage) (key value : string) : option Storage :=
  if refused storage key value then None else Some (<[key := value]> storage).

Definition getAllTemplates (storage : Storage) : json :=
  match getItem storage TEMPLATES_LIST_KEY with
  | None => JArray []
  | Some listData =>
      if negb (truthy_string listData) then JArray []
      else
        match JSON_parse listData with
        | Some parsed => parsed
        | None => JArray []
        end
  end.

(** The body is guarded: when it throws, the storage is left as it is. *)
Definition addToTemplatesList (storage : Storage) (id name : string) : Storage :=
  match getAllTemplates storage with
  | JArray entries =>
      match findIndex id entries 0 with
      | None => storage
      | Some existingIndex =>
          let updated :=
            match existingIndex with
            | Some i => alter (set_name name) i entries
            | None => entries ++ [entry id name]
            end in
          match setItem storage TEMPLATES_LIST_KEY (JSON_stringify (JArray updated)) with
          | Some storage' => storage'
          | None => storage
          end
      end
  | _ => storage
  end.


(** [inl message] when the [Error] with this message is thrown. *)
Definition saveTemplate (storage : Storage) (template : Template) : Storage * (string + unit) :=
  let templateKey := (STORAGE_KEY_PREFIX ++ id template)%string in
  let templateData := JSON_stringify (toObject template) in
  match setItem storage templateKey templateData with
  | None => (storage, inl "Failed to save template to local storage"%string)
  | Some storage' =>
      (addToTemplatesList storage' (id template) (templateName template), inr tt)
  end.

(** [None] is [null]. *)
Definition loadTemplate (storage : Storage) (templateId : string) : option json :=
  match getItem storage (STORAGE_KEY_PREFIX ++ templateId)%string with
  | None => None
  | Some templateData =>
      if negb (truthy_string templateData) then None else JSON_parse templateData
  end.


(** [`${STORAGE_KEY_PREFIX}${t.id}`] for the value read as [t.id]. *)
Definition key_of (v : option json) : string :=
  match v with
  | Some (JString s) => (STORAGE_KEY_PREFIX ++ s)%string
  | other => (STORAGE_KEY_PREFIX ++ String_of other)%string
  end.

(** The [forEach] of [clearAllTemplates]; the flag tells whether it
    came to its end. *)
Fixpoint removeEach (storage : Storage) (templates : list json) : Storage * bool :=
  match templates with
  | [] => (storage, true)
  | t :: rest =>
      match get_property t "id" with
      | inl _ => (storage, false)
      | inr v => removeEach (removeItem storage (key_of v)) rest
      end
  end.

Definition clearAllTemplates (storage : Storage) : Storage :=
  match getAllTemplates storage with
  | JArray templates =>
      let '(storage', finished) := removeEach storage templates in
      if finished then removeItem storage' TEMPLATES_LIST_KEY else storage'
  | _ => storage
  end.

Definition exportTemplate (template : Template) : Download :=
  {| download :=
       (replace_whitespace "_"%char false (templateName template) ++ "_template.json")%string;
     content := JSON_stringify_indented (toObject template) |}.

End Store.

(** [generatedId] is the result of [generateId], [created] and [updated]
    those of the two [new Date().toISOString()]. *)
Definition createNewTemplate (generatedId created updated : string)
    (name : string) (width height : Q) : Template :=
  {| id := generatedId;
     templateName := name;
     pdfDimensions := mkDimensions width height;
     backgroundImage := "";
     fields := [];
     createdAt := created;
     updatedAt := updated;
     version := "1.0.0" |}.

(** [newName] is [None] when the argument is left out. *)
Definition cloneTemplate (generatedId created updated : string)
    (template : Template) (newName : option string) : Template :=
  {| id := generatedId;
     templateName :=
       match newName with
       | Some n => or_string n (templateName template ++ " (Copy)")
       | None => (templateName template ++ " (Copy)")%string
       end;
     pdfDimensions := pdfDimensions template;
     backgroundImage := backgroundImage template;
     fields := map (fun field => field) (fields template);
     createdAt := created;
     updatedAt := updated;
     version := version template |}.

End TemplateStore.

(** *** [src/context/FormContext.tsx]: the reducer *)

Module FormContext.
Import PDFGeneration.

(** [Partial<Field>]: [None] is a property left out. *)
Record FieldUpdates := mkUpdates {
  u_id : option string;
  u_label : option string;
  u_type : option FieldType;
  u_x : option Q;
  u_y : option Q;
  u_fontSize : option Q;
  u_fontFamily : option string;
  u_fontWeight : option string;
  u_color : option string;
  u_maxWidth : option (option Q);
  u_alignment : option string;
  u_multiline : option (option bool)
}.

Definition no_updates : FieldUpdates :=
  mkUpdates None None None None None None None None None None None None.

(** [{ ...field, ...updates }]. *)
Definition spread (field : Field) (updates : FieldUpdates) : Field :=
  {| id := or_default (u_id updates) (id field);
     label := or_default (u_label updates) (label field);
     type := or_default (u_type updates) (type field);
     x := or_default (u_x updates) (x field);
     y := or_default (u_y updates) (y field);
     fontSize := or_default (u_fontSize updates) (fontSize field);
     fontFamily := or_default (u_fontFamily updates) (fontFamily field);
     fontWeight := or_default (u_fontWeight updates) (fontWeight field);
     color := or_default (u_color updates) (color field);
     maxWidth := or_default (u_maxWidth updates) (maxWidth field);
     alignment := or_default (u_alignment updates) (alignment field);
     multiline := or_default (u_multiline updates) (multiline field) |}.

(** The template being edited, with its time stamp. *)
Record EditedTemplate := mkEdited {
  template : Template;
  updatedAt : string
}.

(** The part of [AppState] that holds the template and its data. *)
Record State := mkState {
  currentTemplate : option EditedTemplate;
  formData : gmap string Value;
  selectedFieldId : option string
}.

Inductive Action :=
| SET_TEMPLATE (payload : EditedTemplate)
| ADD_FIELD (payload : Field)
| UPDATE_FIELD (fieldId : string) (updates : FieldUpdates)
| DELETE_FIELD (payload : string)
| SET_FORM_DATA (payload : gmap string Value)
| UPDATE_FORM_DATA (fieldId : string) (value : Value)
| SELECT_FIELD (payload : option string).

Definition with_fields (t : Template) (fields' : list Field) : Template :=
  {| templateName := templateName t;
     pdfDimensions := pdfDimensions t;
     backgroundImage := backgroundImage t;
     fields := fields' |}.

(** [now] is [new Date().toISOString()]. *)
Definition formReducer (now : string) (state : State) (action : Action) : State :=
  match action with
  | SET_TEMPLATE payload =>
      {| currentTemplate := Some payload; formData := ∅; selectedFieldId := None |}
  | ADD_FIELD payload =>
      match currentTemplate state with
      | None => state
      | Some current =>
          {| currentTemplate :=
               Some {| template :=
                         with_fields (template current)
                           (fields (template current) ++ [payload]);
                       updatedAt := now |};
             formData := formData state;
             selectedFieldId := selectedFieldId state |}
      end
  | UPDATE_FIELD fieldId updates =>
      match currentTemplate state with
      | None => state
      | Some current =>
          {| currentTemplate :=
               Some {| template :=
                         with_fields (template current)
                           (map (fun field =>
                                   if String.eqb (id field) fieldId then spread field updates
                                   else field)
                                (fields (template current)));
                       updatedAt := now |};
             formData := formData state;
             selectedFieldId := selectedFieldId state |}
      end
  | DELETE_FIELD payload =>
      match currentTemplate state with
      | None => state
      | Some current =>
          {| currentTemplate :=
               Some {| template :=
                         with_fields (template current)
                           (List.filter (fun field => negb (String.eqb (id field) payload))
                                        (fields (template current)));
                       updatedAt := now |};
             formData := formData state;
             selectedFieldId :=
               match selectedFieldId state with
               | Some selected =>
                   if String.eqb selected payload then None else Some selected
               | None => None
               end |}
      end
  | SET_FORM_DATA payload =>
      {| currentTemplate := currentTemplate state;
         formData := payload;
         selectedFieldId := selectedFieldId state |}
  | UPDATE_FORM_DATA fieldId value =>
      {| currentTemplate := currentTemplate state;
         formData := <[fieldId := value]> (formData state);
         selectedFieldId := selectedFieldId state |}
  | SELECT_FIELD payload =>
      {| currentTemplate := currentTemplate state;
         formData := formData state;
         selectedFieldId := payload |}
  end.

(** The [fields] of [useFields]: [state.currentTemplate?.fields || []]. *)
Definition current_fields (state : State) : list Field :=
  match currentTemplate state with
  | Some current => fields (template current)
  | None => []
  end.

End FormContext.

(** *** [src/components/FieldMapper.tsx]: zoom and placement *)

Module FieldMapper.
Import PDFGeneration FormContext.

(** [createDefaultField] of [templateSaver.ts]; [generatedId] is the result
    of [generateFieldId]. *)
Definition createDefaultField (generatedId : string) (x y : Q) : Field :=
  {| id := generatedId;
     label := "New Field";
     type := text;
     PDFGeneration.x := x;
     PDFGeneration.y := y;
     fontSize := 12;
     fontFamily := "Helvetica";
     fontWeight := "normal";
     color := "#000000";
     maxWidth := Some 200;
     alignment := "left";
     multiline := None |}.

(** The scale set when a template arrives; [clientWidth] and
    [clientHeight] are those of the container. *)
Definition initialScale (clientWidth clientHeight : Q) (dims : PDFDimensions) : Q :=
  let containerWidth := clientWidth - 40 in
  let containerHeight := clientHeight - 100 in
  let scaleX := containerWidth / width dims in
  let scaleY := containerHeight / height dims in
  Qmin (Qmin scaleX scaleY) 1.

Definition handleZoomIn (prev : Q) : Q := Qmin (prev + (1 # 10)) 3.

Definition handleZoomOut (prev : Q) : Q := Qmax (prev - (1 # 10)) (1 # 10).

Definition handleZoomReset : Q := 1.

(** [on_canvas] tells that the click hit the canvas and not a field;
    [rect] is the bounding rectangle of the canvas, its [left] and [top],
    if there is one; [scale] is the scale of the component when the
    handler runs. *)
Definition handleCanvasClick (now generatedId : string) (scale : Q) (state : State)
    (on_canvas : bool) (rect : option (Q * Q)) (clientX clientY : Q) : State :=
  match currentTemplate state with
  | None => state
  | Some _ =>
      if on_canvas then
        match rect with
        | None => state
        | Some (rect_left, rect_top) =>
            let x := (clientX - rect_left) / scale in
            let y := (clientY - rect_top) / scale in
            let newField := createDefaultField generatedId x y in
            formReducer now (formReducer now state (ADD_FIELD newField))
                        (SELECT_FIELD (Some (id newField)))
        end
      else state
  end.

(** [dataX] and [dataY] are the position at which the drag stopped,
    [scale] is the scale of the component when the handler runs. *)
Definition handleFieldDrag (now : string) (scale : Q) (state : State)
    (fieldId : string) (dataX dataY : Q) : State :=
  formReducer now state
    (UPDATE_FIELD fieldId
       (mkUpdates None None None (Some (dataX / scale)) (Some (dataY / scale))
          None None None None None None None)).

(** The position given to the marker of a field. *)
Definition position (scale : Q) (field : Field) : Coords :=
  {| cx := x field * scale; cy := y field * scale |}.

(** The effect [useEffect(..., [template])]: it runs when the template is
    another object than at the last render, and sets the scale to the one
    that fits.  [container] is the [clientWidth] and the [clientHeight] of
    the parent of the canvas, [None] when there is no canvas or no
    parent. *)
Definition fitEffect (container : option (Q * Q)) (current : option EditedTemplate)
    (scale : Q) : Q :=
  match current, container with
  | Some edited, Some (clientWidth, clientHeight) =>
      initialScale clientWidth clientHeight (pdfDimensions (template edited))
  | _, _ => scale
  end.

(** The component: the state of the context and its own [scale]. *)
Record Mapper := mkMapper {
  app : State;
  scale : Q
}.

(** A drag that stopped, and the render after it.  The reducer builds a
    new template for [UPDATE_FIELD] whenever there is a template, so the
    effect runs. *)
Definition dragStop (now : string) (container : option (Q * Q)) (m : Mapper)
    (fieldId : string) (dataX dataY : Q) : Mapper :=
  let app' := handleFieldDrag now (scale m) (app m) fieldId dataX dataY in
  {| app := app';
     scale :=
       match currentTemplate (app m) with
       | Some _ => fitEffect container (currentTemplate app') (scale m)
       | None => scale m
       end |}.

(** A click, and the render after it.  The template is a new object when
    [ADD_FIELD] was dispatched; [SELECT_FIELD] keeps the template. *)
Definition canvasClick (now generatedId : string) (container : option (Q * Q)) (m : Mapper)
    (on_canvas : bool) (rect : option (Q * Q)) (clientX clientY : Q) : Mapper :=
  let app' := handleCanvasClick now generatedId (scale m) (app m) on_canvas rect
                clientX clientY in
  {| app := app';
     scale :=
       match currentTemplate (app m), rect with
       | Some _, Some _ =>
           if on_canvas then fitEffect container (currentTemplate app') (scale m)
           else scale m
       | _, _ => scale m
       end |}.

End FieldMapper.

(** *** [src/components/PDFPreview.tsx]: the live preview *)

Module PDFPreview.
Import PDFGeneration.

(** What the preview does with the canvas context. *)
Inductive CanvasCall :=
| set_font (font : string)
| set_fillStyle (style : string)
| set_textAlign (align : string)
| fillText (s : string) (px py : Q)
| save
| beginPath
| rect (px py w h : Q)
| clip
| restore.

Section Preview.

Variables Doc Blob : Type.

(** Of the foreign code the preview uses the canvas context of [wrapText]
    and the conversion of a number to a string; [mark] is the check mark
    of the source, a character beyond the 8-bit range. *)
Variable B : Backend Doc Blob.
Variable mark : string.

(** The callback of [fields.forEach] in [renderFieldsOnCanvas]. *)
Definition renderFieldOnCanvas (formData : gmap string Value) (field : Field)
    : list CanvasCall :=
  let value := formData !! id field in
  if unfilled value then []
  else
    let valueStr := String_of B value in
    let px :=
      if String.eqb (alignment field) "center" && truthy_number (maxWidth field) then
        x field + or_default (maxWidth field) 0 / 2
      else if String.eqb (alignment field) "right" && truthy_number (maxWidth field) then
        x field + or_default (maxWidth field) 0
      else x field in
    [ set_font (fontWeight field ++ " " ++ String_of_number B (fontSize field) ++ "px "
                  ++ fontFamily field)%string;
      set_fillStyle (color field);
      set_textAlign (alignment field) ]
    ++
    (if is_checkbox (type field) then
       if isChecked value then [fillText mark px (y field + fontSize field)] else []
     else
       match maxWidth field, multiline field with
       | Some w, Some true =>
           if truthy_number (Some w) then
             let lines :=
               FontLoader.wrapText (context2d B) valueStr w (fontSize field) (fontFamily field) in
             let lineHeight := fontSize field * (12 # 10) in
             imap (fun i line =>
                     fillText line px (y field + fontSize field + of_nat i * lineHeight))
                  lines
           else [save; fillText valueStr px (y field + fontSize field); restore]
       | Some w, _ =>
           if truthy_number (Some w) then
             [ save; beginPath; rect (x field) (y field) w (fontSize field * (15 # 10)); clip;
               fillText valueStr px (y field + fontSize field); restore ]
           else [save; fillText valueStr px (y field + fontSize field); restore]
       | None, _ => [save; fillText valueStr px (y field + fontSize field); restore]
       end).

Definition renderFieldsOnCanvas (fields : list Field) (formData : gmap string Value)
    : list CanvasCall :=
  flat_map (renderFieldOnCanvas formData) fields.

End Preview.

Arguments renderFieldOnCanvas {Doc Blob}.
Arguments renderFieldsOnCanvas {Doc Blob}.

(** The strings handed to [fillText], in order. *)
Fixpoint filled_texts (cs : list CanvasCall) : list string :=
  match cs with
  | [] => []
  | fillText s _ _ :: rest => s :: filled_texts rest
  | _ :: rest => filled_texts rest
  end.

End PDFPreview.

(** *** [src/utils/fontLoader.ts], continued: the class [FontLoader] *)

Module FontRegistry.
Import FontMatcher.

(** The two private members: the [Map] of the fonts by name, in the order
    of insertion, and the [Set] of the names of the loaded fonts. *)
Record t := mkLoader {
  fonts : list (string * Font);
  loadedFonts : gset string
}.

Definition new : t := {| fonts := []; loadedFonts := ∅ |}.

(** [loadFont] once the load of the font face has settled; [ok] tells
    whether it succeeded.  The three strings are the [fontConfig]. *)
Definition loadFont (this : t) (fontName fontFamily fontPath : string) (ok : bool)
    : t * Font :=
  let font := mkFont fontName fontFamily fontPath ok in
  ({| fonts := assoc_set fontName font (fonts this);
      loadedFonts := if ok then {[ fontName ]} ∪ loadedFonts this else loadedFonts this |},
   font).

Definition getFont (this : t) (fontName : string) : option Font :=
  assoc fontName (fonts this).

Definition getAllFonts (this : t) : list Font := map snd (fonts this).

Definition isFontLoaded (this : t) (fontName : string) : bool :=
  bool_decide (fontName ∈ loadedFonts this).

Definition systemFonts : list Font :=
  [ mkFont "Helvetica" "Helvetica" "" true;
    mkFont "Times" "Times New Roman" "" true;
    mkFont "Courier" "Courier New" "" true;
    mkFont "Arial" "Arial" "" true ].

Definition loadSystemFonts (this : t) : t * list Font :=
  (fold_left (fun loader font =>
                {| fonts := assoc_set (name font) font (fonts loader);
                   loadedFonts := {[ name font ]} ∪ loadedFonts loader |})
             systemFonts this,
   systemFonts).

Definition clear (this : t) : t := {| fonts := []; loadedFonts := ∅ |}.

(** [getFontFamilyWithFallbacks]. *)
Definition getFontFamilyWithFallbacks (fontFamily : string) : string :=
  (fontFamily ++ ", " ++ String.concat ", " ["Arial"; "Helvetica"; "sans-serif"])%string.

End FontRegistry.

(** *** [src/utils/coordinateConverter.ts] in binary64

    The two conversions between the page and the canvas once more, over
    the binary64 numbers of the program: the same expressions, each
    operation rounded as IEEE 754 prescribes. *)

Module Binary64.
Import PrimFloat.

Record Dimensions := mkDimensions {
  width : float;
  height : float
}.

Record Point := mkPoint {
  px : float;
  py : float
}.

(** The four private members of the class. *)
Record t := new {
  pdfDimensions : Dimensions;
  canvasDimensions : Dimensions;
  scale : float;
  dpi : float
}.

Definition pdfToCanvas (this : t) (x y : float) : Point :=
  let scaleX := (width (canvasDimensions this) / width (pdfDimensions this))%float in
  let scaleY := (height (canvasDimensions this) / height (pdfDimensions this))%float in
  {| px := (x * scaleX)%float;
     py := (height (canvasDimensions this) - (y * scaleY))%float |}.

Definition canvasToPdf (this : t) (x y : float) : Point :=
  let scaleX := (width (pdfDimensions this) / width (canvasDimensions this))%float in
  let scaleY := (height (pdfDimensions this) / height (canvasDimensions this))%float in
  {| px := (x * scaleX)%float;
     py := ((height (canvasDimensions this) - y) * scaleY)%float |}.

Definition updateScale (this : t) (newScale : float) : t :=
  {| pdfDimensions := pdfDimensions this;
     canvasDimensions := canvasDimensions this;
     scale := newScale;
     dpi := dpi this |}.




End Binary64.

(** Two coordinate pairs denote the same point. *)
Definition Coords_eq (p q : Coords) : Prop :=
  cx p == cx q /\ cy p == cy q.


(** *** Notions used to state the properties of the parser *)

Module ParserSpec.
Import PDFParser.

(** What the extractor emits for one entry of the text content of a page
    of height [H]. *)
Definition emitted_for (H : Q) (item : ContentItem) (run : ExtractedFieldData) : Prop :=
  match item with
  | MarkedContent => False
  | Text i =>
      ef_text run = str i /\
      ef_x run = te (transform i) /\
      ef_y run = H - tf (transform i) /\
      ef_fontSize run = Qabs (td (transform i)) /\
      ef_width run = item_width i /\
      ef_height run = item_height i
  end.

(** [r] lies within [maxDistance] of the ordinate [currentY]. *)
Definition nearY (maxDistance currentY : Q) (r : ExtractedFieldData) : bool :=
  Qle_bool (Qabs (ef_y r - currentY)) maxDistance.

(** The lines of a sequence of runs: the first run anchors a line and
    takes with it, in extraction order, every later run within the
    tolerance of the anchor; the other runs are divided in the same way. *)
Inductive Lines (maxDistance : Q) : list ExtractedFieldData -> list (list ExtractedFieldData) -> Prop :=
| Lines_nil : Lines maxDistance [] []
| Lines_cons anchor rest gs :
    Lines maxDistance
          (List.filter (fun r => negb (nearY maxDistance (ef_y anchor) r)) rest) gs ->
    Lines maxDistance (anchor :: rest)
          ((anchor :: List.filter (nearY maxDistance (ef_y anchor)) rest) :: gs).

Definition sum_y (g : list ExtractedFieldData) : Q :=
  fold_right (fun r acc => ef_y r + acc) 0 g.

(** [m] is the field a line [g] is merged into. *)
Definition merged_line (g : list ExtractedFieldData) (m : ExtractedFieldData) : Prop :=
  exists anchor others,
    g = anchor :: others /\
    ef_text m = join_space (map ef_text g) /\
    (forall r, In r g -> ef_x m <= ef_x r) /\
    (exists r, In r g /\ ef_x m == ef_x r) /\
    (forall r, In r g -> ef_x r + ef_width r <= ef_x m + ef_width m) /\
    (exists r, In r g /\ ef_x m + ef_width m == ef_x r + ef_width r) /\
    ef_y m * inject_Z (Z.of_nat (length g)) == sum_y g /\
    ef_height m = ef_height anchor /\
    ef_fontName m = ef_fontName anchor /\
    ef_fontSize m = ef_fontSize anchor.

(** The runs from index [i] on that are not yet in [processed]. *)
Fixpoint unprocessed (rest : list ExtractedFieldData) (i : nat) (processed : gset nat)
    : list ExtractedFieldData :=
  match rest with
  | [] => []
  | a :: rest' =>
      if decide (i ∈ processed) then unprocessed rest' (S i) processed
      else a :: unprocessed rest' (S i) processed
  end.

End ParserSpec.

(** *** Notions used to state the properties of [wrapText] *)

(** The words of a text: the non-empty pieces between its spaces. *)
Definition words_of (s : string) : list string :=
  List.filter truthy_string (split_space s).

Fixpoint has_space (s : string) : bool :=
  match s with
  | EmptyString => false
  | String c s' => Ascii.eqb c space || has_space s'
  end.

(** *** Notions used to state the properties of the template import *)

Module TemplateSpec.

(** The member [key] of a JSON object; [None] when [v] is not an object or
    has no such member. *)
Definition member (v : json) (key : string) : option json :=
  match v with
  | JObject members => assoc key members
  | _ => None
  end.

(** A required key is missing. *)
Definition missing_key (template : json) : Prop :=
  exists key, In key TemplateSaver.requiredFields /\ member template key = None.

(** The width or the height of the dimensions is absent or falsy: zero,
    [null], [false] or the empty string. *)
Definition bad_dimension (template : json) : Prop :=
  exists dims key,
    member template "pdfDimensions" = Some dims /\
    (key = "width"%string \/ key = "height"%string) /\
    truthy_value (member dims key) = false.

(** The [fields] member is not an array. *)
Definition fields_not_array (template : json) : Prop :=
  forall elements, member template "fields" <> Some (JArray elements).

(** The state is the one before the import, up to the notifications. *)
Definition same_template (before after : App.AppState) : Prop :=
  App.currentTemplate after = App.currentTemplate before /\
  App.formData after = App.formData before /\
  App.selectedFieldId after = App.selectedFieldId before.

End TemplateSpec.

(** *** Notions used to state the properties of the font matcher *)

Module FontSpec.
Import FontMatcher.

(** The registry entry a name selects: the last entry whose name is the
    requested one, letter case ignored. *)
Definition custom_entry (fonts : list Font) (requested : string) : option Font :=
  List.find (fun font => String.eqb (toLowerCase (name font)) (toLowerCase requested))
            (rev fonts).

(** The entry of the builtin table for a name, letter case ignored. *)
Definition builtin_entry (requested : string) : option FontMapping :=
  List.find (fun m => String.eqb (toLowerCase (pdfFont m)) (toLowerCase requested))
            FONT_MAPPINGS.

Fixpoint has_hyphen (s : string) : bool :=
  match s with
  | EmptyString => false
  | String c s' => Ascii.eqb c "-" || has_hyphen s'
  end.

(** The style suffixes that are stripped when they end a name. *)
Definition stripped_suffixes : list string := ["bold"; "italic"; "oblique"]%string.

End FontSpec.

(** *** Notions used to state the properties of the renderer *)

Module RenderSpec.
Import PDFGeneration.

(** [lo <= p1 <= p2 <= ... <= pn <= hi]. *)
Fixpoint increasing_from (lo : Q) (l : list Q) (hi : Q) : Prop :=
  match l with
  | [] => lo <= hi
  | p :: rest => lo <= p /\ increasing_from p rest hi
  end.

(** Each value is at most the next one. *)
Fixpoint non_decreasing (l : list Q) : Prop :=
  match l with
  | [] => True
  | p :: rest =>
      match rest with
      | [] => True
      | q :: _ => p <= q
      end /\ non_decreasing rest
  end.



Section Render.

Variables Doc Blob : Type.
Variable B : Backend Doc Blob.

(** [m] only appends events; their progress values run from [lo] up to
    [hi] when [m] returns, and from [lo] up to [hi_thrown] when it
    throws. *)
Definition progress_between {A : Type} (lo hi hi_thrown : Q) (m : M Doc A) : Prop :=
  forall s, exists evs,
    log (m s).1 = log s ++ evs /\
    match (m s).2 with
    | inr _ => increasing_from lo (progress_values evs) hi
    | inl _ => increasing_from lo (progress_values evs) hi_thrown
    end.

(** The try block up to and including the fields [before]: the first two
    progress reports, the background, and the callback on each of these
    fields. *)
Definition upTo (template : Template) (formData : gmap string Value)
    (options : ExportOptions) (pdfWidth pdfHeight : Q) (before : list Field)
    : M Doc unit :=
  bind (emit (setProgress 20)) (fun _ =>
  bind (if or_default (includeBackground options) true
           && truthy_string (backgroundImage template)
        then try_catch
               (call B (addImage (backgroundImage template) 0 0 pdfWidth pdfHeight))
               (emit console_warn)
        else ret tt) (fun _ =>
  bind (emit (setProgress 40)) (fun _ =>
  forEach (renderField B
             (CoordinateConverter.new (pdfDimensions template) (pdfDimensions template) 1 72)
             pdfWidth formData (length (fields template)))
          before 0))).

End Render.

End RenderSpec.

(** *** Notions used to state the further properties *)

(** [text] has a piece that is [word], letter case ignored. *)
Definition has_piece (word text : string) : Prop :=
  exists before piece after,
    text = (before ++ piece ++ after)%string /\ toLowerCase piece = word.

(** [text] contains one of the keywords of the label patterns. *)
Definition has_keyword (text : string) : Prop :=
  exists pattern, In pattern PDFAnalysis.labelPatterns /\ has_piece pattern text.

(** The merged field [m] is the run [r] itself, but for its width, which
    is the right edge less the left edge, as the merge computes it (it is
    the width of [r] when the numbers are exact). *)
Definition same_run (r m : PDFParser.ExtractedFieldData) : Prop :=
  PDFParser.ef_text m = PDFParser.ef_text r /\
  PDFParser.ef_x m == PDFParser.ef_x r /\
  PDFParser.ef_y m == PDFParser.ef_y r /\
  PDFParser.ef_width m == (PDFParser.ef_x r + PDFParser.ef_width r) - PDFParser.ef_x r /\
  PDFParser.ef_height m = PDFParser.ef_height r /\
  PDFParser.ef_fontName m = PDFParser.ef_fontName r /\
  PDFParser.ef_fontSize m = PDFParser.ef_fontSize r.

(** A string is tidy when it neither starts nor ends with white space and
    its only white space is single spaces between other characters;
    [tidy_from after_space s] is the part of the check that reads [s]
    after a character that was, or was not, a space. *)
Fixpoint tidy_from (after_space : bool) (s : string) : bool :=
  match s with
  | EmptyString => negb after_space
  | String c s' =>
      if is_whitespace c then Ascii.eqb c space && negb after_space && tidy_from true s'
      else tidy_from false s'
  end.

Definition tidy (s : string) : bool :=
  match s with
  | EmptyString => true
  | String c _ => negb (is_whitespace c) && tidy_from false s
  end.

(** The generic families a fallback chain ends with. *)
Definition generic_families : list string := ["sans-serif"; "serif"; "monospace"]%string.

(** Notions for whole runs of the renderer and for exports. *)
Module ExportSpec.
Import PDFGeneration PDFExport.

(** The events that the [try] block itself can produce. *)
Definition inner (e : Event) : Prop :=
  match e with
  | setProgress _ | console_warn | Called _ => True
  | _ => False
  end.

Definition is_addImage (c : Call) : bool :=
  match c with addImage _ _ _ _ _ => true | _ => false end.

(** An event other than a call of [addImage]. *)
Definition no_image (e : Event) : Prop :=
  match e with
  | Called c => is_addImage c = false
  | _ => True
  end.

(** The value of the hook's [error] after the events, when it was [e0]
    before them, and likewise the value of [isGenerating]. *)
Fixpoint error_after (e0 : option string) (events : list Event) : option string :=
  match events with
  | [] => e0
  | setError e :: rest => error_after e rest
  | _ :: rest => error_after e0 rest
  end.

Fixpoint generating_after (g0 : bool) (events : list Event) : bool :=
  match events with
  | [] => g0
  | setIsGenerating g :: rest => generating_after g rest
  | _ :: rest => generating_after g0 rest
  end.

(** The strings of the draw calls, in order. *)
Fixpoint drawn_texts (cs : list Call) : list string :=
  match cs with
  | [] => []
  | drawText s _ _ _ :: rest => s :: drawn_texts rest
  | _ :: rest => drawn_texts rest
  end.

Section Exports.

Variables Doc Blob : Type.
Variable B : Backend Doc Blob.
Variable saveAs : Blob -> string -> option Thrown.

(** [m] only appends events, and each of them satisfies [P]. *)
Definition only {A : Type} (P : Event -> Prop) (m : M Doc A) : Prop :=
  forall s, exists evs, log (m s).1 = log s ++ evs /\ Forall P evs.

(** The document accepts every call other than [addImage]. *)
Definition accepts_drawing : Prop :=
  forall d c, is_addImage c = false -> exists d', jsPDF_call B d c = inr d'.

(** What record [i] of a batch hands to [saveAs]: its blob under its
    name, if its blob was generated. *)
Definition record_saves (template : Template) (options : Options) (i : nat)
    (record : gmap string Value) : list (Blob * string) :=
  match (generatePDF B template record (rendering options)).2 with
  | Some blob => [(blob, recordFile options i)]
  | None => []
  end.

(** [saveAs] returned for this file. *)
Definition delivered (file : Blob * string) : bool :=
  match saveAs file.1 file.2 with
  | None => true
  | Some _ => false
  end.

(** [m] returns, whatever the state, and the strings it draws are
    [drawn]. *)
Definition draws_texts {A : Type} (drawn : list string) (m : M Doc A) : Prop :=
  forall s, exists s' a evs,
    m s = (s', inr a) /\ log s' = log s ++ evs /\ drawn_texts (calls evs) = drawn.

(** [m] returns, whatever the state, and its draw calls satisfy [R]. *)
Definition draws_calls {A : Type} (R : list Call -> Prop) (m : M Doc A) : Prop :=
  forall s, exists s' a evs,
    m s = (s', inr a) /\ log s' = log s ++ evs /\ R (draws evs).

(** The strings that go on the page for a field: nothing for a field
    without a value or an unticked checkbox, the mark for a ticked
    checkbox, the wrapped lines for a multi-line field with a width, and
    the value as a string otherwise. *)
Definition field_texts (formData : gmap string Value) (field : Field) : list string :=
  let value := formData !! id field in
  if unfilled value then []
  else if is_checkbox (type field) then
    if isChecked value then [checkMark] else []
  else
    match maxWidth field, multiline field with
    | Some w, Some true =>
        if truthy_number (Some w) then
          FontLoader.wrapText (context2d B) (String_of B value) w (fontSize field)
            (fontFamily field)
        else [String_of B value]
    | _, _ => [String_of B value]
    end.

(** The position of line [i] of a field on a page of height [pageHeight],
    in millimetres: the field's own [x], and its [y] measured from the
    other edge of the page, one line height further for each line. *)
Definition line_at (pageHeight : Q) (field : Field) (i : nat) (c : Call) (line : string)
    : Prop :=
  exists px py options,
    c = drawText line px py options /\
    px == x field * px_to_mm /\
    py == (pageHeight - y field) * px_to_mm
          + of_nat i * (fontSize field * (12 # 10) * px_to_mm).

End Exports.

Arguments draws_texts {Doc A}.
Arguments draws_calls {Doc A}.
Arguments field_texts {Doc Blob}.
Arguments only {Doc A}.
Arguments accepts_drawing {Doc Blob}.
Arguments record_saves {Doc Blob}.
Arguments delivered {Blob}.

End ExportSpec.

(** Notions for the store of templates. *)
Module StoreSpec.
Import TemplateStore.

(** [JSON.parse] gives back the value that [stringify] was given, and the
    text is not empty. *)
Definition round_trips (stringify : json -> string) (parse : string -> option json)
    (v : json) : Prop :=
  parse (stringify v) = Some v /\ stringify v <> ""%string.

(** The [id] of an entry of the list, when it is a string. *)
Definition entry_id (t : json) : option string :=
  match TemplateSpec.member t "id" with
  | Some (JString s) => Some s
  | _ => None
  end.

(** The ids on the list, in order. *)
Definition listed_ids (entries : list json) : list string := omap entry_id entries.

(** The list names [id] as [name]. *)
Definition names (entries : list json) (id name : string) : Prop :=
  exists t, In t entries /\ entry_id t = Some id /\
            TemplateSpec.member t "name" = Some (JString name).

(** No entry is [null]: the callbacks on the list do not throw. *)
Definition readable (entries : list json) : Prop := Forall (fun t => t <> JNull) entries.

(** The template with another [updatedAt]. *)
Definition touched (template : Template) (now : string) : Template :=
  {| id := id template;
     templateName := templateName template;
     pdfDimensions := pdfDimensions template;
     backgroundImage := backgroundImage template;
     fields := fields template;
     createdAt := createdAt template;
     updatedAt := now;
     version := version template |}.

(** Both dimensions are numbers other than zero. *)
Definition has_size (template : Template) : bool :=
  negb (Qeq_bool (width (pdfDimensions template)) 0)
  && negb (Qeq_bool (height (pdfDimensions template)) 0).

End StoreSpec.

(** Notions for the field mapper. *)
Module MapperSpec.
Import PDFGeneration FormContext FieldMapper.

(** The three zoom buttons. *)
Inductive ZoomOp := ZoomIn | ZoomOut | ZoomReset.

Definition zoom (scale : Q) (op : ZoomOp) : Q :=
  match op with
  | ZoomIn => handleZoomIn scale
  | ZoomOut => handleZoomOut scale
  | ZoomReset => handleZoomReset
  end.

(** Two fields that differ in their position at most. *)
Definition same_but_position (a b : Field) : Prop :=
  id a = id b /\ label a = label b /\ type a = type b /\
  fontSize a = fontSize b /\ fontFamily a = fontFamily b /\
  fontWeight a = fontWeight b /\ color a = color b /\
  maxWidth a = maxWidth b /\ alignment a = alignment b /\ multiline a = multiline b.

End MapperSpec.

(** Notions for the preview. *)
Module PreviewSpec.
Import PDFGeneration PDFPreview.

(** A string of the preview and one of the export are the same, or they
    are the two check marks. *)
Definition same_string (mark p e : string) : Prop :=
  p = e \/ (p = mark /\ e = checkMark).

End PreviewSpec.

(** Notions for the registry of fonts. *)
Module RegistrySpec.
Import FontMatcher FontRegistry.

(** What is done to a font loader: a load that has settled, the system
    fonts, a clearing. *)
Inductive Op :=
| LoadFont (fontName fontFamily fontPath : string) (ok : bool)
| LoadSystemFonts
| Clear.

Definition apply (this : t) (op : Op) : t :=
  match op with
  | LoadFont fontName fontFamily fontPath ok =>
      (loadFont this fontName fontFamily fontPath ok).1
  | LoadSystemFonts => (loadSystemFonts this).1
  | Clear => clear this
  end.

(** The registry is consistent for [fontName]. *)
Definition consistent_at (this : t) (fontName : string) : Prop :=
  (isFontLoaded this fontName = true ->
   exists font, getFont this fontName = Some font /\ name font = fontName) /\
  (forall font,
     getFont this fontName = Some font ->
     name font = fontName /\ (loaded font = true -> isFontLoaded this fontName = true)).

End RegistrySpec.

(** *** Sample data for the examples *)

(** An A4 page shown on a 794 x 1123 canvas. *)
Definition a4_converter : CoordinateConverter.t :=
  CoordinateConverter.new (mkDimensions 595 842) (mkDimensions 794 1123) 1 72.

(** A page with one text item, drawn at [(40, 700)] with a 12 point
    font, on a page 792 points high. *)
Definition sample_item : PDFParser.TextItem :=
  PDFParser.mkTextItem "Full Name" (PDFParser.mkTransform 12 0 0 12 40 700)
    54 12 "g_d0_f1" "ltr".

Definition sample_page : PDFParser.Page :=
  PDFParser.mkPage (mkDimensions 612 792) [PDFParser.Text sample_item].

(** Two runs of one line, the right one extracted first. *)
Definition run_right : PDFParser.ExtractedFieldData :=
  PDFParser.mkExtracted "Doe, John" 120 702 50 10 "g_d0_f2" 10.

Definition run_left : PDFParser.ExtractedFieldData :=
  PDFParser.mkExtracted "Full Name" 40 700 54 14 "g_d0_f1" 14.

(** A template file without [pdfDimensions]. *)
Definition template_without_dimensions : json :=
  JObject [ ("id", JString "t1"); ("templateName", JString "Invoice");
            ("fields", JArray []) ]%string.

(** A template file with a negative width. *)
Definition template_negative_width : json :=
  JObject [ ("id", JString "t1"); ("templateName", JString "Invoice");
            ("pdfDimensions", JObject [ ("width", JNumber (-5)); ("height", JNumber 10) ]);
            ("fields", JArray []) ]%string.

(** An application state with a template loaded. *)
Definition state_with_template : App.AppState :=
  App.mkAppState (Some (JObject [ ("id", JString "t0") ]%string))
    [ ("name", JString "Ada") ]%string (Some "f1"%string) [].

(** A registry with one font whose name is a builtin name in lower
    case. *)
Definition registry_lowercase : list FontMatcher.Font :=
  [ FontMatcher.mkFont "helvetica" "MyFont" "/fonts/my.ttf" true ]%string.

(** A document that accepts every call, and one on which drawing the text
    [boom] throws. *)
Definition accepting_backend : PDFGeneration.Backend unit string :=
  PDFGeneration.mkBackend
    (fun _ _ _ => inr tt)
    (fun _ _ => inr tt)
    (fun _ _ _ => inr "blob"%string)
    (Some (fun _ _ line => inject_Z (Z.of_nat (String.length line))))
    (fun _ => "0"%string).

Definition failing_backend : PDFGeneration.Backend unit string :=
  PDFGeneration.mkBackend
    (fun _ _ _ => inr tt)
    (fun _ c =>
       match c with
       | PDFGeneration.drawText line _ _ _ =>
           if String.eqb line "boom" then inl (PDFGeneration.Error "cannot draw") else inr tt
       | _ => inr tt
       end)
    (fun _ _ _ => inr "blob"%string)
    (Some (fun _ _ line => inject_Z (Z.of_nat (String.length line))))
    (fun _ => "0"%string).

(** A document on which the background image cannot be added. *)
Definition no_image_backend : PDFGeneration.Backend unit string :=
  PDFGeneration.mkBackend
    (fun _ _ _ => inr tt)
    (fun _ c =>
       match c with
       | PDFGeneration.addImage _ _ _ _ _ => inl (PDFGeneration.Error "bad image")
       | _ => inr tt
       end)
    (fun _ _ _ => inr "blob"%string)
    None
    (fun _ => "0"%string).


Definition first_field : PDFGeneration.Field :=
  PDFGeneration.mkField "first" "First" PDFGeneration.text 50 100 12
    "Helvetica" "normal" "#000000" None "left" None.

Definition second_field : PDFGeneration.Field :=
  PDFGeneration.mkField "second" "Second" PDFGeneration.text 50 200 12
    "Helvetica" "normal" "#000000" None "left" None.

Definition two_fields : PDFGeneration.Template :=
  PDFGeneration.mkTemplate "Two fields" (mkDimensions 794 1123) ""
    [first_field; second_field].

Definition with_background : PDFGeneration.Template :=
  PDFGeneration.mkTemplate "Background" (mkDimensions 794 1123) "data:image/png;base64,AAAA"
    [second_field].

Definition two_values : gmap string PDFGeneration.Value :=
  {[ "first"%string := PDFGeneration.VString "boom";
     "second"%string := PDFGeneration.VString "fine" ]}.


Definition no_options : PDFGeneration.ExportOptions :=
  PDFGeneration.mkOptions None None None.

Definition page_converter : CoordinateConverter.t :=
  CoordinateConverter.new (mkDimensions 794 1123) (mkDimensions 794 1123) 1 72.

(** The state the try block starts in. *)
Definition start_state : PDFGeneration.State unit :=
  PDFGeneration.mkState tt
    [ PDFGeneration.setIsGenerating true; PDFGeneration.setProgress 0;
      PDFGeneration.setError None ].

(** A label split into two runs, and a run that is no label. *)
Definition run_full : PDFParser.ExtractedFieldData :=
  PDFParser.mkExtracted "Full" 40 700 20 10 "f" 10.

Definition run_name : PDFParser.ExtractedFieldData :=
  PDFParser.mkExtracted "NAME:" 64 701 30 10 "f" 10.

Definition run_total : PDFParser.ExtractedFieldData :=
  PDFParser.mkExtracted "Total" 40 600 30 10 "f" 10.

(** A document whose first page holds one label. *)
Definition sample_document : PDFAnalysis.Document :=
  PDFAnalysis.mkDocument (Some (mkDimensions 612 792)) (Some sample_page)
    (Some "data:image/png;base64,AAAA"%string).

(** [saveAs] that never throws, and one that throws on the second file
    of a batch. *)
Definition saving : string -> string -> option PDFGeneration.Thrown :=
  fun _ _ => None.

Definition saving_but_second : string -> string -> option PDFGeneration.Thrown :=
  fun _ name =>
    if String.eqb name "form_2.pdf" then Some (PDFGeneration.Error "disk full") else None.

Definition default_export : PDFExport.Options :=
  PDFExport.mkExport None no_options.

(** A binding with a value for no field of [two_fields]. *)
Definition other_values : gmap string PDFGeneration.Value :=
  {[ "other"%string := PDFGeneration.VString "x" ]}.

(** A template, its entry on the list, and a serialisation that knows
    these values only. *)
Definition stored_template : TemplateStore.Template :=
  TemplateStore.mkTemplate "template_1" "Tax form" (mkDimensions 794 1123) "" []
    "2024-01-01T00:00:00.000Z" "2024-01-02T00:00:00.000Z" "1.0.0".

(** The same template under another name. *)
Definition renamed_template : TemplateStore.Template :=
  TemplateStore.mkTemplate "template_1" "Tax form 2025" (mkDimensions 794 1123) "" []
    "2024-01-01T00:00:00.000Z" "2024-03-01T00:00:00.000Z" "1.0.0".

Definition sample_stringify (v : json) : string :=
  match v with
  | JObject _ => "{template_1}"
  | JArray [] => "[]"
  | JArray _ => "[template_1]"
  | _ => "null"
  end.

Definition sample_parse (s : string) : option json :=
  if String.eqb s "{template_1}" then Some (TemplateStore.toObject stored_template)
  else if String.eqb s "[template_1]" then
    Some (JArray [TemplateStore.entry "template_1" "Tax form"])
  else if String.eqb s "[]" then Some (JArray [])
  else None.

Definition never_refused : gmap string string -> string -> string -> bool :=
  fun _ _ _ => false.

Definition sample_String_of (v : option json) : string := "undefined".

(** The storage after [stored_template] was saved. *)
Definition sample_storage : gmap string string :=
  (TemplateStore.saveTemplate sample_stringify sample_parse never_refused ∅
     stored_template).1.

(** ** Part II. Theorems *)

(** *** The coordinate converter *)

Section CoordinateConverterFacts.
Import CoordinateConverter.







(** C10. [convert] agrees with the dedicated conversions: a conversion
    from a system to itself returns the point unchanged, page to screen is
    [canvasToScreen] after [pdfToCanvas] (which is [pdfToScreen]), and
    screen to page is [canvasToPdf] after [screenToCanvas] (which is
    [screenToPdf]). *)
Theorem convert_agrees_with_pairwise (this : t) (x y : Q) :
  (forall s, convert this x y s s = {| cx := x; cy := y |}) /\
  (let c := pdfToCanvas this x y in
   convert this x y pdf screen = canvasToScreen this (cx c) (cy c)) /\
  convert this x y pdf screen = pdfToScreen this x y /\
  (let c := screenToCanvas this x y in
   convert this x y screen pdf = canvasToPdf this (cx c) (cy c)) /\
  convert this x y screen pdf = screenToPdf this x y.
Proof.
  repeat split.
  intros s; destruct s; reflexivity.
Qed.

(** The remaining pairs: each is the dedicated one-step conversion. *)
Lemma convert_single_steps (this : t) (x y : Q) :
  convert this x y pdf canvas = pdfToCanvas this x y /\
  convert this x y canvas pdf = canvasToPdf this x y /\
  convert this x y canvas screen = canvasToScreen this x y /\
  convert this x y screen canvas = screenToCanvas this x y.
Proof. repeat split. Qed.

End CoordinateConverterFacts.

(** *** The text extractor and the line grouping *)

Section PDFParserFacts.
Import PDFParser ParserSpec.

Lemma fold_extractItem (H : Q) (l : list ContentItem) (acc : list ExtractedFieldData) :
  exists runs,
    fold_left (extractItem H) l acc = acc ++ runs /\
    Forall2 (emitted_for H) (List.filter has_text l) runs.
Proof.
  revert acc. induction l as [| item l IH]; intros acc; simpl.
  - exists []. split; [ symmetry; apply app_nil_r | constructor ].
  - destruct item as [i |]; simpl.
    + destruct (truthy_string (trim (str i))) eqn:E.
      * destruct (IH (acc ++ [ {| ef_text := str i;
                                  ef_x := te (transform i);
                                  ef_y := H - tf (transform i);
                                  ef_width := item_width i;
                                  ef_height := item_height i;
                                  ef_fontName := or_string (item_fontName i) "Unknown";
                                  ef_fontSize := Qabs (td (transform i)) |} ]))
          as (runs & Hruns & Hall).
        eexists (_ :: runs). split.
        -- rewrite Hruns, <- app_assoc. reflexivity.
        -- constructor; [ | exact Hall ]. simpl. repeat split.
      * apply IH.
    + apply IH.
Qed.

(** C2, as the code has it.  The extractor emits, in extraction order, one
    run for every text item whose string is not blank, and none for other
    items; the run of an item with transform [[a,b,c,d,e,f]] on a page of
    height [H] is at [(e, H - f)], that is in canvas coordinates (origin
    top-left, Y downward), and has font size [|d|]; width and height are
    the item's own. *)
Theorem extract_emits_canvas_runs (page : Page) :
  exists runs,
    extractTextWithPositions (Some page) = inr runs /\
    Forall2 (emitted_for (height (viewport page)))
            (List.filter has_text (items page)) runs.
Proof.
  unfold extractTextWithPositions.
  destruct (fold_extractItem (height (viewport page)) (items page) []) as (runs & E & Hall).
  exists runs. split; [ rewrite E; reflexivity | exact Hall ].
Qed.

(** C2 fails as stated: the item drawn at [(40, 700)] on a page 792 high
    is emitted at [(40, 92)], not at [(40, 700)]. *)
Lemma extract_position_is_not_source_space :
  exists run,
    extractTextWithPositions (Some sample_page) = inr [run] /\
    ef_x run == te (transform sample_item) /\
    ef_y run == 92 /\
    ~ ef_y run == tf (transform sample_item).
Proof.
  eexists. split; [ reflexivity | ]. simpl. repeat split; discriminate.
Qed.

(** A blank item and marked content emit nothing. *)
Example extract_skips_blank_items :
  extractTextWithPositions
    (Some (mkPage (mkDimensions 612 792)
             [ Text (mkTextItem "   " (mkTransform 12 0 0 12 40 700) 9 12 "f" "ltr");
               MarkedContent ])) = inr [].
Proof. reflexivity. Qed.

Lemma Math_min_lower (a : Q) (l : list Q) :
  Math_min a l <= a /\ (forall v, In v l -> Math_min a l <= v).
Proof.
  unfold Math_min. revert a. induction l as [| v l IH]; intros a; simpl.
  - split; [ apply Qle_refl | intros ? [] ].
  - destruct (IH (Qmin a v)) as [H1 H2]. split.
    + eapply Qle_trans; [ exact H1 | apply Q.le_min_l ].
    + intros w [<- | Hw]; [ | auto ].
      eapply Qle_trans; [ exact H1 | apply Q.le_min_r ].
Qed.

Lemma Math_min_attained (a : Q) (l : list Q) :
  Math_min a l == a \/ exists v, In v l /\ Math_min a l == v.
Proof.
  unfold Math_min. revert a. induction l as [| v l IH]; intros a; simpl.
  - left. reflexivity.
  - destruct (IH (Qmin a v)) as [H | (w & Hw & H)].
    + destruct (Q.min_dec a v) as [E | E].
      * left. eapply Qeq_trans; [ exact H | exact E ].
      * right. exists v. split; [ left; reflexivity | ].
        eapply Qeq_trans; [ exact H | exact E ].
    + right. exists w. split; [ right; exact Hw | exact H ].
Qed.

Lemma Math_max_upper (a : Q) (l : list Q) :
  a <= Math_max a l /\ (forall v, In v l -> v <= Math_max a l).
Proof.
  unfold Math_max. revert a. induction l as [| v l IH]; intros a; simpl.
  - split; [ apply Qle_refl | intros ? [] ].
  - destruct (IH (Qmax a v)) as [H1 H2]. split.
    + eapply Qle_trans; [ apply Q.le_max_l | exact H1 ].
    + intros w [<- | Hw]; [ | auto ].
      eapply Qle_trans; [ apply Q.le_max_r | exact H1 ].
Qed.

Lemma Math_max_attained (a : Q) (l : list Q) :
  Math_max a l == a \/ exists v, In v l /\ Math_max a l == v.
Proof.
  unfold Math_max. revert a. induction l as [| v l IH]; intros a; simpl.
  - left. reflexivity.
  - destruct (IH (Qmax a v)) as [H | (w & Hw & H)].
    + destruct (Q.max_dec a v) as [E | E].
      * left. eapply Qeq_trans; [ exact H | exact E ].
      * right. exists v. split; [ left; reflexivity | ].
        eapply Qeq_trans; [ exact H | exact E ].
    + right. exists w. split; [ right; exact Hw | exact H ].
Qed.

Lemma fold_left_sum_y (g : list ExtractedFieldData) (acc : Q) :
  fold_left (fun sum r => sum + ef_y r) g acc == acc + sum_y g.
Proof.
  revert acc. induction g as [| r g IH]; intros acc; simpl.
  - ring.
  - rewrite IH. ring.
Qed.

(** The merge of a non-empty group has the text of its runs in extraction
    order, the bounding interval of their extents, the mean ordinate, and
    the height and font of [item]. *)
Lemma mergeGroup_merged_line (item : ExtractedFieldData) (others : list ExtractedFieldData) :
  exists m,
    mergeGroup item (item :: others) = Some m /\ merged_line (item :: others) m.
Proof.
  eexists. split; [ reflexivity | ].
  exists item, others. simpl.
  pose proof (Math_min_lower (ef_x item) (map ef_x others)) as [Hm1 Hm2].
  pose proof (Math_min_attained (ef_x item) (map ef_x others)) as Hm3.
  pose proof (Math_max_upper (ef_x item + ef_width item)
                (map (fun g => ef_x g + ef_width g) others)) as [HM1 HM2].
  pose proof (Math_max_attained (ef_x item + ef_width item)
                (map (fun g => ef_x g + ef_width g) others)) as HM3.
  set (mn := Math_min (ef_x item) (map ef_x others)) in *.
  set (mx := Math_max (ef_x item + ef_width item)
               (map (fun g => ef_x g + ef_width g) others)) in *.
  assert (Hext : mn + (mx - mn) == mx) by ring.
  repeat split.
  - intros r [<- | Hr]; [ exact Hm1 | ].
    apply Hm2. apply in_map_iff. exists r. split; [ reflexivity | exact Hr ].
  - destruct Hm3 as [H | (v & Hv & H)].
    + exists item. split; [ left; reflexivity | exact H ].
    + apply in_map_iff in Hv as (r & <- & Hr).
      exists r. split; [ right; exact Hr | exact H ].
  - intros r Hr. rewrite Hext. destruct Hr as [<- | Hr]; [ exact HM1 | ].
    apply HM2. apply in_map_iff. exists r. split; [ reflexivity | exact Hr ].
  - destruct HM3 as [H | (v & Hv & H)].
    + exists item. split; [ left; reflexivity | rewrite Hext; exact H ].
    + apply in_map_iff in Hv as (r & <- & Hr).
      exists r. split; [ right; exact Hr | rewrite Hext; exact H ].
  - rewrite fold_left_sum_y.
    assert (Hn : ~ inject_Z (Z.of_nat (S (length others))) == 0).
    { unfold Qeq; simpl. lia. }
    unfold sum_y; simpl. field. exact Hn.
Qed.

Lemma unprocessed_insert_lt (rest : list ExtractedFieldData) (i j : nat) (P : gset nat) :
  (i < j)%nat -> unprocessed rest j ({[ i ]} ∪ P) = unprocessed rest j P.
Proof.
  revert j. induction rest as [| a rest IH]; intros j Hij; simpl; [ reflexivity | ].
  rewrite (IH (S j)) by lia.
  destruct (decide (j ∈ P)) as [Hj | Hj].
  - rewrite decide_True by set_solver. reflexivity.
  - rewrite decide_False; [ reflexivity | ].
    intros [Hs | Hp]%elem_of_union; [ | contradiction ].
    apply elem_of_singleton in Hs. lia.
Qed.

(** The inner loop appends to the group the unprocessed runs near the
    anchor, in order, and marks exactly those. *)
Lemma scanLine_spec (rest : list ExtractedFieldData) (i : nat) (currentY d : Q)
    (group : list ExtractedFieldData) (P : gset nat) :
  exists P',
    scanLine rest i currentY d group P
    = (group ++ List.filter (nearY d currentY) (unprocessed rest i P), P') /\
    unprocessed rest i P'
    = List.filter (fun r => negb (nearY d currentY r)) (unprocessed rest i P) /\
    (forall j, (j < i)%nat -> j ∈ P' <-> j ∈ P).
Proof.
  revert i group P. induction rest as [| a rest IH]; intros i group P;
    cbn [scanLine unprocessed].
  - exists P. cbn [List.filter]. rewrite app_nil_r. repeat split; auto.
  - destruct (decide (i ∈ P)) as [Hi | Hi].
    + destruct (IH (S i) group P) as (P' & E & HU & Hlt).
      exists P'. split; [ exact E | ]. split.
      * rewrite decide_True; [ exact HU | ]. apply Hlt; [ lia | exact Hi ].
      * intros j Hj. apply Hlt. lia.
    + change (Qle_bool (Qabs (ef_y a - currentY)) d) with (nearY d currentY a).
      cbn [List.filter]. destruct (nearY d currentY a) eqn:Hnear; cbn [negb].
      * destruct (IH (S i) (group ++ [a]) ({[ i ]} ∪ P)) as (P' & E & HU & Hlt).
        rewrite unprocessed_insert_lt in E, HU by lia.
        exists P'. split; [ rewrite E, <- app_assoc; reflexivity | ]. split.
        -- rewrite decide_True; [ exact HU | ].
           apply Hlt; [ lia | ].
           apply elem_of_union. left. apply elem_of_singleton. reflexivity.
        -- intros j Hj. rewrite Hlt by lia.
           split; [ | intros Hp; apply elem_of_union; right; exact Hp ].
           intros [Hs | Hp]%elem_of_union; [ | exact Hp ].
           apply elem_of_singleton in Hs. lia.
      * destruct (IH (S i) group P) as (P' & E & HU & Hlt).
        exists P'. split; [ exact E | ]. split.
        -- rewrite decide_False; [ rewrite HU; reflexivity | ].
           intros Hi'. apply Hi, Hlt; [ lia | exact Hi' ].
        -- intros j Hj. apply Hlt. lia.
Qed.

(** The outer loop appends one merged field for every line of the runs
    that are still unprocessed. *)
Lemma groupFrom_spec (rest : list ExtractedFieldData) (index : nat) (d : Q)
    (grouped : list ExtractedFieldData) (P : gset nat) :
  exists gs ms,
    Lines d (unprocessed rest index P) gs /\
    groupFrom rest index d grouped P = grouped ++ ms /\
    Forall2 merged_line gs ms.
Proof.
  revert index grouped P. induction rest as [| item rest IH]; intros index grouped P;
    cbn [groupFrom unprocessed].
  - exists [], []. rewrite app_nil_r. repeat split; constructor.
  - destruct (decide (index ∈ P)) as [Hi | Hi]; [ apply IH | ].
    destruct (scanLine_spec rest (S index) (ef_y item) d [item] P) as (P' & E & HU & Hlt).
    rewrite E. cbn [app].
    destruct (mergeGroup_merged_line item
                (List.filter (nearY d (ef_y item)) (unprocessed rest (S index) P)))
      as (m & Em & Hm).
    rewrite Em.
    destruct (IH (S index) (grouped ++ [m]) ({[ index ]} ∪ P')) as (gs & ms & HL & Eg & HF).
    rewrite unprocessed_insert_lt, HU in HL by lia.
    eexists (_ :: gs), (_ :: ms). split; [ constructor; exact HL | ].
    split; [ rewrite Eg, <- app_assoc; reflexivity | ].
    constructor; [ exact Hm | exact HF ].
Qed.

Lemma unprocessed_empty (data : list ExtractedFieldData) (i : nat) :
  unprocessed data i ∅ = data.
Proof.
  revert i. induction data as [| a data IH]; intros i; simpl; [ reflexivity | ].
  rewrite decide_False by set_solver. rewrite IH. reflexivity.
Qed.

Lemma filter_split_Permutation {A : Type} (f : A -> bool) (l : list A) :
  Permutation (List.filter f l ++ List.filter (fun a => negb (f a)) l) l.
Proof.
  induction l as [| a l IH]; simpl; [ constructor | ].
  destruct (f a); simpl.
  - constructor. exact IH.
  - apply Permutation_sym, Permutation_cons_app, Permutation_sym. exact IH.
Qed.

(** The lines divide the runs: every run is in exactly one line, a line
    starts with its anchor, and the other runs of a line are within the
    tolerance of the anchor. *)
Lemma Lines_partition (d : Q) (data : list ExtractedFieldData)
    (gs : list (list ExtractedFieldData)) :
  Lines d data gs ->
  Permutation (concat gs) data /\
  Forall (fun g => exists anchor others,
                     g = anchor :: others /\
                     Forall (fun r => Qabs (ef_y r - ef_y anchor) <= d) others) gs.
Proof.
  induction 1 as [| anchor rest gs HL [IHperm IHall]].
  - split; constructor.
  - split.
    + cbn [concat app]. constructor.
      eapply Permutation_trans; [ | apply (filter_split_Permutation (nearY d (ef_y anchor))) ].
      apply Permutation_app_head. exact IHperm.
    + constructor; [ | exact IHall ].
      exists anchor, (List.filter (nearY d (ef_y anchor)) rest). split; [ reflexivity | ].
      apply List.Forall_forall. intros r Hr. apply List.filter_In in Hr as [_ Hnear].
      unfold nearY in Hnear. apply Qle_bool_iff in Hnear. exact Hnear.
Qed.

(** The lines of a sequence of runs are determined by it. *)
Lemma Lines_functional (d : Q) (data : list ExtractedFieldData)
    (gs gs' : list (list ExtractedFieldData)) :
  Lines d data gs -> Lines d data gs' -> gs = gs'.
Proof.
  intros H. revert gs'. induction H as [| anchor rest gs HL IH]; intros gs' H'.
  - inversion H'. reflexivity.
  - inversion H' as [| ? ? gs0 HL0]; subst. f_equal. apply IH. exact HL0.
Qed.



(** Scenario A: the two runs in left-to-right extraction order merge into
    one line that spans both. *)
Example groupNearbyText_scenario_A :
  exists line,
    groupNearbyText [run_left; run_right] default_maxDistance = [line] /\
    ef_text line = "Full Name Doe, John"%string /\
    ef_x line == 40 /\
    ef_x line + ef_width line == 120 + ef_width run_right /\
    ef_y line == 701.
Proof.
  eexists. split; [ vm_compute; reflexivity | ].
  simpl. split; [ reflexivity | ]. split; [ reflexivity | ]. split; reflexivity.
Qed.

(** Runs further apart than the tolerance stay on lines of their own. *)
Example groupNearbyText_two_lines :
  map ef_text
    (groupNearbyText
       [ mkExtracted "Name" 40 700 30 10 "f" 10;
         mkExtracted "Date" 40 680 30 10 "f" 10;
         mkExtracted "Doe" 120 704 30 10 "f" 10 ] default_maxDistance)
  = ["Name Doe"; "Date"]%string.
Proof. vm_compute. reflexivity. Qed.

End PDFParserFacts.

(** *** Word wrapping *)

Section WrapTextFacts.
Import FontLoader.
Local Open Scope string_scope.

Lemma split_space_not_nil (s : string) : split_space s <> [].
Proof.
  destruct s as [| c s]; simpl; [ discriminate | ].
  destruct (Ascii.eqb c space); [ discriminate | ].
  destruct (split_space s); discriminate.
Qed.

(** Splitting distributes over a separating space. *)
Lemma split_space_app (a b : string) :
  split_space (a ++ " " ++ b) = (split_space a ++ split_space b)%list.
Proof.
  induction a as [| c a IH]; simpl.
  - reflexivity.
  - destruct (Ascii.eqb c space).
    + rewrite IH. reflexivity.
    + rewrite IH. pose proof (split_space_not_nil a) as Hne.
      destruct (split_space a) as [| w ws]; [ contradiction | reflexivity ].
Qed.

Lemma words_of_app (a b : string) :
  words_of (a ++ " " ++ b) = (words_of a ++ words_of b)%list.
Proof. unfold words_of. rewrite split_space_app. apply List.filter_app. Qed.

Lemma split_space_no_space (w : string) :
  has_space w = false -> split_space w = [w].
Proof.
  induction w as [| c w IH]; simpl; [ reflexivity | ].
  intros [Hc Hw]%orb_false_iff. rewrite Hc, (IH Hw). reflexivity.
Qed.

(** The pieces of a split contain no space. *)
Lemma split_space_pieces (s : string) :
  Forall (fun w => has_space w = false) (split_space s).
Proof.
  induction s as [| c s IH]; simpl.
  - repeat constructor.
  - destruct (Ascii.eqb c space) eqn:Hc.
    + constructor; [ reflexivity | exact IH ].
    + destruct (split_space s) as [| w ws]; [ repeat constructor; simpl; rewrite Hc; reflexivity | ].
      inversion IH as [| ? ? Hw Hws]; subst.
      constructor; [ simpl; rewrite Hc; exact Hw | exact Hws ].
Qed.

Lemma words_of_word (w : string) :
  has_space w = false -> words_of w = List.filter truthy_string [w].
Proof. intros H. unfold words_of. rewrite (split_space_no_space w H). reflexivity. Qed.

Lemma words_of_empty : words_of "" = [].
Proof. reflexivity. Qed.

Lemma truthy_string_false (s : string) : truthy_string s = false -> s = "".
Proof. destruct s; [ reflexivity | discriminate ]. Qed.

(** The words of joined lines are the words of the lines, in order. *)
Lemma words_of_join (l : list string) :
  words_of (join_space l) = flat_map words_of l.
Proof.
  unfold join_space. induction l as [| a l IH]; [ reflexivity | ].
  destruct l as [| b l].
  - simpl. rewrite app_nil_r. reflexivity.
  - change (String.concat " " (a :: b :: l)) with (a ++ " " ++ String.concat " " (b :: l)).
    rewrite words_of_app, IH. reflexivity.
Qed.

(** The loop neither loses nor reorders a word. *)
Lemma wrapLoop_words (measureText : string -> Q) (maxWidth : Q) (words lines : list string)
    (currentLine : string) :
  Forall (fun w => has_space w = false) words ->
  let '(lines', currentLine') := wrapLoop measureText maxWidth words lines currentLine in
  (flat_map words_of lines' ++ words_of currentLine'
   = flat_map words_of lines ++ words_of currentLine ++ List.filter truthy_string words)%list.
Proof.
  revert lines currentLine.
  induction words as [| word words IH]; intros lines currentLine Hw; cbn [wrapLoop].
  - cbn [List.filter]. rewrite app_nil_r. reflexivity.
  - inversion Hw as [| ? ? Hword Hwords]; subst.
    destruct (Qgt_bool _ maxWidth && truthy_string currentLine) eqn:Hflush.
    + specialize (IH (lines ++ [currentLine])%list word Hwords).
      destruct (wrapLoop measureText maxWidth words (lines ++ [currentLine]) word)
        as [lines' currentLine'].
      rewrite IH, flat_map_app. cbn [flat_map]. rewrite app_nil_r.
      rewrite (words_of_word word Hword).
      rewrite <- !app_assoc. f_equal. f_equal.
      cbn [List.filter]. destruct (truthy_string word); reflexivity.
    + match goal with
      | |- context [wrapLoop _ _ _ _ ?tl] => specialize (IH lines tl Hwords);
          destruct (wrapLoop measureText maxWidth words lines tl) as [lines' currentLine']
      end.
      rewrite IH. f_equal.
      destruct (truthy_string currentLine) eqn:Hcur.
      * rewrite words_of_app, (words_of_word word Hword), <- app_assoc.
        f_equal. cbn [List.filter]. destruct (truthy_string word); reflexivity.
      * rewrite (truthy_string_false _ Hcur), words_of_empty, (words_of_word word Hword).
        cbn [List.filter app]. destruct (truthy_string word); reflexivity.
Qed.

(** Every line the loop produces fits [maxWidth] or is one piece of the
    text. *)
Lemma wrapLoop_widths (measureText : string -> Q) (maxWidth : Q) (all words lines : list string)
    (currentLine : string) :
  let fits := fun line => measureText line <= maxWidth \/ In line all in
  incl words all ->
  Forall fits lines ->
  currentLine = "" \/ fits currentLine ->
  let '(lines', currentLine') := wrapLoop measureText maxWidth words lines currentLine in
  Forall fits lines' /\ (currentLine' = "" \/ fits currentLine').
Proof.
  intros fits. revert lines currentLine.
  induction words as [| word words IH]; intros lines currentLine Hincl Hlines Hcur;
    cbn [wrapLoop]; [ split; assumption | ].
  assert (Hword : In word all) by (apply Hincl; left; reflexivity).
  assert (Hincl' : incl words all) by (intros w Hw; apply Hincl; right; exact Hw).
  destruct (Qgt_bool _ maxWidth && truthy_string currentLine) eqn:Hflush.
  - apply andb_true_iff in Hflush as [_ Htruthy].
    apply IH; [ exact Hincl' | | right; right; exact Hword ].
    apply Forall_app. split; [ exact Hlines | ].
    constructor; [ | constructor ].
    destruct Hcur as [-> | Hfit]; [ discriminate | exact Hfit ].
  - apply IH; [ exact Hincl' | exact Hlines | ]. right.
    apply andb_false_iff in Hflush as [Hwidth | Hempty].
    + left. unfold Qgt_bool in Hwidth. apply negb_false_iff in Hwidth.
      apply Qle_bool_iff in Hwidth. exact Hwidth.
    + rewrite Hempty. right. exact Hword.
Qed.

(** Only non-empty lines are pushed. *)
Lemma wrapLoop_nonempty (measureText : string -> Q) (maxWidth : Q) (words lines : list string)
    (currentLine : string) :
  Forall (fun line => line <> "") lines ->
  Forall (fun line => line <> "") (wrapLoop measureText maxWidth words lines currentLine).1.
Proof.
  revert lines currentLine.
  induction words as [| word words IH]; intros lines currentLine Hlines;
    cbn [wrapLoop]; [ exact Hlines | ].
  destruct (Qgt_bool _ maxWidth && truthy_string currentLine) eqn:Hflush.
  - apply andb_true_iff in Hflush as [_ Htruthy].
    apply IH. apply Forall_app. split; [ exact Hlines | ].
    constructor; [ | constructor ]. intros ->. discriminate.
  - apply IH. exact Hlines.
Qed.

(** C5. Joining the lines of [wrapText] with single spaces gives back the
    words of the text in their order, and a line is wider than [maxWidth]
    only if it is a single word of the text, never a piece of a word. *)
Theorem wrapText_correct (ctx : Context2D) (text : string) (maxWidth fontSize : Q)
    (fontFamily : string) :
  let lines := wrapText (Some ctx) text maxWidth fontSize fontFamily in
  words_of (join_space lines) = words_of text /\
  Forall (fun line =>
            ctx fontSize fontFamily line <= maxWidth \/
            (In line (split_space text) /\ has_space line = false /\ line <> ""))
         lines.
Proof.
  cbn zeta. unfold wrapText.
  pose proof (wrapLoop_words (ctx fontSize fontFamily) maxWidth (split_space text) [] ""
                (split_space_pieces text)) as Hwords.
  pose proof (wrapLoop_widths (ctx fontSize fontFamily) maxWidth (split_space text)
                (split_space text) [] "" (fun _ H => H) (List.Forall_nil _)
                (or_introl eq_refl))
    as Hwidths.
  pose proof (wrapLoop_nonempty (ctx fontSize fontFamily) maxWidth (split_space text) [] ""
                (List.Forall_nil _)) as Hne.
  destruct (wrapLoop (ctx fontSize fontFamily) maxWidth (split_space text) [] "")
    as [lines currentLine].
  destruct Hwidths as [Hlines Hcur]. cbn [flat_map app fst] in Hwords, Hne.
  split.
  - rewrite words_of_join.
    destruct (truthy_string currentLine) eqn:Ht.
    + rewrite flat_map_app. cbn [flat_map]. rewrite app_nil_r. exact Hwords.
    + rewrite (truthy_string_false _ Ht), words_of_empty, app_nil_r in Hwords. exact Hwords.
  - assert (Hall : Forall (fun line =>
                             (ctx fontSize fontFamily line <= maxWidth
                              \/ In line (split_space text)) /\ line <> "")
                     (if truthy_string currentLine then (lines ++ [currentLine])%list else lines)).
    { destruct (truthy_string currentLine) eqn:Ht.
      - apply Forall_app. split.
        + apply Forall_and; split; assumption.
        + constructor; [ | constructor ]. split.
          * destruct Hcur as [-> | Hfit]; [ discriminate | exact Hfit ].
          * intros ->. discriminate.
      - apply Forall_and; split; assumption. }
    eapply List.Forall_impl; [ | exact Hall ].
    intros line [[Hfit | Hin] Hnonempty]; [ left; exact Hfit | right ].
    repeat split; try assumption.
    pose proof (split_space_pieces text) as Hpieces.
    rewrite List.Forall_forall in Hpieces. apply Hpieces. exact Hin.
Qed.

(** A long word is left whole on a line of its own; the metrics here
    give every character the width 1. *)
Example wrapText_long_word :
  wrapText (Some (fun _ _ line => inject_Z (Z.of_nat (String.length line))))
           "to be extraordinarily brief" 8 12 "Helvetica"
  = ["to be"; "extraordinarily"; "brief"].
Proof. vm_compute. reflexivity. Qed.

(** Without a canvas context the text is returned as its only line. *)
Lemma wrapText_without_context (text : string) (maxWidth fontSize : Q) (fontFamily : string) :
  wrapText None text maxWidth fontSize fontFamily = [text].
Proof. reflexivity. Qed.

End WrapTextFacts.

(** *** Template import *)

Section TemplateSaverFacts.
Import TemplateSaver TemplateSpec App.
Local Open Scope string_scope.

(** What a template that passes the validation looks like. *)
Lemma validateTemplate_true (template : json) :
  validateTemplate template = inr true ->
  exists members dims elements,
    template = JObject members /\
    (forall key, In key requiredFields -> is_Some (assoc key members)) /\
    assoc "pdfDimensions" members = Some dims /\
    truthy_value (member dims "width") = true /\
    truthy_value (member dims "height") = true /\
    assoc "fields" members = Some (JArray elements).
Proof.
  unfold validateTemplate.
  destruct template as [| b | q | str | elements | members]; cbn [truthy typeof_object negb orb];
    try discriminate.
  - destruct b; discriminate.
  - destruct (negb (Qeq_bool q 0)); discriminate.
  - destruct (truthy_string str); discriminate.
  - destruct (forallb _ requiredFields) eqn:Hreq; cbn [negb]; [ | discriminate ].
    assert (Hkeys : forall key, In key requiredFields -> is_Some (assoc key members)).
    { intros key Hkey. rewrite forallb_forall in Hreq. specialize (Hreq key Hkey).
      cbn [has_property] in Hreq. apply bool_decide_eq_true in Hreq. exact Hreq. }
    cbn [get_property].
    destruct (assoc "pdfDimensions" members) as [dims |] eqn:Hdims; [ | discriminate ].
    destruct dims as [| b | q | str | elements | dmembers]; cbn [get_property truthy_value negb];
      try discriminate.
    destruct (truthy_value (assoc "width" dmembers)) eqn:Hw; cbn [negb]; [ | discriminate ].
    destruct (truthy_value (assoc "height" dmembers)) eqn:Hh; cbn [negb]; [ | discriminate ].
    destruct (assoc "fields" members) as [[| | | | elements |] |] eqn:Hf;
      cbn [Array_isArray negb]; try discriminate.
    intros _. exists members, (JObject dmembers), elements. repeat split; assumption.
Qed.

(** A template with one of the three defects does not pass. *)
Lemma validateTemplate_defect (template : json) :
  missing_key template \/ bad_dimension template \/ fields_not_array template ->
  validateTemplate template <> inr true.
Proof.
  intros Hdefect Hvalid.
  apply validateTemplate_true in Hvalid
    as (members & dims & elements & -> & Hkeys & Hdims & Hw & Hh & Hfields).
  destruct Hdefect as [(key & Hkey & Hnone) | [(dims' & key & Hd & Hk & Hfalsy) | Hnot]].
  - cbn [member] in Hnone. destruct (Hkeys key Hkey) as [v Hv]. congruence.
  - cbn [member] in Hd. rewrite Hdims in Hd. injection Hd as <-.
    destruct Hk as [-> | ->]; congruence.
  - apply (Hnot elements). exact Hfields.
Qed.

(** C6, as the code has it.  A parsed document that misses one of the keys
    [id], [templateName], [pdfDimensions], [fields], whose width or height
    is absent or falsy (zero included), or whose [fields] member is not an
    array is rejected: the promise is rejected with an [Error], and the
    handler leaves the current template, the form data and the selection
    as they were. *)
Theorem import_rejects_malformed (JSON_parse : string -> option json) (now content : string)
    (template : json) (state : AppState) :
  JSON_parse content = Some template ->
  missing_key template \/ bad_dimension template \/ fields_not_array template ->
  (exists message, importTemplate JSON_parse now (Some content) = Rejected message) /\
  same_template state (handleImportTemplate JSON_parse now (Some (Some content)) state).
Proof.
  intros Hparse Hdefect.
  pose proof (validateTemplate_defect template Hdefect) as Hinvalid.
  assert (Hrej : exists message, importTemplate JSON_parse now (Some content) = Rejected message).
  { unfold importTemplate. rewrite Hparse.
    destruct (validateTemplate template) as [e | [|]]; [ eauto | contradiction | eauto ]. }
  split; [ exact Hrej | ].
  destruct Hrej as [message Hrej]. unfold handleImportTemplate. rewrite Hrej.
  repeat split.
Qed.

(** Scenario D: a file without [pdfDimensions]. *)
Lemma import_rejects_malformed_witness :
  (exists message,
     importTemplate (fun _ => Some template_without_dimensions) "2024-01-01T00:00:00.000Z"
       (Some "{}") = Rejected message) /\
  same_template state_with_template
    (handleImportTemplate (fun _ => Some template_without_dimensions)
       "2024-01-01T00:00:00.000Z" (Some (Some "{}")) state_with_template).
Proof.
  apply (import_rejects_malformed (fun _ => Some template_without_dimensions)
           "2024-01-01T00:00:00.000Z" "{}" template_without_dimensions state_with_template).
  - reflexivity.
  - left. exists "pdfDimensions". split; [ simpl; tauto | reflexivity ].
Defined.

(** A file that cannot be read or parsed is rejected as well. *)
Lemma import_rejects_unreadable (JSON_parse : string -> option json) (now : string)
    (content : option string) (state : AppState) :
  content = None \/ (exists c, content = Some c /\ JSON_parse c = None) ->
  (exists message, importTemplate JSON_parse now content = Rejected message) /\
  same_template state (handleImportTemplate JSON_parse now (Some content) state).
Proof.
  intros [-> | (c & -> & Hparse)]; unfold handleImportTemplate, importTemplate;
    rewrite ?Hparse; split; eauto; repeat split.
Qed.

(** C6 fails as stated: a width of [-5] is not positive, yet the template
    passes the validation, the promise resolves and the handler replaces
    the current template. *)
Lemma import_accepts_negative_width :
  member template_negative_width "pdfDimensions"
    = Some (JObject [ ("width", JNumber (-5)); ("height", JNumber 10) ]) /\
  (-5 <= 0)%Q /\
  validateTemplate template_negative_width = inr true /\
  importTemplate (fun _ => Some template_negative_width) "2024-01-01T00:00:00.000Z" (Some "{}")
    = Resolved (set_updatedAt template_negative_width "2024-01-01T00:00:00.000Z") /\
  currentTemplate
    (handleImportTemplate (fun _ => Some template_negative_width)
       "2024-01-01T00:00:00.000Z" (Some (Some "{}")) state_with_template)
    <> currentTemplate state_with_template.
Proof.
  repeat split; try reflexivity; discriminate.
Qed.

End TemplateSaverFacts.

(** *** Font matching *)

Section FontMatcherFacts.
Import FontMatcher FontSpec.
Local Open Scope string_scope.

Lemma find_app {A : Type} (f : A -> bool) (l1 l2 : list A) :
  List.find f (l1 ++ l2)%list
  = match List.find f l1 with Some a => Some a | None => List.find f l2 end.
Proof.
  induction l1 as [| a l1 IH]; simpl; [ reflexivity | ].
  destruct (f a); [ reflexivity | exact IH ].
Qed.

(** A map built from a list of entries holds, under a key, the last entry
    of that key. *)
Lemma Map_of_lookup {A : Type} (key : A -> string) (l : list A) (k : string) :
  Map_of (map (fun a => (key a, a)) l) !! k
  = List.find (fun a => String.eqb (key a) k) (rev l).
Proof.
  unfold Map_of.
  assert (H : forall m0 : gmap string A,
             fold_left (fun m kv => <[ kv.1 := kv.2 ]> m) (map (fun a => (key a, a)) l) m0 !! k
             = match List.find (fun a => String.eqb (key a) k) (rev l) with
               | Some a => Some a
               | None => m0 !! k
               end).
  { induction l as [| a l IH]; intros m0; simpl; [ reflexivity | ].
    rewrite IH, find_app. destruct (List.find _ (rev l)); [ reflexivity | ].
    simpl. destruct (String.eqb_spec (key a) k) as [-> | Hne].
    - apply lookup_insert_eq.
    - apply lookup_insert_ne. exact Hne. }
  rewrite H. destruct (List.find _ (rev l)); [ reflexivity | apply lookup_empty ].
Qed.

Lemma customFonts_lookup (fonts : list Font) (requested : string) :
  customFonts (new fonts) !! toLowerCase requested = custom_entry fonts requested.
Proof.
  unfold new, custom_entry; cbn [customFonts].
  apply (Map_of_lookup (fun font => toLowerCase (name font))).
Qed.

(** The keys of the builtin table are distinct, so the last entry of a key
    is the only one. *)
Lemma fontMappings_lookup (fonts : list Font) (requested : string) :
  fontMappings (new fonts) !! toLowerCase requested = builtin_entry requested.
Proof.
  unfold new, builtin_entry; cbn [fontMappings].
  rewrite (Map_of_lookup (fun m => toLowerCase (pdfFont m))).
  generalize (toLowerCase requested) as k. intros k.
  unfold FONT_MAPPINGS; cbn [rev app List.find pdfFont toLowerCase].
  repeat match goal with
         | |- context [String.eqb ?a k] =>
             destruct (String.eqb_spec a k) as [<- | ?]; [ reflexivity | ]
         end.
  reflexivity.
Qed.

(** Every entry of the builtin table names a system font. *)
Lemma builtin_entry_systemFont (requested : string) (m : FontMapping) :
  builtin_entry requested = Some m -> truthy_string (systemFont m) = true.
Proof.
  unfold builtin_entry. intros H. apply List.find_some in H as [Hin _].
  unfold FONT_MAPPINGS in Hin. simpl in Hin.
  repeat (destruct Hin as [<- | Hin]; [ reflexivity | ]). contradiction.
Qed.

(** How [matchFont] goes through the registry, the table, and the table
    again with the stripped name. *)
Lemma matchFont_cases (fonts : list Font) (requested : string) :
  matchFont (new fonts) requested
  = match custom_entry fonts requested with
    | Some font => or_string (family font) requested
    | None =>
        match builtin_entry requested with
        | Some m => systemFont m
        | None =>
            match builtin_entry (replace_style 0 requested) with
            | Some m => systemFont m
            | None => requested
            end
        end
    end.
Proof.
  unfold matchFont.
  rewrite customFonts_lookup, !fontMappings_lookup.
  destruct (custom_entry fonts requested); [ reflexivity | ].
  destruct (builtin_entry requested); [ reflexivity | ].
  destruct (builtin_entry (replace_style 0 requested)) as [m |] eqn:Hm; [ | reflexivity ].
  unfold or_string. rewrite (builtin_entry_systemFont _ _ Hm). reflexivity.
Qed.

Lemma replace_style_no_hyphen (s : string) :
  has_hyphen s = false -> replace_style 0 s = s.
Proof.
  induction s as [| c s IH]; simpl; [ reflexivity | ].
  intros [Hc Hs]%orb_false_iff. rewrite Hc, (IH Hs). reflexivity.
Qed.

(** Reads a string off an equation [lit = toLowerCase s], one character
    at a time. *)
Ltac invert_lower H :=
  repeat match type of H with
         | String _ _ = toLowerCase ?s =>
             let c := fresh "c" in
             let Hc := fresh "Hc" in
             destruct s as [| c s]; [ discriminate H | ];
             cbn [toLowerCase] in H; injection H as Hc H
         | EmptyString = toLowerCase ?s =>
             destruct s; [ clear H | discriminate H ]
         end.

Lemma replace_style_suffix (suffix : string) :
  In (toLowerCase suffix) stripped_suffixes ->
  replace_style 0 ("-" ++ suffix) = "".
Proof.
  intros Hin. change ("-" ++ suffix) with (String "-" suffix).
  cbn [replace_style Ascii.eqb Bool.eqb].
  unfold stripped_suffixes in Hin. cbn [In] in Hin.
  destruct Hin as [H | [H | [H | []]]]; invert_lower H;
    unfold match_alternative, style_alternatives;
    cbn [List.find starts_with_ci];
    repeat match goal with Hc : _ = lower_char _ |- _ => rewrite <- Hc; clear Hc end;
    reflexivity.
Qed.

(** A trailing [-Bold], [-Italic] or [-Oblique] after a name without a
    hyphen is stripped. *)
Lemma replace_style_trailing (base suffix : string) :
  has_hyphen base = false ->
  In (toLowerCase suffix) stripped_suffixes ->
  replace_style 0 (base ++ "-" ++ suffix) = base.
Proof.
  intros Hbase Hsuffix. induction base as [| c base IH].
  - apply replace_style_suffix. exact Hsuffix.
  - simpl in Hbase. apply orb_false_iff in Hbase as [Hc Hb].
    change ((String c base) ++ "-" ++ suffix) with (String c (base ++ "-" ++ suffix)).
    cbn [replace_style]. rewrite Hc, (IH Hb). reflexivity.
Qed.

(** C8, as the code has it.  (1) A name that equals the name of a registry
    entry, letter case ignored, resolves to the family of the last such
    entry, or stays as it is when that family is empty.  (2) Otherwise a
    name that equals a name of the builtin table, letter case ignored,
    resolves to the system font of that entry.  (3) Otherwise a name made
    of a hyphen-free base and a trailing [-Bold], [-Italic] or [-Oblique]
    (letter case ignored) resolves to the system font of the table entry
    of the base.  (4) Otherwise a name without a hyphen, or such a name
    with a trailing suffix whose base is not in the table, is returned
    unchanged. *)
Theorem matchFont_precedence (fonts : list Font) (requested : string) :
  (forall font,
     custom_entry fonts requested = Some font ->
     matchFont (new fonts) requested = or_string (family font) requested) /\
  (custom_entry fonts requested = None ->
   forall m,
     builtin_entry requested = Some m ->
     matchFont (new fonts) requested = systemFont m) /\
  (custom_entry fonts requested = None ->
   builtin_entry requested = None ->
   forall base suffix m,
     requested = base ++ "-" ++ suffix ->
     has_hyphen base = false ->
     In (toLowerCase suffix) stripped_suffixes ->
     builtin_entry base = Some m ->
     matchFont (new fonts) requested = systemFont m) /\
  (custom_entry fonts requested = None ->
   builtin_entry requested = None ->
   has_hyphen requested = false \/
   (exists base suffix,
      requested = base ++ "-" ++ suffix /\
      has_hyphen base = false /\
      In (toLowerCase suffix) stripped_suffixes /\
      builtin_entry base = None) ->
   matchFont (new fonts) requested = requested).
Proof.
  rewrite matchFont_cases. repeat split.
  - intros font ->. reflexivity.
  - intros -> m ->. reflexivity.
  - intros -> -> base suffix m -> Hbase Hsuffix Hm.
    rewrite (replace_style_trailing base suffix Hbase Hsuffix), Hm. reflexivity.
  - intros -> Hnone [Hplain | (base & suffix & -> & Hbase & Hsuffix & Hb)].
    + rewrite (replace_style_no_hyphen requested Hplain), Hnone. reflexivity.
    + rewrite Hnone, (replace_style_trailing base suffix Hbase Hsuffix), Hb. reflexivity.
Qed.

Lemma matchFont_precedence_witness :
  matchFont (new registry_lowercase) "HELVETICA" = "MyFont" /\
  matchFont (new []) "times-roman" = "Times New Roman" /\
  matchFont (new []) "Courier-Oblique" = "Courier New" /\
  matchFont (new []) "Garamond-Italic" = "Garamond-Italic".
Proof.
  split; [ | split; [ | split ] ].
  - apply (proj1 (matchFont_precedence registry_lowercase "HELVETICA")
             (mkFont "helvetica" "MyFont" "/fonts/my.ttf" true)).
    reflexivity.
  - apply (proj1 (proj2 (matchFont_precedence [] "times-roman")) eq_refl
             (mkMapping "Times-Roman" "Times New Roman" ["Times"; "Times New Roman"; "serif"])).
    reflexivity.
  - apply (proj1 (proj2 (proj2 (matchFont_precedence [] "Courier-Oblique"))) eq_refl eq_refl
             "Courier" "Oblique"
             (mkMapping "Courier" "Courier New" ["Courier"; "Courier New"; "monospace"]));
      [ reflexivity | reflexivity | simpl; tauto | reflexivity ].
  - apply (proj2 (proj2 (proj2 (matchFont_precedence [] "Garamond-Italic"))) eq_refl eq_refl).
    right. exists "Garamond", "Italic".
    split; [ reflexivity | split; [ reflexivity | split; [ simpl; tauto | reflexivity ] ] ].
Defined.

(** C8 fails as stated: the registry holds a font named [helvetica]; the
    requested name [Helvetica] is not exactly the name of a registry entry
    and is a name of the builtin table, yet it resolves to the family of
    the registry entry, not to the table's [Arial]. *)
Lemma matchFont_registry_ignores_case :
  Forall (fun font => name font <> "Helvetica") registry_lowercase /\
  builtin_entry "Helvetica"
    = Some (mkMapping "Helvetica" "Arial" ["Helvetica"; "Arial"; "sans-serif"]) /\
  matchFont (new registry_lowercase) "Helvetica" = "MyFont" /\
  matchFont (new registry_lowercase) "Helvetica" <> "Arial".
Proof.
  repeat split; try reflexivity.
  - repeat constructor. discriminate.
  - vm_compute. discriminate.
Qed.

(** The alternatives of the pattern are tried in order, [Bold] before
    [BoldItalic]: of a trailing [-BoldItalic] only [-Bold] is removed, and
    the name is then not found in the table. *)
Example matchFont_bolditalic :
  replace_style 0 "Helvetica-BoldItalic" = "HelveticaItalic" /\
  matchFont (new []) "Helvetica-BoldItalic" = "Helvetica-BoldItalic" /\
  matchFont (new []) "Helvetica-Italic" = "Arial".
Proof. repeat split. Qed.

(** A style marker is removed wherever it occurs, not only at the end. *)
Example matchFont_inner_marker :
  matchFont (new []) "Times-Bold-Roman" = "Times New Roman".
Proof. reflexivity. Qed.

End FontMatcherFacts.

(** *** The renderer *)

Section RenderFacts.
Import PDFGeneration RenderSpec.

Variables Doc Blob : Type.
Variable B : Backend Doc Blob.

Lemma bind_inr {A C : Type} (m : M Doc A) (k : A -> M Doc C) (s s' : State Doc) (a : A) :
  m s = (s', inr a) -> bind m k s = k a s'.
Proof. intros H. unfold bind. rewrite H. reflexivity. Qed.

Lemma bind_inl {A C : Type} (m : M Doc A) (k : A -> M Doc C) (s s' : State Doc) (e : Thrown) :
  m s = (s', inl e) -> bind m k s = (s', inl e).
Proof. intros H. unfold bind. rewrite H. reflexivity. Qed.

Lemma bind_assoc {A C D : Type} (m : M Doc A) (k : A -> M Doc C) (h : C -> M Doc D)
    (s : State Doc) :
  bind (bind m k) h s = bind m (fun a => bind (k a) h) s.
Proof.
  unfold bind. destruct (m s) as [s' [e | a]]; reflexivity.
Qed.

Lemma progress_values_app (a b : list Event) :
  progress_values (a ++ b) = progress_values a ++ progress_values b.
Proof.
  induction a as [| e a IH]; simpl; [ reflexivity | ].
  destruct e; simpl; rewrite ?IH; reflexivity.
Qed.









Lemma increasing_from_lower (a b c : Q) (l : list Q) :
  a <= b -> increasing_from b l c -> increasing_from a l c.
Proof.
  intros Hab. destruct l as [| p l]; simpl.
  - intros Hbc. eapply Qle_trans; eassumption.
  - intros [Hbp Hl]. split; [ eapply Qle_trans; eassumption | exact Hl ].
Qed.

Lemma increasing_from_upper (a b c : Q) (l : list Q) :
  b <= c -> increasing_from a l b -> increasing_from a l c.
Proof.
  intros Hbc. revert a. induction l as [| p l IH]; intros a; simpl.
  - intros Hab. eapply Qle_trans; eassumption.
  - intros [Hap Hl]. split; [ exact Hap | apply IH; exact Hl ].
Qed.

Lemma increasing_from_app (a b c : Q) (l1 l2 : list Q) :
  increasing_from a l1 b -> increasing_from b l2 c -> increasing_from a (l1 ++ l2) c.
Proof.
  revert a. induction l1 as [| p l1 IH]; intros a; simpl.
  - intros Hab H2. eapply increasing_from_lower; eassumption.
  - intros [Hap H1] H2. split; [ exact Hap | apply IH; assumption ].
Qed.

Lemma increasing_from_le (a b : Q) (l : list Q) :
  increasing_from a l b -> a <= b.
Proof.
  revert a. induction l as [| p l IH]; intros a; simpl; [ auto | ].
  intros [Hap Hl]. eapply Qle_trans; [ exact Hap | apply IH; exact Hl ].
Qed.

Lemma increasing_from_bounds (a b : Q) (l : list Q) :
  increasing_from a l b -> Forall (fun p => a <= p <= b) l.
Proof.
  revert a. induction l as [| p l IH]; intros a; simpl; [ constructor | ].
  intros [Hap Hl]. constructor.
  - split; [ exact Hap | apply (increasing_from_le _ _ _ Hl) ].
  - eapply List.Forall_impl; [ | apply IH; exact Hl ].
    intros q [H1 H2]. split; [ eapply Qle_trans; eassumption | exact H2 ].
Qed.

Lemma increasing_from_non_decreasing (a b : Q) (l : list Q) :
  increasing_from a l b -> non_decreasing (a :: l).
Proof.
  revert a. induction l as [| p l IH]; intros a; simpl; [ auto | ].
  intros [Hap Hl]. split; [ exact Hap | apply (IH p Hl) ].
Qed.

Lemma pb_ret {A : Type} (lo hi e : Q) (a : A) :
  lo <= hi -> progress_between Doc lo hi e (ret a).
Proof.
  intros H s. exists []. rewrite app_nil_r. split; [ reflexivity | exact H ].
Qed.

Lemma pb_emit_quiet (lo hi e : Q) (ev : Event) :
  progress_values [ev] = [] -> lo <= hi -> progress_between Doc lo hi e (emit ev).
Proof.
  intros Hq H s. exists [ev]. split; [ reflexivity | ].
  cbn [emit snd]. rewrite Hq. exact H.
Qed.

Lemma pb_emit_progress (lo hi e p : Q) :
  lo <= p -> p <= hi -> progress_between Doc lo hi e (emit (setProgress p)).
Proof.
  intros H1 H2 s. exists [setProgress p]. split; [ reflexivity | ].
  simpl. split; assumption.
Qed.

Lemma pb_call (lo hi e : Q) (c : Call) :
  lo <= hi -> lo <= e -> progress_between Doc lo hi e (call B c).
Proof.
  intros H1 H2 s. exists [Called c]. unfold call.
  destruct (jsPDF_call B (doc s) c); simpl; split; auto.
Qed.

Lemma pb_bind {A C : Type} (a b c e : Q) (m : M Doc A) (k : A -> M Doc C) :
  progress_between Doc a b e m ->
  (forall x, progress_between Doc b c e (k x)) ->
  progress_between Doc a c e (bind m k).
Proof.
  intros Hm Hk s. destruct (Hm s) as (evs1 & Hlog1 & Hpv1). unfold bind.
  destruct (m s) as [s1 [err | x]]; cbn [fst snd] in *.
  - exists evs1. split; assumption.
  - destruct (Hk x s1) as (evs2 & Hlog2 & Hpv2).
    exists (evs1 ++ evs2). split.
    + rewrite Hlog2, Hlog1, app_assoc. reflexivity.
    + rewrite progress_values_app.
      destruct ((k x s1).2); eapply increasing_from_app; eassumption.
Qed.

Lemma pb_try_catch (a c e e' : Q) (m h : M Doc unit) :
  progress_between Doc a c e' m ->
  progress_between Doc e' c e h ->
  progress_between Doc a c e (try_catch m h).
Proof.
  intros Hm Hh s. destruct (Hm s) as (evs1 & Hlog1 & Hpv1). unfold try_catch.
  destruct (m s) as [s1 [err | x]]; cbn [fst snd] in *.
  - destruct (Hh s1) as (evs2 & Hlog2 & Hpv2).
    exists (evs1 ++ evs2). split.
    + rewrite Hlog2, Hlog1, app_assoc. reflexivity.
    + rewrite progress_values_app.
      destruct ((h s1).2); eapply increasing_from_app; eassumption.
  - exists evs1. split; assumption.
Qed.

Lemma pb_weaken {A : Type} (a a' b b' e e' : Q) (m : M Doc A) :
  a' <= a -> b <= b' -> e <= e' ->
  progress_between Doc a b e m -> progress_between Doc a' b' e' m.
Proof.
  intros Ha Hb He Hm s. destruct (Hm s) as (evs & Hlog & Hpv).
  exists evs. split; [ exact Hlog | ].
  destruct ((m s).2);
    (eapply increasing_from_lower; [ exact Ha | ]);
    (eapply increasing_from_upper; [ | exact Hpv ]); assumption.
Qed.

(** A loop whose callback reports nothing but [p] reports nothing but
    [p]. *)
Lemma pb_forEach_const {A : Type} (p : Q) (f : A -> nat -> M Doc unit) (l : list A) (i : nat) :
  (forall a j, progress_between Doc p p p (f a j)) ->
  progress_between Doc p p p (forEach f l i).
Proof.
  intros Hf. revert i. induction l as [| a l IH]; intros i; cbn [forEach].
  - apply pb_ret. apply Qle_refl.
  - eapply pb_bind; [ apply Hf | intros _; apply IH ].
Qed.

(** The callback on a field reports at most its own progress value. *)
Lemma pb_renderField (converter : CoordinateConverter.t) (pdfWidth : Q)
    (formData : gmap string Value) (n : nat) (field : Field) (index : nat) :
  let p := 40 + (of_nat index / of_nat n) * 50 in
  progress_between Doc p p p (renderField B converter pdfWidth formData n field index).
Proof.
  intros p. unfold renderField.
  assert (Hpp : p <= p) by apply Qle_refl.
  destruct (unfilled (formData !! id field)); [ apply pb_ret; exact Hpp | ].
  repeat (eapply pb_bind; [ apply pb_call; exact Hpp | intros _ ]).
  eapply pb_bind; [ | intros _; apply pb_emit_progress; exact Hpp ].
  destruct (is_checkbox (type field)).
  - destruct (isChecked (formData !! id field)); [ | apply pb_ret; exact Hpp ].
    eapply pb_bind; [ apply pb_call; exact Hpp | intros _; apply pb_call; exact Hpp ].
  - destruct (maxWidth field) as [w |]; [ | apply pb_call; exact Hpp ].
    destruct (multiline field) as [[|] |]; try (apply pb_call; exact Hpp).
    destruct (truthy_number (Some w)); [ | apply pb_call; exact Hpp ].
    apply pb_forEach_const. intros line j. apply pb_call; exact Hpp.
Qed.

Lemma of_nat_le (i j : nat) : (i <= j)%nat -> of_nat i <= of_nat j.
Proof. intros H. unfold of_nat. rewrite <- Zle_Qle. lia. Qed.

Lemma field_progress_step (i n : nat) :
  40 + (of_nat i / of_nat n) * 50 <= 40 + (of_nat (S i) / of_nat n) * 50.
Proof.
  assert (Hinv : 0 <= / of_nat n).
  { apply Qinv_le_0_compat. apply (of_nat_le 0 n). lia. }
  assert (H : of_nat i / of_nat n <= of_nat (S i) / of_nat n).
  { unfold Qdiv. apply Qmult_le_compat_r; [ apply of_nat_le; lia | exact Hinv ]. }
  lra.
Qed.

Lemma field_progress_upper (i n : nat) :
  (i <= n)%nat -> 40 + (of_nat i / of_nat n) * 50 <= 90.
Proof.
  intros Hin.
  assert (H : of_nat i / of_nat n <= 1).
  { destruct n as [| n].
    - replace i with 0%nat by lia. discriminate.
    - apply Qle_shift_div_r.
      + unfold of_nat. rewrite <- (Zlt_Qlt 0). lia.
      + rewrite Qmult_1_l. apply of_nat_le. exact Hin. }
  lra.
Qed.

Lemma field_progress_lower (i n : nat) :
  40 <= 40 + (of_nat i / of_nat n) * 50.
Proof.
  assert (H : 0 <= of_nat i / of_nat n).
  { unfold Qdiv. apply Qmult_le_0_compat.
    - apply (of_nat_le 0 i). lia.
    - apply Qinv_le_0_compat. apply (of_nat_le 0 n). lia. }
  lra.
Qed.

(** The loop over the fields reports values that grow with the index and
    stay between 40 and 90. *)
Lemma pb_fields_loop (converter : CoordinateConverter.t) (pdfWidth : Q)
    (formData : gmap string Value) (n : nat) (l : list Field) (i : nat) :
  (i + length l = n)%nat ->
  progress_between Doc (40 + (of_nat i / of_nat n) * 50) 90 90
    (forEach (renderField B converter pdfWidth formData n) l i).
Proof.
  revert i. induction l as [| field l IH]; intros i Hlen; cbn [forEach].
  - apply pb_ret. apply field_progress_upper. simpl in Hlen. lia.
  - simpl in Hlen. eapply pb_bind.
    + eapply pb_weaken; [ apply Qle_refl | apply field_progress_step | | apply pb_renderField ].
      apply field_progress_upper. lia.
    + intros _. apply IH. lia.
Qed.

(** The try block reports values from 20 up to 100 when it returns the
    blob, and from 20 up to 95 when it throws. *)
Lemma pb_tryBlock (template : Template) (formData : gmap string Value)
    (options : ExportOptions) (pdfWidth pdfHeight : Q) :
  progress_between Doc 20 100 95 (tryBlock B template formData options pdfWidth pdfHeight).
Proof.
  unfold tryBlock.
  eapply pb_bind; [ apply (pb_emit_progress 20 20 95 20); apply Qle_refl | intros _ ].
  eapply (pb_bind 20 20).
  { destruct (_ && _).
    - eapply (pb_try_catch 20 20 95 20).
      + apply pb_call; apply Qle_refl.
      + apply pb_emit_quiet; [ reflexivity | apply Qle_refl ].
    - apply pb_ret. apply Qle_refl. }
  intros _.
  eapply pb_bind; [ apply (pb_emit_progress 20 40 95 40); discriminate | intros _ ].
  eapply (pb_bind 40 90).
  { eapply pb_weaken; [ | apply Qle_refl | | apply pb_fields_loop; reflexivity ].
    - apply field_progress_lower.
    - discriminate. }
  intros _.
  eapply pb_bind; [ apply (pb_emit_progress 90 95 95 95); discriminate | intros _ ].
  eapply (pb_bind 95 95).
  { intros s. exists []. rewrite app_nil_r. cbn [fst snd].
    split; [ reflexivity | ]. destruct (toBlob B (doc s) _ _); simpl; discriminate. }
  intros blob.
  eapply pb_bind; [ apply (pb_emit_progress 95 100 95 100); discriminate | intros _ ].
  apply pb_ret. discriminate.
Qed.

(** When the try block returns, the last thing it did was to report
    100. *)
Lemma tryBlock_returns (template : Template) (formData : gmap string Value)
    (options : ExportOptions) (pdfWidth pdfHeight : Q) (s s' : State Doc) (blob : Blob) :
  tryBlock B template formData options pdfWidth pdfHeight s = (s', inr blob) ->
  exists prev, log s' = prev ++ [setProgress 100].
Proof.
  unfold tryBlock, bind. cbn [emit ret doc log].
  destruct (_ && _); unfold try_catch, call, emit, ret; cbn [doc log];
    try destruct (jsPDF_call B _ _); cbn [doc log].
  all: match goal with
       | |- context [forEach ?f ?l ?i ?st] => destruct (forEach f l i st) as [? [? | ?]]
       end; try discriminate.
  all: match goal with
       | |- context [toBlob B ?a ?b ?c] => destruct (toBlob B a b c)
       end; try discriminate.
  all: intros H; inversion H; cbn [log]; eexists; reflexivity.
Qed.

(** C9. The progress values reported by a call of [generatePDF] start with
    0, never decrease, and lie between 0 and 100; when the call returns
    [null] every reported value is below 100, and when it returns the blob
    the last reported value is 100. *)
Theorem progress_is_monotone (template : Template) (formData : gmap string Value)
    (options : ExportOptions) :
  let run := generatePDF B template formData options in
  let ps := progress_values run.1 in
  (exists rest, ps = 0 :: rest) /\
  non_decreasing ps /\
  Forall (fun p => 0 <= p <= 100) ps /\
  match run.2 with
  | Some _ => exists before, ps = before ++ [100]
  | None => Forall (fun p => p < 100) ps
  end.
Proof.
  cbn zeta. unfold generatePDF.
  set (pdfWidth := width (pdfDimensions template) * px_to_mm).
  set (pdfHeight := height (pdfDimensions template) * px_to_mm).
  destruct (jsPDF_new B _ pdfWidth pdfHeight) as [err | pdf0].
  { cbn. split; [ eexists; reflexivity | ].
    repeat split; try discriminate; repeat constructor; discriminate. }
  set (start := [setIsGenerating true; setProgress 0; setError None]).
  destruct (pb_tryBlock template formData options pdfWidth pdfHeight
              {| doc := pdf0; log := start |}) as (evs & Hlog & Hpv).
  pose proof (tryBlock_returns template formData options pdfWidth pdfHeight
                {| doc := pdf0; log := start |}) as Hret.
  destruct (tryBlock B template formData options pdfWidth pdfHeight
              {| doc := pdf0; log := start |}) as [s' [err | blob]];
    cbn [fst snd log] in *; cbn [settle fst snd]; rewrite Hlog;
    rewrite !progress_values_app; cbn [progress_values start app]; rewrite app_nil_r.
  - assert (H0 : increasing_from 0 (progress_values evs) 95).
    { eapply increasing_from_lower; [ | exact Hpv ]. discriminate. }
    split; [ eexists; reflexivity | ].
    split; [ eapply increasing_from_non_decreasing; exact H0 | ].
    pose proof (increasing_from_bounds _ _ _ H0) as Hb.
    split; constructor; try (split; discriminate); try reflexivity;
      (eapply List.Forall_impl; [ | exact Hb ]); cbv beta; intros q [H1 H2].
    + split; [ exact H1 | ]. eapply Qle_trans; [ exact H2 | discriminate ].
    + eapply Qle_lt_trans; [ exact H2 | reflexivity ].
  - assert (H0 : increasing_from 0 (progress_values evs) 100).
    { eapply increasing_from_lower; [ | exact Hpv ]. discriminate. }
    split; [ eexists; reflexivity | ].
    split; [ eapply increasing_from_non_decreasing; exact H0 | ].
    split.
    + constructor; [ split; discriminate | ].
      apply (increasing_from_bounds _ _ _ H0).
    + destruct (Hret s' blob eq_refl) as [prev Hprev].
      rewrite Hlog in Hprev.
      assert (Hlast : exists evs', evs = evs' ++ [setProgress 100]).
      { destruct evs as [| e0 evs0].
        - rewrite app_nil_r in Hprev. unfold start in Hprev.
          destruct prev as [| a [| b [| c [| d prev]]]]; discriminate Hprev.
        - destruct (@exists_last _ (e0 :: evs0)) as (evs' & e & Heq); [ discriminate | ].
          rewrite Heq in Hprev |- *. exists evs'. rewrite app_assoc in Hprev.
          apply app_inj_tail in Hprev as [_ ->]. reflexivity. }
      destruct Hlast as [evs' ->]. rewrite progress_values_app. cbn [progress_values].
      exists (0 :: progress_values evs'). reflexivity.
Qed.

Lemma bind_ext {A C : Type} (m : M Doc A) (k k' : A -> M Doc C) (s : State Doc) :
  (forall a s', k a s' = k' a s') -> bind m k s = bind m k' s.
Proof.
  intros H. unfold bind. destruct (m s) as [s1 [err | a]]; [ reflexivity | apply H ].
Qed.

Lemma forEach_app {A : Type} (f : A -> nat -> M Doc unit) (l1 l2 : list A) (i : nat)
    (s : State Doc) :
  forEach f (l1 ++ l2) i s
  = bind (forEach f l1 i) (fun _ => forEach f l2 (i + length l1)%nat) s.
Proof.
  revert i s. induction l1 as [| a l1 IH]; intros i s; cbn [forEach app length].
  - unfold bind, ret. rewrite Nat.add_0_r. reflexivity.
  - rewrite bind_assoc. apply bind_ext. intros _ s'.
    rewrite IH. replace (S i + length l1)%nat with (i + S (length l1))%nat by lia.
    reflexivity.
Qed.

(** A failure of the background image is caught: the part of the try block
    before the fields never throws. *)
Lemma upTo_nil_returns (template : Template) (formData : gmap string Value)
    (options : ExportOptions) (pdfWidth pdfHeight : Q) (s : State Doc) :
  (upTo Doc Blob B template formData options pdfWidth pdfHeight [] s).2 = inr tt.
Proof.
  unfold upTo, bind. cbn [emit forEach].
  destruct (_ && _); unfold try_catch, call, emit, ret; cbn [doc log];
    try destruct (jsPDF_call B _ _); reflexivity.
Qed.

Lemma upTo_app (template : Template) (formData : gmap string Value)
    (options : ExportOptions) (pdfWidth pdfHeight : Q) (l1 l2 : list Field) (s : State Doc) :
  upTo Doc Blob B template formData options pdfWidth pdfHeight (l1 ++ l2) s
  = bind (upTo Doc Blob B template formData options pdfWidth pdfHeight l1)
         (fun _ =>
            forEach (renderField B
                       (CoordinateConverter.new (pdfDimensions template)
                          (pdfDimensions template) 1 72)
                       pdfWidth formData (length (fields template)))
                    l2 (length l1)) s.
Proof.
  unfold upTo. rewrite !bind_assoc.
  apply bind_ext. intros _ sa. rewrite !bind_assoc.
  apply bind_ext. intros _ sb. rewrite !bind_assoc.
  apply bind_ext. intros _ sc. rewrite forEach_app. reflexivity.
Qed.

Lemma tryBlock_after_fields (template : Template) (formData : gmap string Value)
    (options : ExportOptions) (pdfWidth pdfHeight : Q) (s s' : State Doc) (err : Thrown) :
  upTo Doc Blob B template formData options pdfWidth pdfHeight (fields template) s
  = (s', inl err) ->
  tryBlock B template formData options pdfWidth pdfHeight s = (s', inl err).
Proof.
  intros H.
  assert (E : forall k : unit -> M Doc Blob,
             bind (upTo Doc Blob B template formData options pdfWidth pdfHeight
                     (fields template)) k s = (s', inl err)).
  { intros k. apply bind_inl. exact H. }
  unfold upTo in E. unfold tryBlock.
  rewrite <- (E (fun _ =>
                   bind (emit (setProgress 95)) (fun _ =>
                   bind (fun s0 => (s0, toBlob B (doc s0)
                                          (or_default (format options) fmt_pdf)
                                          (or_default (quality options) 95)))
                        (fun blob => bind (emit (setProgress 100)) (fun _ => ret blob))))).
  rewrite !bind_assoc.
  apply bind_ext. intros _ sa. rewrite !bind_assoc.
  apply bind_ext. intros _ sb. rewrite !bind_assoc.
  apply bind_ext. intros _ sc. reflexivity.
Qed.

(** C1, as the code has it.  The callback is not guarded: when it throws on
    a field, after the fields before it went through, the loop ends there.
    The events of the call are those up to the throw, followed by the
    error message, the console entry and the reset of [isGenerating];
    nothing is called for a later field, and [null] is returned. *)
Theorem field_failure_aborts (template : Template) (formData : gmap string Value)
    (options : ExportOptions) (before : list Field) (field : Field) (after : list Field)
    (pdf0 : Doc) (s1 s2 : State Doc) (err : Thrown) :
  let pdfWidth := width (pdfDimensions template) * px_to_mm in
  let pdfHeight := height (pdfDimensions template) * px_to_mm in
  let orientation :=
    if Qgt_bool pdfWidth pdfHeight then "landscape"%string else "portrait"%string in
  let converter :=
    CoordinateConverter.new (pdfDimensions template) (pdfDimensions template) 1 72 in
  let start := [setIsGenerating true; setProgress 0; setError None] in
  jsPDF_new B orientation pdfWidth pdfHeight = inr pdf0 ->
  fields template = before ++ field :: after ->
  upTo Doc Blob B template formData options pdfWidth pdfHeight before
       {| doc := pdf0; log := start |} = (s1, inr tt) ->
  renderField B converter pdfWidth formData (length (fields template)) field
              (length before) s1 = (s2, inl err) ->
  generatePDF B template formData options
  = (log s2 ++ [setError (Some ("Failed to generate PDF: " ++ errorMessage err)%string);
                console_error;
                setIsGenerating false],
     None).
Proof.
  intros pdfWidth pdfHeight orientation converter start Hnew Hfields Hbefore Hthrow.
  unfold generatePDF. fold pdfWidth pdfHeight orientation. rewrite Hnew. fold start.
  rewrite (tryBlock_after_fields template formData options pdfWidth pdfHeight
             {| doc := pdf0; log := start |} s2 err); [ reflexivity | ].
  rewrite Hfields, upTo_app.
  rewrite (bind_inr _ _ _ _ _ Hbefore). cbn [forEach].
  apply bind_inl. exact Hthrow.
Qed.

End RenderFacts.

Section RenderExamples.
Import PDFGeneration RenderSpec.


(** The first of two fields cannot be drawn. *)
Lemma field_failure_aborts_witness :
  let s1 := (upTo unit string failing_backend two_fields two_values no_options
               (794 * px_to_mm) (1123 * px_to_mm) [] start_state).1 in
  let s2 := (renderField failing_backend page_converter (794 * px_to_mm) two_values 2
               first_field 0 s1).1 in
  generatePDF failing_backend two_fields two_values no_options
  = (log s2 ++ [setError (Some "Failed to generate PDF: cannot draw"%string);
                console_error;
                setIsGenerating false],
     None).
Proof.
  intros s1 s2.
  apply (field_failure_aborts unit string failing_backend two_fields two_values no_options
           [] first_field [second_field] tt s1 s2 (Error "cannot draw"%string)).
  - reflexivity.
  - reflexivity.
  - vm_compute. reflexivity.
  - vm_compute. reflexivity.
Defined.

(** C1 fails as stated: drawing the first field throws; the second field
    has a bound, non-empty value, yet no draw call is issued for it, and
    the call returns [null] instead of a blob. *)
Lemma later_field_is_not_drawn :
  let run := generatePDF failing_backend two_fields two_values no_options in
  two_values !! id second_field = Some (VString "fine"%string) /\
  run.2 = None /\
  (exists px py options, draws run.1 = [drawText "boom"%string px py options]) /\
  Forall (fun c => forall px py options, c <> drawText "fine"%string px py options) (calls run.1).
Proof.
  cbn zeta. split; [ vm_compute; reflexivity | ].
  split; [ vm_compute; reflexivity | ].
  split; [ eexists _, _, _; vm_compute; reflexivity | ].
  vm_compute. repeat constructor; discriminate.
Qed.

(** On a document that accepts every call both fields are drawn and the
    progress runs 0, 20, 40, 40, 65, 95, 100. *)
Example render_two_fields :
  let run := generatePDF accepting_backend two_fields two_values no_options in
  run.2 = Some "blob"%string /\
  Forall2 Qeq (progress_values run.1) [0; 20; 40; 40; 65; 95; 100] /\
  (exists p1 p2, draws run.1 = [drawText "boom"%string p1.1 p1.2 p2.1; drawText "fine"%string p2.2.1 p2.2.2 p2.1]).
Proof.
  cbn zeta. split; [ vm_compute; reflexivity | ].
  split; [ vm_compute; repeat constructor | ].
  eexists (_, _), (_, (_, _)). vm_compute. reflexivity.
Qed.

(** A failure of the background image is caught and logged; the field is
    drawn and the blob is returned. *)
Example render_without_background :
  let run := generatePDF no_image_backend with_background two_values no_options in
  run.2 = Some "blob"%string /\
  In console_warn run.1 /\
  (exists px py options, draws run.1 = [drawText "fine"%string px py options]).
Proof.
  cbn zeta. split; [ vm_compute; reflexivity | ].
  split; [ vm_compute; tauto | ].
  eexists _, _, _. vm_compute. reflexivity.
Qed.

End RenderExamples.

(** ** Part III. Further properties of the code *)

(** *** The coordinate converter: composition, bounds, grid, fit *)

Section ConverterMoreFacts.
Import CoordinateConverter.

(** A quotient, seen as the number whose product with the divisor is the
    dividend. *)
Lemma Qdiv_mult_cancel (a b : Q) : ~ b == 0 -> (a / b) * b == a.
Proof. intros Hb. field. exact Hb. Qed.

(** X1, over exact rationals.  Conversions compose: with no dimension and
    no zoom factor zero,
    converting from system [a] to [b] and then from [b] to [c] is
    converting from [a] to [c]; in particular converting there and back
    returns the point. *)
Theorem convert_compose (this : t) (x y : Q) (a b c : CoordinateSystem) :
  ~ width (pdfDimensions this) == 0 ->
  ~ height (pdfDimensions this) == 0 ->
  ~ width (canvasDimensions this) == 0 ->
  ~ height (canvasDimensions this) == 0 ->
  ~ scale this == 0 ->
  let p := convert this x y a b in
  Coords_eq (convert this (cx p) (cy p) b c) (convert this x y a c) /\
  (let q := convert this (cx p) (cy p) b a in Coords_eq q {| cx := x; cy := y |}).
Proof.
  intros Hpw Hph Hcw Hch Hs.
  destruct a, b, c; cbn; unfold Coords_eq; cbn; repeat split; try reflexivity;
    field; auto.
Qed.

Lemma convert_compose_witness :
  let p := convert (updateScale a4_converter 2) 100 200 pdf screen in
  Coords_eq (convert (updateScale a4_converter 2) (cx p) (cy p) screen canvas)
            (convert (updateScale a4_converter 2) 100 200 pdf canvas) /\
  (let q := convert (updateScale a4_converter 2) (cx p) (cy p) screen pdf in
   Coords_eq q {| cx := 100; cy := 200 |}).
Proof.
  apply (convert_compose (updateScale a4_converter 2) 100 200 pdf screen canvas);
    discriminate.
Defined.

(** X2, over exact rationals: a statement about the formula, not about
    its rounding in binary64.  [pdfToCanvas] maps the page onto the canvas
    and turns it upside down: a point of the page lands on the canvas, the
    bottom edge of the page on the bottom edge of the canvas (the largest
    Y), the top edge on Y = 0, and a higher point of the page lands further
    up on the canvas. *)
Theorem pdfToCanvas_onto_canvas (this : t) (x y y' : Q) :
  0 < width (pdfDimensions this) ->
  0 < height (pdfDimensions this) ->
  0 <= width (canvasDimensions this) ->
  0 <= height (canvasDimensions this) ->
  0 <= x <= width (pdfDimensions this) ->
  0 <= y <= height (pdfDimensions this) ->
  y <= y' ->
  let c := pdfToCanvas this x y in
  (0 <= cx c <= width (canvasDimensions this)) /\
  (0 <= cy c <= height (canvasDimensions this)) /\
  cy (pdfToCanvas this x 0) == height (canvasDimensions this) /\
  cy (pdfToCanvas this x (height (pdfDimensions this))) == 0 /\
  cy (pdfToCanvas this x y') <= cy c.
Proof.
  intros Hpw Hph Hcw Hch [Hx0 Hx1] [Hy0 Hy1] Hyy. cbn.
  set (pw := width (pdfDimensions this)) in *.
  set (ph := height (pdfDimensions this)) in *.
  set (cw := width (canvasDimensions this)) in *.
  set (ch := height (canvasDimensions this)) in *.
  assert (Hrw : (cw / pw) * pw == cw) by (apply Qdiv_mult_cancel; lra).
  assert (Hrh : (ch / ph) * ph == ch) by (apply Qdiv_mult_cancel; lra).
  assert (Hrw0 : 0 <= cw / pw).
  { apply Qle_shift_div_l; [ exact Hpw | lra ]. }
  assert (Hrh0 : 0 <= ch / ph).
  { apply Qle_shift_div_l; [ exact Hph | lra ]. }
  set (rw := cw / pw) in *. set (rh := ch / ph) in *.
  assert (Hx' : x * rw <= pw * rw) by (apply Qmult_le_compat_r; assumption).
  assert (Hy' : y * rh <= ph * rh) by (apply Qmult_le_compat_r; assumption).
  assert (Hyy' : y * rh <= y' * rh) by (apply Qmult_le_compat_r; assumption).
  assert (Hx0' : 0 <= x * rw) by (apply Qmult_le_0_compat; assumption).
  assert (Hy0' : 0 <= y * rh) by (apply Qmult_le_0_compat; assumption).
  repeat split; try lra.
Qed.

Lemma pdfToCanvas_onto_canvas_witness :
  let c := pdfToCanvas a4_converter 100 200 in
  (0 <= cx c <= 794) /\ (0 <= cy c <= 1123) /\
  cy (pdfToCanvas a4_converter 100 0) == 1123 /\
  cy (pdfToCanvas a4_converter 100 842) == 0 /\
  cy (pdfToCanvas a4_converter 100 300) <= cy c.
Proof.
  apply (pdfToCanvas_onto_canvas a4_converter 100 200 300);
    try reflexivity; try discriminate; split; discriminate.
Defined.

Lemma Math_round_near (q : Q) :
  q - (1 # 2) < Math_round q /\ Math_round q <= q + (1 # 2).
Proof.
  unfold Math_round.
  pose proof (Qfloor_le (q + (1 # 2))) as Hle.
  pose proof (Qlt_floor (q + (1 # 2))) as Hlt.
  rewrite inject_Z_plus in Hlt. change (inject_Z 1) with 1 in Hlt.
  split; lra.
Qed.

Lemma Math_round_integer (k : Z) : Math_round (inject_Z k) = inject_Z k.
Proof.
  unfold Math_round. f_equal.
  pose proof (Qfloor_le (inject_Z k + (1 # 2))) as Hle.
  pose proof (Qlt_floor (inject_Z k + (1 # 2))) as Hlt.
  set (f := Qfloor (inject_Z k + (1 # 2))) in *.
  rewrite inject_Z_plus in Hlt. change (inject_Z 1) with 1 in Hlt.
  assert (H1 : (f < k + 1)%Z).
  { rewrite Zlt_Qlt, inject_Z_plus. change (inject_Z 1) with 1. lra. }
  assert (H2 : (k < f + 1)%Z).
  { rewrite Zlt_Qlt, inject_Z_plus. change (inject_Z 1) with 1. lra. }
  lia.
Qed.

(** X3, over exact rationals: a statement about the formula, not about
    its rounding in binary64.  Snapping to a grid of positive cell size
    gives a grid point, moves each coordinate by at most half a cell, and
    leaves a snapped point where it is. *)
Theorem snapToGrid_nearest (this : t) (x y gridSize : Q) :
  0 < gridSize ->
  let p := snapToGrid this x y gridSize in
  (exists i j : Z, cx p = inject_Z i * gridSize /\ cy p = inject_Z j * gridSize) /\
  Qabs (cx p - x) <= gridSize / 2 /\
  Qabs (cy p - y) <= gridSize / 2 /\
  Coords_eq (snapToGrid this (cx p) (cy p) gridSize) p.
Proof.
  intros Hg. cbn zeta.
  assert (Hne : ~ gridSize == 0) by lra.
  assert (Hnear : forall v, Qabs (Math_round (v / gridSize) * gridSize - v) <= gridSize / 2).
  { intros v. destruct (Math_round_near (v / gridSize)) as [H1 H2].
    pose proof (Qdiv_mult_cancel v gridSize Hne) as Hv.
    set (r := Math_round (v / gridSize)) in *. set (d := v / gridSize) in *.
    assert (Hlo : (d - (1 # 2)) * gridSize <= r * gridSize)
      by (apply Qmult_le_compat_r; lra).
    assert (Hhi : r * gridSize <= (d + (1 # 2)) * gridSize)
      by (apply Qmult_le_compat_r; lra).
    apply Qabs_Qle_condition.
    assert (Hhalf : gridSize / 2 == (1 # 2) * gridSize) by (field).
    rewrite Hhalf. split; lra. }
  assert (Hfix : forall v, Math_round (Math_round (v / gridSize) * gridSize / gridSize)
                           * gridSize == Math_round (v / gridSize) * gridSize).
  { intros v. unfold Math_round at 2 3.
    set (k := Qfloor (v / gridSize + (1 # 2))).
    assert (E : inject_Z k * gridSize / gridSize == inject_Z k) by (field; exact Hne).
    unfold Math_round. rewrite E. fold (Math_round (inject_Z k)).
    rewrite Math_round_integer. reflexivity. }
  split; [ | split; [ apply Hnear | split; [ apply Hnear | split; cbn; apply Hfix ] ] ].
  unfold snapToGrid, Math_round; cbn. eexists _, _. split; reflexivity.
Qed.

Lemma snapToGrid_nearest_witness :
  let p := snapToGrid a4_converter 47 (-13) 10 in
  (exists i j : Z, cx p = inject_Z i * 10 /\ cy p = inject_Z j * 10) /\
  Qabs (cx p - 47) <= 10 / 2 /\
  Qabs (cy p - (-13)) <= 10 / 2 /\
  Coords_eq (snapToGrid a4_converter (cx p) (cy p) 10) p.
Proof. apply (snapToGrid_nearest a4_converter 47 (-13) 10). reflexivity. Defined.

(** A tie is snapped upwards, also below zero. *)
Example snapToGrid_ties :
  Coords_eq (snapToGrid a4_converter 15 (-15) 10) {| cx := 20; cy := -10 |}.
Proof. split; reflexivity. Qed.

(** X4, over exact rationals: a statement about the formulas, not about
    their rounding in binary64.  Points and pixels convert into each other
    without loss for a resolution that is not zero, and at 72 dpi a point
    is a pixel. *)
Theorem points_pixels_roundtrip (this : t) (v : Q) :
  ~ dpi this == 0 ->
  pixelsToPoints this (pointsToPixels this v) == v /\
  pointsToPixels this (pixelsToPoints this v) == v /\
  (dpi this == 72 -> pointsToPixels this v == v /\ pixelsToPoints this v == v).
Proof.
  intros Hd. unfold pixelsToPoints, pointsToPixels.
  split; [ field; exact Hd | ]. split; [ field; exact Hd | ].
  intros E. rewrite E. split; field.
Qed.

Lemma points_pixels_roundtrip_witness :
  let c := new (mkDimensions 595 842) (mkDimensions 794 1123) 1 300 in
  pixelsToPoints c (pointsToPixels c 12) == 12 /\
  pointsToPixels c (pixelsToPoints c 12) == 12 /\
  (dpi c == 72 -> pointsToPixels c 12 == 12 /\ pixelsToPoints c 12 == 12).
Proof.
  apply (points_pixels_roundtrip
           (new (mkDimensions 595 842) (mkDimensions 794 1123) 1 300) 12).
  discriminate.
Defined.

(** X5, over exact rationals: a statement about the formula, not about
    its rounding in binary64.  The scale computed by [calculateFitScale]
    makes a page of positive size fit into the container less the padding
    on every side, and it is the largest such scale: one of the two
    dimensions is filled. *)
Theorem calculateFitScale_fits (pdfDims containerDims : PDFDimensions) (padding : Q) :
  0 < width pdfDims ->
  0 < height pdfDims ->
  let s := calculateFitScale pdfDims containerDims padding in
  width pdfDims * s <= width containerDims - padding * 2 /\
  height pdfDims * s <= height containerDims - padding * 2 /\
  (width pdfDims * s == width containerDims - padding * 2 \/
   height pdfDims * s == height containerDims - padding * 2).
Proof.
  intros Hw Hh. cbn zeta. unfold calculateFitScale.
  set (aw := width containerDims - padding * 2).
  set (ah := height containerDims - padding * 2).
  pose proof (Qdiv_mult_cancel aw (width pdfDims)) as Ew.
  pose proof (Qdiv_mult_cancel ah (height pdfDims)) as Eh.
  assert (Ew' : aw / width pdfDims * width pdfDims == aw) by (apply Ew; lra).
  assert (Eh' : ah / height pdfDims * height pdfDims == ah) by (apply Eh; lra).
  set (sx := aw / width pdfDims) in *. set (sy := ah / height pdfDims) in *.
  pose proof (Q.le_min_l sx sy) as Hl. pose proof (Q.le_min_r sx sy) as Hr.
  assert (Hx : width pdfDims * Qmin sx sy <= width pdfDims * sx).
  { rewrite !(Qmult_comm (width pdfDims)). apply Qmult_le_compat_r; lra. }
  assert (Hy : height pdfDims * Qmin sx sy <= height pdfDims * sy).
  { rewrite !(Qmult_comm (height pdfDims)). apply Qmult_le_compat_r; lra. }
  split; [ lra | ]. split; [ lra | ].
  destruct (Q.min_dec sx sy) as [E | E]; rewrite E; [ left | right ]; lra.
Qed.

Lemma calculateFitScale_fits_witness :
  let s := calculateFitScale (mkDimensions 595 842) (mkDimensions 1280 800) default_padding in
  595 * s <= 1280 - default_padding * 2 /\
  842 * s <= 800 - default_padding * 2 /\
  (595 * s == 1280 - default_padding * 2 \/ 842 * s == 800 - default_padding * 2).
Proof.
  apply (calculateFitScale_fits (mkDimensions 595 842) (mkDimensions 1280 800) default_padding);
    reflexivity.
Defined.

End ConverterMoreFacts.

(** *** Label detection, line grouping and the analysis of a document *)

Section PDFAnalysisFacts.
Import PDFParser ParserSpec PDFAnalysis.
Local Open Scope string_scope.

Lemma starts_with_ci_piece (word text : string) :
  starts_with_ci word text = true <->
  exists piece after, text = piece ++ after /\ toLowerCase piece = word.
Proof.
  revert text. induction word as [| a word IH]; intros text.
  - split; [ intros _; exists "", text; split; reflexivity | intros _; destruct text; reflexivity ].
  - destruct text as [| b text]; cbn [starts_with_ci].
    + split; [ discriminate | ].
      intros (piece & after & E & Hl). destruct piece; [ discriminate Hl | discriminate E ].
    + rewrite andb_true_iff, IH. split.
      * intros [Hab (piece & after & -> & <-)]. apply Ascii.eqb_eq in Hab.
        exists (String b piece), after. split; [ reflexivity | ].
        cbn [toLowerCase]. rewrite Hab. reflexivity.
      * intros (piece & after & E & Hl).
        destruct piece as [| c piece]; [ discriminate Hl | ].
        cbn [toLowerCase] in Hl. injection Hl as Hc Hl. injection E as -> ->.
        split; [ apply Ascii.eqb_eq; symmetry; exact Hc | ].
        exists piece, after. split; [ reflexivity | exact Hl ].
Qed.

(** The test of a pattern finds a piece of the text wherever it is. *)
Lemma includes_ci_piece (word text : string) :
  includes_ci word text = true <-> has_piece word text.
Proof.
  unfold has_piece. induction text as [| b text IH]; cbn [includes_ci].
  - rewrite starts_with_ci_piece. split.
    + intros (piece & after & E & Hl). exists "", piece, after. split; assumption.
    + intros (before & piece & after & E & Hl).
      destruct before; [ | discriminate E ]. exists piece, after. split; assumption.
  - rewrite orb_true_iff, IH, starts_with_ci_piece. split.
    + intros [(piece & after & E & Hl) | (before & piece & after & E & Hl)].
      * exists "", piece, after. split; assumption.
      * exists (String b before), piece, after. split; [ rewrite E; reflexivity | exact Hl ].
    + intros (before & piece & after & E & Hl). destruct before as [| c before].
      * left. exists piece, after. split; assumption.
      * right. injection E as -> ->. exists before, piece, after. split; [ reflexivity | exact Hl ].
Qed.

Lemma isLabel_has_keyword (field : ExtractedFieldData) :
  isLabel field = true <-> has_keyword (ef_text field).
Proof.
  unfold isLabel, has_keyword. rewrite existsb_exists. split.
  - intros (pattern & Hin & H). exists pattern. split; [ exact Hin | ].
    apply includes_ci_piece. exact H.
  - intros (pattern & Hin & H). exists pattern. split; [ exact Hin | ].
    apply includes_ci_piece. exact H.
Qed.

Lemma detectFormFields_filter (data : list ExtractedFieldData) :
  detectFormFields data = List.filter isLabel data.
Proof.
  unfold detectFormFields.
  assert (H : forall acc,
             fold_left (fun formFields field =>
                          if isLabel field then (formFields ++ [field])%list else formFields)
                       data acc
             = (acc ++ List.filter isLabel data)%list).
  { induction data as [| field data IH]; intros acc; cbn [fold_left List.filter].
    - rewrite app_nil_r. reflexivity.
    - rewrite IH. destruct (isLabel field); [ rewrite <- app_assoc | ]; reflexivity. }
  apply (H []).
Qed.

(** X6. Label detection keeps, in their order, exactly the runs whose text
    contains one of the twelve keywords (name, address, phone, email,
    date, signature, amount, number, city, state, zip, country) in any
    letter case and at any place of the text; detecting twice changes
    nothing. *)
Theorem detectFormFields_keeps_labels (data : list ExtractedFieldData) :
  (forall field,
     In field (detectFormFields data) <-> In field data /\ has_keyword (ef_text field)) /\
  sublist (detectFormFields data) data /\
  detectFormFields (detectFormFields data) = detectFormFields data.
Proof.
  rewrite !detectFormFields_filter. split; [ | split ].
  - intros field. rewrite List.filter_In, isLabel_has_keyword. reflexivity.
  - induction data as [| field data IH]; cbn [List.filter]; [ constructor | ].
    destruct (isLabel field); [ apply sublist_skip | apply sublist_cons ]; exact IH.
  - induction data as [| field data IH]; cbn [List.filter]; [ reflexivity | ].
    destruct (isLabel field) eqn:E; cbn [List.filter]; rewrite ?E, IH; reflexivity.
Qed.

Lemma detectFormFields_keeps_labels_witness :
  In run_name (detectFormFields [run_total; run_name]).
Proof.
  apply (proj1 (detectFormFields_keeps_labels [run_total; run_name])). split.
  - right. left. reflexivity.
  - exists "name". split; [ left; reflexivity | ].
    exists "", "NAME", ":". split; reflexivity.
Defined.

(** A label is found only after its runs were merged, and a word of the
    keywords inside another word counts. *)
Example detectFormFields_examples :
  map ef_text (detectFormFields [run_full; run_total; run_name]) = ["NAME:"] /\
  map ef_text (detectFormFields
                 (groupNearbyText [run_full; run_total; run_name] default_maxDistance))
  = ["Full NAME:"] /\
  map ef_text (detectFormFields [mkExtracted "Estate tax" 0 0 1 1 "f" 1]) = ["Estate tax"].
Proof. split; [ | split ]; vm_compute; reflexivity. Qed.

Lemma Lines_length (d : Q) (data : list ExtractedFieldData)
    (gs : list (list ExtractedFieldData)) :
  Lines d data gs -> (length gs <= length data)%nat.
Proof.
  induction 1 as [| anchor rest gs HL IH]; cbn [length]; [ lia | ].
  pose proof (List.filter_length_le (fun r => negb (nearY d (ef_y anchor) r)) rest). lia.
Qed.

Lemma Lines_negative (d : Q) (data : list ExtractedFieldData)
    (gs : list (list ExtractedFieldData)) :
  d < 0 -> Lines d data gs -> gs = map (fun r => [r]) data.
Proof.
  intros Hd.
  assert (Hfar : forall cy r, nearY d cy r = false).
  { intros cy r. unfold nearY. destruct (Qle_bool _ d) eqn:E; [ | reflexivity ].
    apply Qle_bool_iff in E. pose proof (Qabs_nonneg (ef_y r - cy)). lra. }
  assert (Hnone : forall cy rest, List.filter (nearY d cy) rest = []).
  { intros cy rest. induction rest as [| r rest IH]; cbn [List.filter];
      [ | rewrite Hfar ]; auto. }
  assert (Hall : forall cy rest, List.filter (fun r => negb (nearY d cy r)) rest = rest).
  { intros cy rest. induction rest as [| r rest IH]; cbn [List.filter];
      [ | rewrite Hfar; cbn [negb]; rewrite IH ]; auto. }
  revert gs. induction data as [| r data IH]; intros gs H; inversion H; subst.
  - reflexivity.
  - rewrite Hnone. cbn [map]. f_equal. apply IH.
    rewrite Hall in *. assumption.
Qed.

Lemma merged_line_single (r m : ExtractedFieldData) :
  merged_line [r] m -> same_run r m.
Proof.
  intros (anchor & others & E & Htext & Hxle & Hxin & Hwle & Hwin & Hy & Hh & Hn & Hs).
  injection E as <- <-.
  destruct Hxin as (r1 & [<- | []] & Hx). destruct Hwin as (r2 & [<- | []] & Hw).
  unfold sum_y in Hy. cbn [fold_right length] in Hy.
  change (inject_Z (Z.of_nat 1)) with 1 in Hy.
  unfold same_run. repeat split; try assumption; lra.
Qed.

(** X7. Grouping never yields more lines than there are runs, yields none
    only for no runs, and with a negative tolerance merges nothing: every
    run comes back as a line of its own, with its text, position, height
    and font; its width is computed anew, as [(x + width) - x]. *)
Theorem groupNearbyText_counts (data : list ExtractedFieldData) (maxDistance : Q) :
  (length (groupNearbyText data maxDistance) <= length data)%nat /\
  match data with
  | [] => groupNearbyText data maxDistance = []
  | _ :: _ => (1 <= length (groupNearbyText data maxDistance))%nat
  end /\
  (maxDistance < 0 -> Forall2 same_run data (groupNearbyText data maxDistance)).
Proof.
  unfold groupNearbyText.
  destruct (groupFrom_spec data 0 maxDistance [] ∅) as (gs & ms & HL & E & HF).
  rewrite unprocessed_empty in HL. rewrite E. cbn [app].
  pose proof (Forall2_length _ _ _ HF) as Hlen.
  split; [ rewrite <- Hlen; apply (Lines_length _ _ _ HL) | ]. split.
  - destruct data; inversion HL; subst.
    + inversion HF. reflexivity.
    + rewrite <- Hlen. cbn [length]. lia.
  - intros Hd. rewrite (Lines_negative _ _ _ Hd HL) in HF.
    clear - HF. revert ms HF. induction data as [| r data IH]; intros ms HF;
      inversion HF; subst; constructor.
    + apply merged_line_single. assumption.
    + apply IH. assumption.
Qed.

Lemma groupNearbyText_counts_witness :
  Forall2 same_run [run_left; run_right] (groupNearbyText [run_left; run_right] (-1)).
Proof.
  apply (proj2 (proj2 (groupNearbyText_counts [run_left; run_right] (-1)))).
  reflexivity.
Defined.

(** X8. When the analysis of a document succeeds, its dimensions are the
    viewport of the first page, every suggested field contains a keyword,
    and there are no more suggestions than text items with a non-blank
    string on the page.  The analysis succeeds exactly when the file can
    be opened, the first page has a viewport, its text can be read and it
    can be rendered. *)
Theorem analyzePDFForFields_success (file : option Document) :
  (forall result,
     analyzePDFForFields file = inr result ->
     exists pdfDoc page image,
       file = Some pdfDoc /\
       first_viewport pdfDoc = Some (dimensions result) /\
       first_page pdfDoc = Some page /\
       rendered_page pdfDoc = Some image /\
       backgroundImage result = image /\
       Forall (fun field => has_keyword (ef_text field)) (suggestedFields result) /\
       (length (suggestedFields result) <= length (List.filter has_text (items page)))%nat) /\
  (forall pdfDoc dims page image,
     file = Some pdfDoc ->
     first_viewport pdfDoc = Some dims ->
     first_page pdfDoc = Some page ->
     rendered_page pdfDoc = Some image ->
     exists result, analyzePDFForFields file = inr result).
Proof.
  split; [ intros result | ];
    [ | intros pdfDoc dims page image -> Hdims Hpage Himage;
        unfold analyzePDFForFields; rewrite Hdims, Hpage, Himage;
        cbn [extractTextWithPositions]; eexists; reflexivity ].
  unfold analyzePDFForFields.
  destruct file as [pdfDoc |]; [ | discriminate ].
  destruct (first_viewport pdfDoc) as [dims |] eqn:Hdims; [ | discriminate ].
  destruct (first_page pdfDoc) as [page |] eqn:Hpage; cbn [extractTextWithPositions];
    [ | discriminate ].
  destruct (rendered_page pdfDoc) as [image |] eqn:Himage; [ | discriminate ].
  intros [= <-]. exists pdfDoc, page, image. cbn [dimensions backgroundImage suggestedFields].
  do 5 (split; [ reflexivity || assumption | ]). split.
  - apply List.Forall_forall. intros field Hin.
    rewrite detectFormFields_filter in Hin. apply List.filter_In in Hin as [_ Hl].
    apply isLabel_has_keyword. exact Hl.
  - rewrite detectFormFields_filter.
    destruct (fold_extractItem (height (viewport page)) (items page) []) as (runs & E & Hall).
    rewrite E. cbn [app].
    pose proof (Forall2_length _ _ _ Hall) as Hlen. rewrite Hlen.
    eapply Nat.le_trans; [ apply List.filter_length_le | ].
    destruct (groupFrom_spec runs 0 default_maxDistance [] ∅) as (gs & ms & HL & Eg & HF).
    unfold groupNearbyText. rewrite Eg. cbn [app].
    rewrite unprocessed_empty in HL.
    rewrite <- (Forall2_length _ _ _ HF). apply (Lines_length _ _ _ HL).
Qed.

Lemma analyzePDFForFields_success_witness :
  let suggested :=
    detectFormFields
      (groupNearbyText
         [mkExtracted "Full Name" 40 (792 - 700) 54 12 "g_d0_f1" (Qabs 12)]
         default_maxDistance) in
  exists pdfDoc page image,
    Some sample_document = Some pdfDoc /\
    first_viewport pdfDoc = Some (mkDimensions 612 792) /\
    first_page pdfDoc = Some page /\
    rendered_page pdfDoc = Some image /\
    "data:image/png;base64,AAAA" = image /\
    Forall (fun field => has_keyword (ef_text field)) suggested /\
    (length suggested <= length (List.filter has_text (items page)))%nat.
Proof.
  intros suggested.
  exact (proj1 (analyzePDFForFields_success (Some sample_document))
           (mkAnalysis (mkDimensions 612 792) suggested "data:image/png;base64,AAAA")
           eq_refl).
Defined.

End PDFAnalysisFacts.

(** *** The font matcher: registration, fallbacks, names *)

Section FontMatcherMoreFacts.
Import FontMatcher FontSpec.
Local Open Scope string_scope.

(** X9. A registration is honoured.  After [addCustomFont], every spelling
    of the font's name, letter case ignored, resolves to its family (the
    requested name itself if the family is empty), whatever was registered
    or built in under that name; other names resolve as before.  After
    [addFontMapping], the mapped name resolves to the given system font
    unless a custom font has that name. *)
Theorem registration_is_honoured (this : t) (font : Font) (requested : string) :
  (toLowerCase requested = toLowerCase (name font) ->
   matchFont (addCustomFont this font) requested = or_string (family font) requested) /\
  (toLowerCase requested <> toLowerCase (name font) ->
   matchFont (addCustomFont this font) requested = matchFont this requested) /\
  (forall pdfFontName systemFontName chain,
     toLowerCase requested = toLowerCase pdfFontName ->
     customFonts this !! toLowerCase requested = None ->
     matchFont (addFontMapping this pdfFontName systemFontName chain) requested
     = systemFontName).
Proof.
  split; [ | split ].
  - intros E. unfold matchFont, addCustomFont; cbn [customFonts fontMappings].
    rewrite E, lookup_insert_eq. reflexivity.
  - intros E. unfold matchFont, addCustomFont; cbn [customFonts fontMappings].
    rewrite lookup_insert_ne by congruence. reflexivity.
  - intros pdfFontName systemFontName chain E Hnone.
    unfold matchFont, addFontMapping; cbn [customFonts fontMappings].
    rewrite Hnone, E, lookup_insert_eq. reflexivity.
Qed.

Lemma registration_is_honoured_witness :
  matchFont (addCustomFont (new []) (mkFont "Helvetica" "Inter" "/fonts/inter.ttf" true))
            "HELVETICA" = "Inter" /\
  matchFont (addCustomFont (new []) (mkFont "Helvetica" "Inter" "/fonts/inter.ttf" true))
            "Courier" = matchFont (new []) "Courier" /\
  matchFont (addFontMapping (new []) "Garamond" "EB Garamond" ["serif"]) "garamond"
  = "EB Garamond".
Proof.
  split; [ | split ].
  - apply (proj1 (registration_is_honoured (new [])
                    (mkFont "Helvetica" "Inter" "/fonts/inter.ttf" true) "HELVETICA")).
    reflexivity.
  - apply (proj1 (proj2 (registration_is_honoured (new [])
                           (mkFont "Helvetica" "Inter" "/fonts/inter.ttf" true) "Courier"))).
    discriminate.
  - apply (proj2 (proj2 (registration_is_honoured (new [])
                           (mkFont "x" "y" "" true) "garamond"))
             "Garamond" "EB Garamond" ["serif"]); reflexivity.
Defined.

(** X10. For a matcher that holds the builtin table, the fallback chain of
    any name is not empty and ends with a generic family: [sans-serif],
    [serif] or [monospace]. *)
Theorem getFontFallbacks_ends_generic (fonts : list Font) (requested : string) :
  exists chain generic,
    getFontFallbacks (new fonts) requested = (chain ++ [generic])%list /\
    In generic generic_families.
Proof.
  unfold getFontFallbacks. rewrite fontMappings_lookup.
  destruct (builtin_entry requested) as [m |] eqn:Hm.
  - unfold builtin_entry in Hm. apply List.find_some in Hm as [Hin _].
    unfold FONT_MAPPINGS in Hin. cbn [In] in Hin.
    repeat (destruct Hin as [<- | Hin];
            [ cbn [fallbacks];
              first [ exists ["Helvetica"; "Arial"], "sans-serif"; split; [ reflexivity | cbn; tauto ]
                    | exists ["Times"; "Times New Roman"], "serif"; split; [ reflexivity | cbn; tauto ]
                    | exists ["Courier"; "Courier New"], "monospace"; split; [ reflexivity | cbn; tauto ]
                    | exists ["Symbol"], "serif"; split; [ reflexivity | cbn; tauto ]
                    | exists ["Zapf Dingbats"], "serif"; split; [ reflexivity | cbn; tauto ] ]
            | ]).
    contradiction.
  - destruct (isSansSerif requested); [ | destruct (isMonospace requested) ].
    + exists ["Arial"; "Helvetica"], "sans-serif". split; [ reflexivity | cbn; tauto ].
    + exists ["Courier New"; "Courier"], "monospace". split; [ reflexivity | cbn; tauto ].
    + exists ["Times New Roman"; "Times"], "serif". split; [ reflexivity | cbn; tauto ].
Qed.

Lemma unique_from_spec (seen l : list string) :
  NoDup (unique_from seen l) /\
  (forall a, In a (unique_from seen l) <-> In a l /\ ~ In a seen).
Proof.
  revert seen. induction l as [| a l IH]; intros seen; cbn [unique_from].
  - split; [ constructor | intros a; cbn; tauto ].
  - destruct (existsb (String.eqb a) seen) eqn:E.
    + apply existsb_exists in E as (b & Hb & Hab). apply String.eqb_eq in Hab; subst b.
      destruct (IH seen) as [Hnd Hin]. split; [ exact Hnd | ].
      intros c. rewrite Hin. cbn [In]. split; [ tauto | ].
      intros [[<- | Hc] Hns]; [ contradiction | tauto ].
    + assert (Ha : ~ In a seen).
      { intros Hin. apply not_true_iff_false in E. apply E. apply existsb_exists.
        exists a. split; [ exact Hin | apply String.eqb_refl ]. }
      destruct (IH (a :: seen)) as [Hnd Hin]. split.
      * constructor; [ | exact Hnd ].
        intros H. apply list_elem_of_In, Hin in H. cbn [In] in H. tauto.
      * intros c. cbn [In]. rewrite Hin. cbn [In].
        destruct (String.eqb_spec a c) as [<- | Hne]; [ tauto | ].
        split; [ intros [H | [H1 H2]]; [ contradiction | tauto ] | ].
        intros [[H | H] Hns]; [ contradiction | right; tauto ].
Qed.

(** X11. The font family string is the list of distinct fonts, each quoted
    if its name has a space, joined by commas; the list starts with the
    matched font, holds no font twice, and holds the matched font and
    every font of the fallback chain and no other. *)
Theorem getFontFamily_fonts (this : t) (requested : string) :
  let fonts := uniqueFonts this requested in
  getFontFamily this requested = String.concat ", " (map quote_font fonts) /\
  hd_error fonts = Some (matchFont this requested) /\
  NoDup fonts /\
  (forall font,
     In font fonts <->
     font = matchFont this requested \/ In font (getFontFallbacks this requested)).
Proof.
  cbn zeta. split; [ reflexivity | ]. unfold uniqueFonts.
  destruct (unique_from_spec [] (matchFont this requested :: getFontFallbacks this requested))
    as [Hnd Hin].
  split; [ reflexivity | ]. split; [ exact Hnd | ].
  intros font. rewrite Hin. cbn [In]. split; [ intros [[<- | H] _]; auto | ].
  intros [-> | H]; (split; [ auto | tauto ]).
Qed.

Lemma getFontFamily_fonts_witness :
  In "serif" (uniqueFonts (new []) "Times-Roman").
Proof.
  apply (proj2 (proj2 (proj2 (getFontFamily_fonts (new []) "Times-Roman")))).
  right. vm_compute. tauto.
Defined.

(** The family strings of three builtin names. *)
Example getFontFamily_examples :
  map (getFontFamily (new [])) ["Helvetica"; "Times-Roman"; "Garamond"]
  = [ "Arial, Helvetica, sans-serif";
      String (ascii_of_nat 34) "Times New Roman" ++ String (ascii_of_nat 34) ", Times, serif";
      "Garamond, " ++ String (ascii_of_nat 34) "Times New Roman"
        ++ String (ascii_of_nat 34) ", Times, serif" ].
Proof. vm_compute. reflexivity. Qed.

End FontMatcherMoreFacts.


(** *** [normalizeFontName] *)

Section NormalizeFacts.

Lemma trimEnd_first (c : ascii) (s : string) :
  is_whitespace c = false -> trimEnd (String c s) = String c (trimEnd s).
Proof. intros H. cbn [trimEnd]. rewrite H. reflexivity. Qed.

Lemma trimEnd_idempotent (s : string) : trimEnd (trimEnd s) = trimEnd s.
Proof.
  induction s as [| c s IH]; [ reflexivity | ].
  cbn [trimEnd]. destruct (is_whitespace c) eqn:Hc; cbn [andb].
  - destruct (trimEnd s) as [| d r] eqn:Hr; cbn [is_empty_string]; [ reflexivity | ].
    change (trimEnd (String c (String d r)))
      with (if is_whitespace c && is_empty_string (trimEnd (String d r))
            then EmptyString else String c (trimEnd (String d r))).
    rewrite IH. cbn [is_empty_string]. rewrite andb_false_r. reflexivity.
  - cbn [trimEnd]. rewrite Hc, IH. reflexivity.
Qed.

Lemma trimStart_head (s : string) :
  match trimStart s with
  | EmptyString => True
  | String c _ => is_whitespace c = false
  end.
Proof.
  induction s as [| c s IH]; cbn [trimStart]; [ exact I | ].
  destruct (is_whitespace c) eqn:Hc; [ exact IH | exact Hc ].
Qed.

Lemma trim_head (s : string) :
  match trim s with
  | EmptyString => True
  | String c _ => is_whitespace c = false
  end.
Proof.
  unfold trim. pose proof (trimStart_head s) as H.
  destruct (trimStart s) as [| c r]; [ exact I | ].
  rewrite (trimEnd_first _ _ H). exact H.
Qed.

Lemma collapse_tidy (s : string) :
  trimEnd s = s ->
  tidy_from false (collapse_whitespace false s) = true /\
  (s <> EmptyString -> tidy_from true (collapse_whitespace true s) = true).
Proof.
  induction s as [| c s IH]; intros Hs.
  - split; [ reflexivity | congruence ].
  - cbn [trimEnd] in Hs. cbn [collapse_whitespace].
    destruct (is_whitespace c) eqn:Hc; cbn [andb] in Hs.
    + destruct (trimEnd s) as [| d r] eqn:Hr; cbn [is_empty_string] in Hs;
        [ discriminate Hs | ].
      injection Hs as Hs. destruct (IH Hs) as [_ IHt].
      assert (Hne : s <> EmptyString) by (rewrite <- Hs; discriminate).
      split; [ | intros _; exact (IHt Hne) ].
      cbn [tidy_from]. change (is_whitespace space) with true.
      cbn [andb negb]. rewrite (IHt Hne).
      destruct (Ascii.eqb_spec space space); [ reflexivity | congruence ].
    + injection Hs as Hs. destruct (IH Hs) as [IHf _].
      cbn [tidy_from]. rewrite Hc. split; [ exact IHf | intros _; exact IHf ].
Qed.

Lemma tidy_from_fixed (s : string) :
  forall b, tidy_from b s = true ->
  collapse_whitespace false s = s /\ trimEnd s = s /\
  (b = true -> exists c r, s = String c r /\ is_whitespace c = false).
Proof.
  induction s as [| c s IH]; intros b H.
  - destruct b; [ discriminate H | ]. repeat split. discriminate.
  - cbn [tidy_from] in H. cbn [collapse_whitespace trimEnd].
    destruct (is_whitespace c) eqn:Hc.
    + apply andb_true_iff in H as [H Ht]. apply andb_true_iff in H as [Hsp Hb].
      apply Ascii.eqb_eq in Hsp. subst c. destruct b; [ discriminate Hb | ].
      destruct (IH true Ht) as (Hcol & Htrim & Hhead).
      destruct (Hhead eq_refl) as (d & r & -> & Hd).
      rewrite Htrim. cbn [andb is_empty_string].
      split; [ | split; [ reflexivity | discriminate ] ].
      cbn [collapse_whitespace] in Hcol |- *. rewrite Hd in Hcol |- *.
      rewrite Hcol. reflexivity.
    + destruct (IH false H) as (Hcol & Htrim & _).
      rewrite Hcol, Htrim. cbn [andb].
      split; [ reflexivity | split; [ reflexivity | ] ].
      intros _. exists c, s. split; [ reflexivity | exact Hc ].
Qed.

Lemma tidy_fixed (s : string) : tidy s = true -> normalizeFontName s = s.
Proof.
  unfold tidy, normalizeFontName, trim. destruct s as [| c s]; [ reflexivity | ].
  intros H. apply andb_true_iff in H as [Hc Ht]. apply negb_true_iff in Hc.
  destruct (tidy_from_fixed _ _ Ht) as (Hcol & Htrim & _).
  cbn [trimStart]. rewrite Hc, Htrim. exact Hcol.
Qed.

Lemma normalize_is_tidy (s : string) : tidy (normalizeFontName s) = true.
Proof.
  unfold normalizeFontName.
  assert (Hfix : trimEnd (trim s) = trim s) by apply trimEnd_idempotent.
  pose proof (trim_head s) as Hh. pose proof (collapse_tidy _ Hfix) as [Ht _].
  destruct (trim s) as [| c r]; [ reflexivity | ].
  cbn [collapse_whitespace] in Ht |- *. rewrite Hh in Ht |- *.
  unfold tidy. rewrite Hh. exact Ht.
Qed.

(** X12. [normalizeFontName] gives a tidy name: no white space at either
    end and no white space inside other than single spaces.  A tidy name is
    left as it is, so normalising twice is the same as normalising once. *)
Theorem normalizeFontName_tidy (fontName : string) :
  tidy (normalizeFontName fontName) = true /\
  (tidy fontName = true -> normalizeFontName fontName = fontName) /\
  normalizeFontName (normalizeFontName fontName) = normalizeFontName fontName.
Proof.
  split; [ apply normalize_is_tidy | ].
  split; [ apply tidy_fixed | apply tidy_fixed, normalize_is_tidy ].
Qed.

Lemma normalizeFontName_tidy_witness :
  normalizeFontName "Times New Roman" = "Times New Roman"%string.
Proof.
  apply (proj1 (proj2 (normalizeFontName_tidy "Times New Roman"))). reflexivity.
Defined.

(** White space of several kinds collapses. *)
Example normalizeFontName_example :
  normalizeFontName (String (ascii_of_nat 9) "  Times   New" ++ String (ascii_of_nat 10) " Roman  ")
  = "Times New Roman"%string.
Proof. vm_compute. reflexivity. Qed.

End NormalizeFacts.


(** *** Whole runs of [generatePDF] *)

Section RenderMoreFacts.
Import PDFGeneration RenderSpec ExportSpec.

Variables Doc Blob : Type.
Variable B : Backend Doc Blob.

Lemma only_ret {A : Type} (P : Event -> Prop) (a : A) : only P (ret (Doc := Doc) a).
Proof. intros s. exists []. rewrite app_nil_r. split; [ reflexivity | constructor ]. Qed.

Lemma only_emit (P : Event -> Prop) (e : Event) : P e -> only P (emit (Doc := Doc) e).
Proof. intros H s. exists [e]. split; [ reflexivity | repeat constructor; exact H ]. Qed.

Lemma only_call (P : Event -> Prop) (c : Call) : P (Called c) -> only P (call B c).
Proof.
  intros H s. exists [Called c]. unfold call.
  split; [ destruct (jsPDF_call B (doc s) c); reflexivity | repeat constructor; exact H ].
Qed.

Lemma only_bind {A C : Type} (P : Event -> Prop) (m : M Doc A) (k : A -> M Doc C) :
  only P m -> (forall a, only P (k a)) -> only P (bind m k).
Proof.
  intros Hm Hk s. unfold bind. destruct (Hm s) as (e1 & H1 & P1).
  destruct (m s) as [s1 [err | a]]; cbn [fst] in H1.
  - exists e1. split; [ exact H1 | exact P1 ].
  - destruct (Hk a s1) as (e2 & H2 & P2). exists (e1 ++ e2)%list.
    rewrite H2, H1, app_assoc. split; [ reflexivity | apply Forall_app; split; assumption ].
Qed.

Lemma only_try_catch (P : Event -> Prop) (m h : M Doc unit) :
  only P m -> only P h -> only P (try_catch m h).
Proof.
  intros Hm Hh s. unfold try_catch. destruct (Hm s) as (e1 & H1 & P1).
  destruct (m s) as [s1 [err | a]]; cbn [fst] in H1.
  - destruct (Hh s1) as (e2 & H2 & P2). exists (e1 ++ e2)%list.
    rewrite H2, H1, app_assoc. split; [ reflexivity | apply Forall_app; split; assumption ].
  - exists e1. split; [ exact H1 | exact P1 ].
Qed.

Lemma only_forEach {A : Type} (P : Event -> Prop) (f : A -> nat -> M Doc unit) (l : list A) :
  (forall a i, only P (f a i)) -> forall i, only P (forEach f l i).
Proof.
  intros Hf. induction l as [| a l IH]; intros i; cbn [forEach].
  - apply only_ret.
  - apply only_bind; [ apply Hf | intros _; apply IH ].
Qed.

Lemma only_renderField (P : Event -> Prop) (converter : CoordinateConverter.t) (pdfWidth : Q)
    (formData : gmap string Value) (n : nat) (field : Field) (index : nat) :
  (forall p, P (setProgress p)) ->
  (forall c, is_addImage c = false -> P (Called c)) ->
  only P (renderField B converter pdfWidth formData n field index).
Proof.
  intros Hp Hc. unfold renderField.
  destruct (unfilled _); [ apply only_ret | ].
  repeat (apply only_bind; [ apply only_call, Hc; reflexivity | intros _ ]).
  apply only_bind; [ | intros _; apply only_emit, Hp ].
  destruct (is_checkbox _).
  - destruct (isChecked _); [ | apply only_ret ].
    apply only_bind; [ | intros _ ]; apply only_call, Hc; reflexivity.
  - destruct (maxWidth field) as [w |]; [ | apply only_call, Hc; reflexivity ].
    destruct (multiline field) as [[|] |]; try (apply only_call, Hc; reflexivity).
    destruct (truthy_number _); [ | apply only_call, Hc; reflexivity ].
    apply only_forEach. intros line i. apply only_call, Hc. reflexivity.
Qed.

Lemma only_tryBlock (P : Event -> Prop) (template : Template) (formData : gmap string Value)
    (options : ExportOptions) (pdfWidth pdfHeight : Q) :
  (forall p, P (setProgress p)) -> P console_warn -> (forall c, P (Called c)) ->
  only P (tryBlock B template formData options pdfWidth pdfHeight).
Proof.
  intros Hp Hw Hc. unfold tryBlock.
  apply only_bind; [ apply only_emit, Hp | intros _ ].
  apply only_bind.
  { destruct (_ && _); [ | apply only_ret ].
    apply only_try_catch; [ apply only_call, Hc | apply only_emit, Hw ]. }
  intros _. apply only_bind; [ apply only_emit, Hp | intros _ ].
  apply only_bind.
  { apply only_forEach. intros field i. apply only_renderField; [ exact Hp | intros c _; apply Hc ]. }
  intros _. apply only_bind; [ apply only_emit, Hp | intros _ ].
  apply only_bind.
  { intros s. exists []. rewrite app_nil_r. split; [ reflexivity | constructor ]. }
  intros blob. apply only_bind; [ apply only_emit, Hp | intros _; apply only_ret ].
Qed.

(** The shape of the events of a call. *)
Lemma generatePDF_shape (template : Template) (formData : gmap string Value)
    (options : ExportOptions) :
  let run := generatePDF B template formData options in
  exists middle,
    run.1 = ([setIsGenerating true; setProgress 0; setError None] ++ middle
               ++ [setIsGenerating false])%list /\
    match run.2 with
    | Some _ => Forall inner middle
    | None =>
        exists before message,
          middle = (before ++ [setError (Some ("Failed to generate PDF: " ++ message)%string);
                               console_error])%list /\
          Forall inner before
    end.
Proof.
  cbn zeta. unfold generatePDF.
  destruct (jsPDF_new B _ _ _) as [err | pdf0].
  - cbn [settle fst snd].
    exists [setError (Some ("Failed to generate PDF: " ++ errorMessage err)%string); console_error].
    split; [ reflexivity | ]. exists [], (errorMessage err). split; [ reflexivity | constructor ].
  - match goal with
    | |- context [tryBlock B ?t ?f ?o ?w ?h ?s] =>
        destruct (only_tryBlock inner t f o w h (fun _ => I) I (fun _ => I) s)
          as (evs & Hlog & Hall);
        destruct (tryBlock B t f o w h s) as [s' [err | blob]]
    end; cbn [fst log] in Hlog; cbn [settle fst snd]; rewrite Hlog.
    + exists (evs ++ [setError (Some ("Failed to generate PDF: " ++ errorMessage err)%string);
                      console_error])%list.
      split; [ cbn [app]; rewrite <- ?app_assoc; reflexivity | ].
      exists evs, (errorMessage err). split; [ reflexivity | exact Hall ].
    + exists evs. split; [ cbn [app]; rewrite <- ?app_assoc; reflexivity | exact Hall ].
Qed.

Lemma error_after_inner (e0 : option string) (events : list Event) :
  Forall inner events -> error_after e0 events = e0.
Proof.
  induction 1 as [| e events He _ IH]; [ reflexivity | ].
  destruct e; cbn [error_after]; try exact IH; destruct He.
Qed.

Lemma error_after_app (e0 : option string) (a b : list Event) :
  error_after e0 (a ++ b) = error_after (error_after e0 a) b.
Proof.
  revert e0. induction a as [| e a IH]; intros e0; [ reflexivity | ].
  destruct e; cbn [app error_after]; apply IH.
Qed.

Lemma generating_after_app (g0 : bool) (a b : list Event) :
  generating_after g0 (a ++ b) = generating_after (generating_after g0 a) b.
Proof.
  revert g0. induction a as [| e a IH]; intros g0; [ reflexivity | ].
  destruct e; cbn [app generating_after]; apply IH.
Qed.

Lemma generatePDF_error_after (template : Template) (formData : gmap string Value)
    (options : ExportOptions) (e0 : option string) :
  let run := generatePDF B template formData options in
  match run.2 with
  | Some _ => error_after e0 run.1 = None
  | None =>
      exists message,
        error_after e0 run.1 = Some ("Failed to generate PDF: " ++ message)%string
  end.
Proof.
  cbn zeta. destruct (generatePDF_shape template formData options) as (middle & E & H).
  cbn zeta in E, H. rewrite E.
  destruct (generatePDF B template formData options).2.
  - cbn [app error_after]. rewrite error_after_app, (error_after_inner _ _ H). reflexivity.
  - destruct H as (before & message & -> & Hb). exists message.
    cbn [app error_after]. rewrite !error_after_app, (error_after_inner _ _ Hb). reflexivity.
Qed.

(** X13. Every call of [generatePDF] is bracketed: it first sets
    [isGenerating], resets the progress and clears the error, and its last
    event resets [isGenerating], so that [isGenerating] is false after the
    call.  Whatever the error was before the call, after it the error is
    [null] exactly when the blob is returned; when [null] is returned the
    error is a message that starts with [Failed to generate PDF: ]. *)
Theorem generatePDF_brackets (template : Template) (formData : gmap string Value)
    (options : ExportOptions) (e0 : option string) (g0 : bool) :
  let run := generatePDF B template formData options in
  (exists middle,
     run.1 = ([setIsGenerating true; setProgress 0; setError None] ++ middle
                ++ [setIsGenerating false])%list) /\
  generating_after g0 run.1 = false /\
  match run.2 with
  | Some _ => error_after e0 run.1 = None
  | None =>
      exists message,
        error_after e0 run.1 = Some ("Failed to generate PDF: " ++ message)%string
  end.
Proof.
  cbn zeta. destruct (generatePDF_shape template formData options) as (middle & E & _).
  cbn zeta in E.
  split; [ exists middle; exact E | ].
  split; [ rewrite E, app_assoc, generating_after_app; reflexivity | ].
  apply generatePDF_error_after.
Qed.

Lemma forEach_ext {A : Type} (f g : A -> nat -> M Doc unit) (l : list A) :
  (forall a, In a l -> forall i, f a i = g a i) ->
  forall i, forEach f l i = forEach g l i.
Proof.
  induction l as [| a l IH]; intros H i; cbn [forEach]; [ reflexivity | ].
  rewrite (H a (or_introl eq_refl) i), (IH (fun b Hb => H b (or_intror Hb))). reflexivity.
Qed.

(** X14. Only the values bound to the ids of the template's fields are
    read: two bindings that agree on these ids give the same events and the
    same result. *)
Theorem generatePDF_reads_bound_fields (template : Template)
    (formData formData' : gmap string Value) (options : ExportOptions) :
  (forall field, In field (fields template) -> formData !! id field = formData' !! id field) ->
  generatePDF B template formData options = generatePDF B template formData' options.
Proof.
  intros H. unfold generatePDF, tryBlock.
  rewrite (forEach_ext
             (renderField B (CoordinateConverter.new (pdfDimensions template)
                               (pdfDimensions template) 1 72)
                (width (pdfDimensions template) * px_to_mm) formData
                (length (fields template)))
             (renderField B (CoordinateConverter.new (pdfDimensions template)
                               (pdfDimensions template) 1 72)
                (width (pdfDimensions template) * px_to_mm) formData'
                (length (fields template)))); [ reflexivity | ].
  intros field Hin i. unfold renderField. rewrite (H field Hin). reflexivity.
Qed.

Lemma calls_app (a b : list Event) : calls (a ++ b) = (calls a ++ calls b)%list.
Proof.
  induction a as [| e a IH]; cbn [app calls]; [ reflexivity | ].
  destruct e; cbn [app]; rewrite ?IH; reflexivity.
Qed.

Lemma drawn_texts_app (a b : list Call) :
  drawn_texts (a ++ b) = (drawn_texts a ++ drawn_texts b)%list.
Proof.
  induction a as [| c a IH]; cbn [app drawn_texts]; [ reflexivity | ].
  destruct c; cbn [app]; rewrite ?IH; reflexivity.
Qed.

Lemma no_image_calls (evs : list Event) :
  Forall no_image evs -> Forall (fun c => is_addImage c = false) (calls evs).
Proof.
  induction 1 as [| e evs He _ IH]; cbn [calls]; [ constructor | ].
  destruct e; try exact IH. constructor; [ exact He | exact IH ].
Qed.

Lemma bind_emit {C : Type} (e : Event) (k : unit -> M Doc C) (s : State Doc) :
  bind (emit e) k s = k tt {| doc := doc s; log := log s ++ [e] |}.
Proof. reflexivity. Qed.

(** X15. The background image is added at most once, before anything
    else is called on the document, over the whole page; it is added
    exactly when [includeBackground] is not switched off and the template
    has a background image. *)
Theorem background_is_added_first (template : Template) (formData : gmap string Value)
    (options : ExportOptions) (pdf0 : Doc) :
  let pdfWidth := width (pdfDimensions template) * px_to_mm in
  let pdfHeight := height (pdfDimensions template) * px_to_mm in
  let orientation :=
    if Qgt_bool pdfWidth pdfHeight then "landscape"%string else "portrait"%string in
  jsPDF_new B orientation pdfWidth pdfHeight = inr pdf0 ->
  let cs := calls (generatePDF B template formData options).1 in
  if or_default (includeBackground options) true && truthy_string (backgroundImage template)
  then exists rest,
         cs = addImage (backgroundImage template) 0 0 pdfWidth pdfHeight :: rest /\
         Forall (fun c => is_addImage c = false) rest
  else Forall (fun c => is_addImage c = false) cs.
Proof.
  intros pdfWidth pdfHeight orientation Hnew. cbn zeta.
  unfold generatePDF. fold pdfWidth pdfHeight orientation. rewrite Hnew.
  unfold tryBlock.
  set (tail := bind (emit (setProgress 40)) _).
  assert (Htail : only no_image tail).
  { subst tail. apply only_bind; [ apply only_emit; exact I | intros _ ].
    apply only_bind.
    { apply only_forEach. intros field i.
      apply only_renderField; [ intros p; exact I | intros c Hc; exact Hc ]. }
    intros _. apply only_bind; [ apply only_emit; exact I | intros _ ].
    apply only_bind.
    { intros s. exists []. rewrite app_nil_r. split; [ reflexivity | constructor ]. }
    intros blob. apply only_bind; [ apply only_emit; exact I | intros _; apply only_ret ]. }
  rewrite bind_emit. cbn [doc log].
  assert (Hfinish : forall s pre,
             log s = pre ->
             calls (let '(s', outcome) := tail s in settle (log s') outcome).1
             = (calls pre ++ calls (drop (length pre) (log (tail s).1)))%list /\
             Forall (fun c => is_addImage c = false)
                    (calls (drop (length pre) (log (tail s).1)))).
  { intros s pre Hpre. destruct (Htail s) as (evs & Hlog & Hall).
    destruct (tail s) as [s' outcome]. cbn [fst] in Hlog |- *. rewrite Hlog, Hpre.
    rewrite drop_app_length.
    split; [ | apply no_image_calls, Hall ].
    destruct outcome; cbn [settle fst]; rewrite !calls_app; cbn [calls];
      rewrite app_nil_r; reflexivity. }
  destruct (_ && _).
  - unfold bind at 1, try_catch, call, emit. cbn [doc log].
    destruct (jsPDF_call B pdf0 _) as [err | d]; cbn [doc log];
      match goal with
      | |- context [tail ?s] => destruct (Hfinish s _ eq_refl) as [Hcalls Hrest]
      end; rewrite Hcalls; eexists; (split; [ reflexivity | exact Hrest ]).
  - unfold bind at 1, ret.
    match goal with
    | |- context [tail ?s] => destruct (Hfinish s _ eq_refl) as [Hcalls Hrest]
    end. rewrite Hcalls. exact Hrest.
Qed.

Lemma draws_ret {A : Type} (a : A) : draws_texts [] (ret (Doc := Doc) a).
Proof. intros s. exists s, a, []. rewrite app_nil_r. repeat split. Qed.

Lemma draws_emit (e : Event) :
  (forall c, e <> Called c) -> draws_texts [] (emit (Doc := Doc) e).
Proof.
  intros H s. eexists _, tt, [e]. split; [ reflexivity | ].
  split; [ reflexivity | ]. destruct e; try reflexivity. destruct (H c eq_refl).
Qed.

Lemma draws_call (c : Call) :
  accepts_drawing B -> is_addImage c = false ->
  draws_texts (drawn_texts [c]) (call B c).
Proof.
  intros Hacc Hc s. destruct (Hacc (doc s) c Hc) as [d Hd].
  eexists _, tt, [Called c]. unfold call. rewrite Hd. cbn [doc log].
  split; [ reflexivity | ]. split; reflexivity.
Qed.

Lemma draws_bind {A C : Type} (t1 t2 : list string) (m : M Doc A) (k : A -> M Doc C) :
  draws_texts t1 m -> (forall a, draws_texts t2 (k a)) ->
  draws_texts (t1 ++ t2) (bind m k).
Proof.
  intros Hm Hk s. destruct (Hm s) as (s1 & a & e1 & E1 & L1 & T1).
  destruct (Hk a s1) as (s2 & c & e2 & E2 & L2 & T2).
  exists s2, c, (e1 ++ e2)%list. unfold bind. rewrite E1, E2.
  split; [ reflexivity | ].
  split; [ rewrite L2, L1, app_assoc; reflexivity | ].
  rewrite calls_app, drawn_texts_app, T1, T2. reflexivity.
Qed.

Lemma draws_lines (f : string -> nat -> Call) (lines : list string) :
  accepts_drawing B ->
  (forall line i, exists px py options, f line i = drawText line px py options) ->
  forall i, draws_texts lines (forEach (fun line i => call B (f line i)) lines i).
Proof.
  intros Hacc Hf. induction lines as [| line lines IH]; intros i; cbn [forEach].
  - apply draws_ret.
  - change (line :: lines) with ([line] ++ lines)%list at 1.
    apply draws_bind; [ | intros _; apply IH ].
    destruct (Hf line i) as (px & py & options & E).
    rewrite E. exact (draws_call (drawText line px py options) Hacc eq_refl).
Qed.

Ltac call_drawn Hacc :=
  match goal with
  | |- draws_texts _ (call _ ?c) => exact (draws_call c Hacc eq_refl)
  end.

Lemma draws_renderField (converter : CoordinateConverter.t) (pdfWidth : Q)
    (formData : gmap string Value) (n : nat) (field : Field) (index : nat) :
  accepts_drawing B ->
  draws_texts (field_texts B formData field)
              (renderField B converter pdfWidth formData n field index).
Proof.
  intros Hacc. unfold renderField, field_texts. cbn zeta.
  destruct (unfilled _); [ apply draws_ret | ].
  match goal with
  | |- draws_texts ?t _ =>
      replace t with ([] ++ [] ++ [] ++ t ++ [])%list by (cbn [app]; apply app_nil_r)
  end.
  do 3 (apply draws_bind; [ call_drawn Hacc | intros _ ]).
  apply draws_bind; [ | intros _; apply draws_emit; discriminate ].
  destruct (is_checkbox _).
  - destruct (isChecked _); [ | apply draws_ret ].
    change [checkMark] with ([] ++ [checkMark])%list.
    apply draws_bind; [ | intros _ ]; call_drawn Hacc.
  - destruct (maxWidth field) as [w |]; [ | call_drawn Hacc ].
    destruct (multiline field) as [[|] |]; try (call_drawn Hacc).
    destruct (truthy_number _); [ | call_drawn Hacc ].
    apply (draws_lines (fun line i => drawText line _ _ _)); [ exact Hacc | ].
    intros line i. eexists _, _, _. reflexivity.
Qed.

Lemma draws_fields (converter : CoordinateConverter.t) (pdfWidth : Q)
    (formData : gmap string Value) (n : nat) (l : list Field) :
  accepts_drawing B ->
  forall i, draws_texts (flat_map (field_texts B formData) l)
                        (forEach (renderField B converter pdfWidth formData n) l i).
Proof.
  intros Hacc. induction l as [| field l IH]; intros i; cbn [forEach flat_map].
  - apply draws_ret.
  - apply draws_bind; [ apply draws_renderField, Hacc | intros _; apply IH ].
Qed.

(** A run on a document that accepts the drawing calls. *)
Lemma run_draws_fields (template : Template)
    (formData : gmap string Value) (options : ExportOptions) :
  (forall orientation w h, exists pdf0, jsPDF_new B orientation w h = inr pdf0) ->
  accepts_drawing B ->
  (forall d f q, exists blob, toBlob B d f q = inr blob) ->
  let run := generatePDF B template formData options in
  (exists blob, run.2 = Some blob) /\
  drawn_texts (calls run.1) = flat_map (field_texts B formData) (fields template).
Proof.
  intros Hnew Hacc Hblob. cbn zeta. unfold generatePDF.
  destruct (Hnew (if Qgt_bool (width (pdfDimensions template) * px_to_mm)
                        (height (pdfDimensions template) * px_to_mm)
                  then "landscape"%string else "portrait"%string)
                 (width (pdfDimensions template) * px_to_mm)
                 (height (pdfDimensions template) * px_to_mm)) as [pdf0 ->].
  assert (Htry : draws_texts (flat_map (field_texts B formData) (fields template))
                   (tryBlock B template formData options
                      (width (pdfDimensions template) * px_to_mm)
                      (height (pdfDimensions template) * px_to_mm))).
  { unfold tryBlock.
    match goal with
    | |- draws_texts ?t _ =>
        replace t with ([] ++ [] ++ [] ++ t ++ [] ++ [] ++ [])%list
          by (cbn [app]; apply app_nil_r)
    end.
    apply draws_bind; [ apply draws_emit; discriminate | intros _ ].
    apply draws_bind.
    { destruct (_ && _); [ | apply draws_ret ].
      intros s. unfold try_catch, call, emit. cbn [doc log].
      destruct (jsPDF_call B (doc s) _).
      - eexists _, tt, [Called _; console_warn].
        split; [ reflexivity | ].
        split; [ cbn [log]; rewrite <- app_assoc; reflexivity | reflexivity ].
      - eexists _, tt, [Called _]. split; [ reflexivity | split; reflexivity ]. }
    intros _. apply draws_bind; [ apply draws_emit; discriminate | intros _ ].
    apply draws_bind; [ apply draws_fields, Hacc | intros _ ].
    apply draws_bind; [ apply draws_emit; discriminate | intros _ ].
    apply draws_bind.
    { intros s. destruct (Hblob (doc s) (or_default (format options) fmt_pdf)
                            (or_default (quality options) 95)) as [blob E].
      exists s, blob, []. rewrite E, app_nil_r. repeat split. }
    intros blob. change [] with ([] ++ @nil string)%list.
    apply draws_bind; [ apply draws_emit; discriminate | intros _; apply draws_ret ]. }
  match goal with
  | |- context [tryBlock B ?t ?f ?o ?w ?h ?s] =>
      destruct (Htry s) as (s' & blob & evs & E & Hlog & Htexts)
  end.
  rewrite E. cbn [settle fst snd]. split; [ exists blob; reflexivity | ].
  rewrite Hlog. cbn [log]. rewrite !calls_app, !drawn_texts_app. cbn [calls drawn_texts].
  rewrite app_nil_r. exact Htexts.
Qed.

(** X16. On a document that accepts the drawing calls, and when the blob
    can be produced, [generatePDF] returns the blob and not [null], whether
    or not the background image could be added, and the strings it draws
    are those of the template's fields, in the order of the template. *)
Theorem generatePDF_draws_fields_in_order (template : Template)
    (formData : gmap string Value) (options : ExportOptions) :
  (forall orientation w h, exists pdf0, jsPDF_new B orientation w h = inr pdf0) ->
  accepts_drawing B ->
  (forall d f q, exists blob, toBlob B d f q = inr blob) ->
  let run := generatePDF B template formData options in
  (exists blob, run.2 = Some blob) /\
  drawn_texts (calls run.1) = flat_map (field_texts B formData) (fields template).
Proof. exact (run_draws_fields template formData options). Qed.

Lemma draws_app (a b : list Event) : draws (a ++ b) = (draws a ++ draws b)%list.
Proof. unfold draws. rewrite calls_app. apply List.filter_app. Qed.

Lemma call_runs (c : Call) (s : State Doc) :
  accepts_drawing B -> is_addImage c = false ->
  exists d, call B c s = ({| doc := d; log := log s ++ [Called c] |}, inr tt).
Proof.
  intros Hacc Hc. destruct (Hacc (doc s) c Hc) as [d Hd].
  exists d. unfold call. rewrite Hd. reflexivity.
Qed.

Lemma lines_run (px py lineHeight : Q) (options : option (string * Q)) (lines : list string) :
  accepts_drawing B ->
  forall i s, exists s',
    forEach (fun line i => call B (drawText line px (py + of_nat i * lineHeight) options))
            lines i s = (s', inr tt) /\
    log s' = (log s ++ imap (fun k line =>
                               Called (drawText line px (py + of_nat (i + k) * lineHeight)
                                         options)) lines)%list.
Proof.
  intros Hacc. induction lines as [| line lines IH]; intros i s; cbn [forEach].
  - exists s. rewrite app_nil_r. split; reflexivity.
  - unfold bind at 1.
    destruct (call_runs (drawText line px (py + of_nat i * lineHeight) options) s Hacc eq_refl)
      as [d ->].
    destruct (IH (S i) {| doc := d;
                          log := log s ++ [Called (drawText line px
                                                     (py + of_nat i * lineHeight) options)] |})
      as (s' & -> & Hlog).
    exists s'. split; [ reflexivity | ]. rewrite Hlog. cbn [log imap].
    rewrite <- app_assoc, Nat.add_0_r. cbn [app]. do 2 f_equal.
    apply imap_ext. intros k line' _. cbn. rewrite Nat.add_succ_r. reflexivity.
Qed.

Lemma dc_ret {A : Type} (R : list Call -> Prop) (a : A) :
  R [] -> draws_calls R (ret (Doc := Doc) a).
Proof. intros H s. exists s, a, []. rewrite app_nil_r. repeat split. exact H. Qed.

Lemma dc_emit (R : list Call -> Prop) (e : Event) :
  (forall c, e <> Called c) -> R [] -> draws_calls R (emit (Doc := Doc) e).
Proof.
  intros He H s. eexists _, tt, [e]. split; [ reflexivity | ].
  split; [ reflexivity | ]. destruct e; try exact H. destruct (He c eq_refl).
Qed.

Lemma dc_call (R : list Call -> Prop) (c : Call) :
  accepts_drawing B -> is_addImage c = false ->
  R (List.filter is_drawText [c]) -> draws_calls R (call B c).
Proof.
  intros Hacc Hc H s. destruct (call_runs c s Hacc Hc) as [d E].
  eexists _, tt, [Called c]. rewrite E. split; [ reflexivity | ].
  split; [ reflexivity | exact H ].
Qed.

Lemma dc_bind {A C : Type} (R1 R2 R : list Call -> Prop) (m : M Doc A) (k : A -> M Doc C) :
  draws_calls R1 m -> (forall a, draws_calls R2 (k a)) ->
  (forall c1 c2, R1 c1 -> R2 c2 -> R (c1 ++ c2)%list) ->
  draws_calls R (bind m k).
Proof.
  intros Hm Hk HR s. destruct (Hm s) as (s1 & a & e1 & E1 & L1 & T1).
  destruct (Hk a s1) as (s2 & c & e2 & E2 & L2 & T2).
  exists s2, c, (e1 ++ e2)%list. unfold bind. rewrite E1, E2.
  split; [ reflexivity | ].
  split; [ rewrite L2, L1, app_assoc; reflexivity | ].
  rewrite draws_app. apply HR; assumption.
Qed.

Lemma dc_after {A C : Type} (R : list Call -> Prop) (m : M Doc A) (k : A -> M Doc C) :
  draws_calls (eq []) m -> (forall a, draws_calls R (k a)) -> draws_calls R (bind m k).
Proof.
  intros Hm Hk. apply (dc_bind (eq []) R R m k Hm Hk).
  intros c1 c2 <- H. exact H.
Qed.

Lemma dc_before {A C : Type} (R : list Call -> Prop) (m : M Doc A) (k : A -> M Doc C) :
  draws_calls R m -> (forall a, draws_calls (eq []) (k a)) -> draws_calls R (bind m k).
Proof.
  intros Hm Hk. apply (dc_bind R (eq []) R m k Hm Hk).
  intros c1 c2 H <-. rewrite app_nil_r. exact H.
Qed.

Lemma dc_lines (R : list Call -> Prop) (px py lineHeight : Q) (options : option (string * Q))
    (lines : list string) :
  accepts_drawing B ->
  R (draws (imap (fun k line =>
                    Called (drawText line px (py + of_nat k * lineHeight) options)) lines)) ->
  draws_calls R
    (forEach (fun line i => call B (drawText line px (py + of_nat i * lineHeight) options))
             lines 0).
Proof.
  intros Hacc H s. destruct (lines_run px py lineHeight options lines Hacc 0%nat s)
    as (s' & E & Hlog).
  eexists s', tt, _. split; [ exact E | ]. split; [ exact Hlog | exact H ].
Qed.

Lemma Forall2_imap_lines (P : nat -> Call -> string -> Prop) (lines : list string) :
  forall (f : nat -> string -> Event) (c : nat -> string -> Call) (g : nat -> nat),
  (forall k line, f k line = Called (c k line)) ->
  (forall k line, is_drawText (c k line) = true) ->
  (forall k line, P (g k) (c k line) line) ->
  Forall2 (fun c il => P il.1 c il.2) (draws (imap f lines))
          (imap (fun k line => (g k, line)) lines).
Proof.
  induction lines as [| line lines IH]; intros f c g Hf Hd HP; cbn [imap].
  - constructor.
  - unfold draws. rewrite Hf. cbn [calls List.filter]. rewrite Hd.
    constructor; [ apply HP | ].
    apply (IH (f ∘ S) (c ∘ S) (g ∘ S)); intros k line'; unfold compose;
      [ apply Hf | apply Hd | apply HP ].
Qed.

Lemma page_position (template : Template) (field : Field) :
  ~ width (pdfDimensions template) == 0 ->
  ~ height (pdfDimensions template) == 0 ->
  let p := CoordinateConverter.canvasToPdf
             (CoordinateConverter.new (pdfDimensions template) (pdfDimensions template) 1 72)
             (x field) (y field) in
  cx p * px_to_mm == x field * px_to_mm /\
  cy p * px_to_mm == (height (pdfDimensions template) - y field) * px_to_mm.
Proof.
  intros Hw Hh. cbn. split; field; assumption.
Qed.

(** X17. Where a field is drawn.  On a page of non-zero size and a
    document that accepts the drawing calls, the callback of a field
    returns, and its draw calls are one per string of the field, in order:
    each at the field's [x] in millimetres, and at the field's [y] taken
    from the other edge of the page, [(height - y) * 0.264583], plus one
    line height [fontSize * 1.2 * 0.264583] per line before it. *)
Theorem field_is_drawn_at (template : Template) (formData : gmap string Value)
    (field : Field) (index : nat) (s : State Doc) :
  accepts_drawing B ->
  ~ width (pdfDimensions template) == 0 ->
  ~ height (pdfDimensions template) == 0 ->
  let converter :=
    CoordinateConverter.new (pdfDimensions template) (pdfDimensions template) 1 72 in
  let pdfWidth := width (pdfDimensions template) * px_to_mm in
  let run := renderField B converter pdfWidth formData (length (fields template))
                         field index s in
  run.2 = inr tt /\
  exists evs,
    log run.1 = (log s ++ evs)%list /\
    Forall2 (fun c il => line_at (height (pdfDimensions template)) field il.1 c il.2)
            (draws evs) (imap pair (field_texts B formData field)).
Proof.
  intros Hacc Hw Hh converter pdfWidth. cbn zeta.
  destruct (page_position template field Hw Hh) as [Hx Hy]. cbn zeta in Hx, Hy.
  fold converter in Hx, Hy.
  set (R := fun cs : list Call =>
              Forall2 (fun c il => line_at (height (pdfDimensions template)) field il.1 c il.2)
                      cs (imap pair (field_texts B formData field))).
  assert (Hfield : draws_calls R
                     (renderField B converter pdfWidth formData (length (fields template))
                        field index)).
  { assert (Hone : forall (line : string) options,
               Forall2 (fun c il =>
                          line_at (height (pdfDimensions template)) field il.1 c il.2)
                       [drawText line
                          (cx (CoordinateConverter.canvasToPdf converter (x field) (y field))
                           * px_to_mm)
                          (cy (CoordinateConverter.canvasToPdf converter (x field) (y field))
                           * px_to_mm) options]
                       (imap pair [line])).
    { intros line options. constructor; [ | constructor ].
      eexists _, _, options. split; [ reflexivity | ]. split; [ exact Hx | ].
      cbn [fst]. rewrite Hy. unfold of_nat. cbn [Z.of_nat]. ring. }
    subst R. unfold renderField, field_texts. cbn zeta.
    destruct (unfilled _); [ apply dc_ret; constructor | ].
    do 3 (apply dc_after; [ apply dc_call; [ exact Hacc | reflexivity | reflexivity ]
                          | intros _ ]).
    apply dc_before; [ | intros _; apply dc_emit; [ discriminate | reflexivity ] ].
    destruct (is_checkbox _).
    - destruct (isChecked _); [ | apply dc_ret; constructor ].
      apply dc_after; [ apply dc_call; [ exact Hacc | reflexivity | reflexivity ] | intros _ ].
      apply dc_call; [ exact Hacc | reflexivity | apply Hone ].
    - destruct (maxWidth field) as [w |];
        [ | apply dc_call; [ exact Hacc | reflexivity | apply Hone ] ].
      destruct (multiline field) as [[|] |];
        try (apply dc_call; [ exact Hacc | reflexivity | apply Hone ]).
      destruct (truthy_number _);
        [ | apply dc_call; [ exact Hacc | reflexivity | apply Hone ] ].
      apply dc_lines; [ exact Hacc | ].
      eapply (Forall2_imap_lines
                (fun i c line => line_at (height (pdfDimensions template)) field i c line)
                _ _ (fun k line => drawText line _ _ _) (fun k => k)).
      + intros k line. reflexivity.
      + intros k line. reflexivity.
      + intros k line. eexists _, _, _. split; [ reflexivity | ]. split; [ exact Hx | ].
        rewrite Hy. reflexivity. }
  destruct (Hfield s) as (s' & [] & evs & E & Hlog & HR). rewrite E. cbn [fst snd].
  split; [ reflexivity | ]. exists evs. split; [ exact Hlog | exact HR ].
Qed.

End RenderMoreFacts.


Section RenderMoreExamples.
Import PDFGeneration RenderSpec ExportSpec.

(** A value bound to the id of no field changes nothing. *)
Lemma generatePDF_reads_bound_fields_witness :
  generatePDF accepting_backend two_fields two_values no_options
  = generatePDF accepting_backend two_fields
      (<["other"%string := VString "x"]> two_values) no_options.
Proof.
  apply (generatePDF_reads_bound_fields unit string accepting_backend two_fields two_values
           (<["other"%string := VString "x"]> two_values) no_options).
  intros field [<- | [<- | []]]; vm_compute; reflexivity.
Defined.

Lemma background_is_added_first_witness :
  exists rest,
    calls (generatePDF accepting_backend with_background two_values no_options).1
    = addImage "data:image/png;base64,AAAA" 0 0 (794 * px_to_mm) (1123 * px_to_mm) :: rest /\
    Forall (fun c => is_addImage c = false) rest.
Proof.
  exact (background_is_added_first unit string accepting_backend with_background two_values
           no_options tt eq_refl).
Defined.

(** Without [includeBackground] the image is left out. *)
Example background_switched_off :
  Forall (fun c => is_addImage c = false)
         (calls (generatePDF accepting_backend with_background two_values
                   (mkOptions None None (Some false))).1).
Proof. vm_compute. repeat constructor. Qed.

Lemma generatePDF_draws_fields_in_order_witness :
  let run := generatePDF no_image_backend with_background two_values no_options in
  (exists blob, run.2 = Some blob) /\
  drawn_texts (calls run.1)
  = flat_map (field_texts no_image_backend two_values) (fields with_background).
Proof.
  apply (generatePDF_draws_fields_in_order unit string no_image_backend with_background
           two_values no_options).
  - intros orientation w h. exists tt. reflexivity.
  - intros d c Hc. exists tt. destruct c; [ discriminate Hc | reflexivity .. ].
  - intros d f q. exists "blob"%string. reflexivity.
Defined.

Lemma field_is_drawn_at_witness :
  let run := renderField accepting_backend page_converter (794 * px_to_mm) two_values 2
               second_field 1 start_state in
  run.2 = inr tt /\
  exists evs,
    log run.1 = (log start_state ++ evs)%list /\
    Forall2 (fun c il => line_at 1123 second_field il.1 c il.2)
            (draws evs) (imap pair (field_texts accepting_backend two_values second_field)).
Proof.
  apply (field_is_drawn_at unit string accepting_backend two_fields two_values second_field 1
           start_state).
  - intros d c _. exists tt. reflexivity.
  - discriminate.
  - discriminate.
Defined.

End RenderMoreExamples.

(** *** Download and batch export *)

Section ExportFacts.
Import PDFGeneration PDFExport RenderSpec ExportSpec.

Variables Doc Blob : Type.
Variable B : Backend Doc Blob.
Variable saveAs : Blob -> string -> option Thrown.

Lemma saved_app (a b : list (Observed Blob)) : saved (a ++ b) = (saved a ++ saved b)%list.
Proof.
  induction a as [| o a IH]; cbn [app saved]; [ reflexivity | ].
  destruct o; cbn [app]; rewrite IH; reflexivity.
Qed.

Lemma saved_Hook (events : list Event) : saved (map (@Hook Blob) events) = [].
Proof. induction events as [| e events IH]; [ reflexivity | exact IH ]. Qed.

Lemma hook_events_app (a b : list (Observed Blob)) :
  hook_events (a ++ b) = (hook_events a ++ hook_events b)%list.
Proof.
  induction a as [| o a IH]; cbn [app hook_events]; [ reflexivity | ].
  destruct o; cbn [app]; rewrite IH; reflexivity.
Qed.

Lemma hook_events_Hook (events : list Event) :
  hook_events (map (@Hook Blob) events) = events.
Proof.
  induction events as [| e events IH]; [ reflexivity | ].
  cbn [map hook_events]. rewrite IH. reflexivity.
Qed.

(** X18. The return value of [exportPDF] tells what happened: it is true
    exactly when the blob of [generatePDF] was handed to [saveAs] under the
    name [<filename or filled-form>.<format or pdf>] and [saveAs] returned;
    exactly then the hook's error is [null] afterwards.  When
    [generatePDF] gives [null], nothing is handed to [saveAs]. *)
Theorem exportPDF_outcome (template : Template) (formData : gmap string Value)
    (options : Options) (e0 : option string) :
  let run := exportPDF B saveAs template formData options in
  let name := (filename_or options "filled-form" ++ "." ++ extension options)%string in
  (run.2 = true <->
   exists blob, saved run.1 = [(blob, name)] /\ saveAs blob name = None) /\
  (run.2 = true <-> error_after e0 (hook_events run.1) = None) /\
  match (generatePDF B template formData (rendering options)).2 with
  | Some blob => saved run.1 = [(blob, name)]
  | None => saved run.1 = []
  end.
Proof.
  cbn zeta. unfold exportPDF.
  pose proof (generatePDF_error_after Doc Blob B template formData (rendering options) e0)
    as Herr.
  cbn zeta in Herr.
  destruct (generatePDF B template formData (rendering options)) as [events [blob |]];
    cbn [fst snd] in Herr |- *.
  - destruct (saveAs blob _) eqn:Hsave; cbn [fst snd];
      rewrite saved_app, saved_Hook, hook_events_app, hook_events_Hook, error_after_app, Herr;
      cbn [app saved hook_events error_after].
    + split; [ | split; [ | reflexivity ] ].
      * split; [ discriminate | ]. intros (b & Hb & Hs). inversion Hb; subst b.
        rewrite Hsave in Hs. discriminate Hs.
      * split; discriminate.
    + split; [ | split; [ | reflexivity ] ].
      * split; [ | reflexivity ]. intros _. exists blob. split; [ reflexivity | exact Hsave ].
      * split; reflexivity.
  - rewrite saved_Hook, hook_events_Hook. destruct Herr as [message ->].
    split; [ | split; [ | reflexivity ] ].
    + split; [ discriminate | ]. intros (b & Hb & _). discriminate Hb.
    + split; discriminate.
Qed.

Lemma batchLoop_spec (template : Template) (options : Options) (total : nat)
    (records : list (gmap string Value)) :
  forall (i : nat) (observed : list (Observed Blob)) (success failed : nat),
  let run := batchLoop B saveAs template options total records i observed success failed in
  exists more,
    run.1 = (observed ++ more)%list /\
    saved more
    = concat (imap (fun k => record_saves B template options (i + k)) records) /\
    run.2.1 = (success + length (List.filter (delivered saveAs) (saved more)))%nat /\
    (run.2.1 + run.2.2 = success + failed + length records)%nat.
Proof.
  induction records as [| record records IH]; intros i observed success failed; cbn zeta.
  - exists []. cbn. rewrite app_nil_r. repeat split; lia.
  - cbn [batchLoop imap concat length]. unfold record_saves at 1. rewrite Nat.add_0_r.
    assert (Hshift : imap ((fun k => record_saves B template options (i + k)) ∘ S) records
                     = imap (fun k => record_saves B template options (S i + k)) records).
    { apply imap_ext. intros k r _. unfold compose. f_equal. lia. }
    rewrite Hshift.
    destruct (generatePDF B template record (rendering options)) as [events [blob |]];
      cbn [snd]; [ destruct (saveAs blob (recordFile options i)) eqn:Hsave | ].
    + destruct (IH (S i)
                  (observed ++ map Hook events
                     ++ [SaveAs blob (recordFile options i); Hook console_error;
                         Hook (setProgress (of_nat (i + 1) / of_nat total * 100))])%list
                  success (S failed)) as (more & E & Hs & Hc & Ht).
      cbn zeta in E, Hc, Ht. eexists. rewrite E, <- app_assoc.
      split; [ reflexivity | ].
      rewrite !saved_app, saved_Hook, Hs. cbn [app saved List.filter].
      unfold delivered at 1. cbn [fst snd]. rewrite Hsave.
      split; [ reflexivity | ]. split; [ rewrite Hc, Hs; reflexivity | lia ].
    + destruct (IH (S i)
                  (observed ++ map Hook events
                     ++ [SaveAs blob (recordFile options i);
                         Hook (setProgress (of_nat (i + 1) / of_nat total * 100))])%list
                  (S success) failed) as (more & E & Hs & Hc & Ht).
      cbn zeta in E, Hc, Ht. eexists. rewrite E, <- app_assoc.
      split; [ reflexivity | ].
      rewrite !saved_app, saved_Hook, Hs. cbn [app saved List.filter].
      unfold delivered at 1. cbn [fst snd]. rewrite Hsave. cbn [length].
      split; [ reflexivity | ]. split; [ rewrite Hc, Hs; lia | lia ].
    + destruct (IH (S i)
                  (observed ++ map Hook events
                     ++ [Hook (setProgress (of_nat (i + 1) / of_nat total * 100))])%list
                  success (S failed)) as (more & E & Hs & Hc & Ht).
      cbn zeta in E, Hc, Ht. eexists. rewrite E, <- app_assoc.
      split; [ reflexivity | ].
      rewrite !saved_app, saved_Hook, Hs. cbn [app saved].
      split; [ reflexivity | ]. split; [ rewrite Hc, Hs; reflexivity | lia ].
Qed.

(** X19. A batch attempts every record, whatever happens to the others.
    The files handed to [saveAs] are, in the order of the records, the
    blob of each record whose generation gave one, under the name
    [<filename or form>_<i+1>.<format or pdf>]; [success] counts the files
    for which [saveAs] returned, and [success + failed] is the number of
    records. *)
Theorem batchExport_counts (template : Template) (records : list (gmap string Value))
    (options : Options) :
  let run := batchExport B saveAs template records options in
  saved run.1 = concat (imap (record_saves B template options) records) /\
  run.2.1 = length (List.filter (delivered saveAs) (saved run.1)) /\
  (run.2.1 + run.2.2)%nat = length records.
Proof.
  cbn zeta. unfold batchExport.
  destruct (batchLoop_spec template options (length records) records 0
              [Hook (setIsGenerating true); Hook (setProgress 0)] 0 0)
    as (more & E & Hs & Hc & Ht).
  cbn zeta in E, Hc, Ht.
  destruct (batchLoop B saveAs template options (length records) records 0 _ 0 0)
    as [observed [success failed]].
  cbn [fst snd] in *. subst observed.
  rewrite !saved_app. cbn [saved app]. rewrite app_nil_r.
  split; [ exact Hs | ]. split; [ exact Hc | exact Ht ].
Qed.

Lemma batchLoop_step (template : Template) (options : Options) (total : nat)
    (record : gmap string Value) (records : list (gmap string Value))
    (i : nat) (observed : list (Observed Blob)) (success failed : nat) :
  exists pre success' failed',
    batchLoop B saveAs template options total (record :: records) i observed success failed
    = batchLoop B saveAs template options total records (S i)
        (observed ++ map Hook (generatePDF B template record (rendering options)).1
           ++ pre ++ [Hook (setProgress (of_nat (i + 1) / of_nat total * 100))])%list
        success' failed' /\
    progress_values (hook_events pre) = [].
Proof.
  cbn [batchLoop].
  destruct (generatePDF B template record (rendering options)) as [events [blob |]];
    cbn [fst]; [ destruct (saveAs blob (recordFile options i)) | ].
  - exists [SaveAs blob (recordFile options i); Hook console_error], success, (S failed).
    split; reflexivity.
  - exists [SaveAs blob (recordFile options i)], (S success), failed. split; reflexivity.
  - exists [], success, (S failed). split; reflexivity.
Qed.

Lemma batchLoop_last (template : Template) (options : Options) (total : nat)
    (records : list (gmap string Value)) :
  records <> [] ->
  forall (i : nat) (observed : list (Observed Blob)) (success failed : nat),
  exists before,
    (batchLoop B saveAs template options total records i observed success failed).1
    = (before ++ [Hook (setProgress (of_nat (i + length records) / of_nat total * 100))])%list.
Proof.
  induction records as [| record records IH]; intros Hne i observed success failed;
    [ congruence | ].
  destruct (batchLoop_step template options total record records i observed success failed)
    as (pre & success' & failed' & -> & _).
  destruct records as [| record' records].
  - cbn [batchLoop fst length]. eexists. rewrite !app_assoc. reflexivity.
  - destruct (IH ltac:(discriminate) (S i)
                (observed ++ map Hook (generatePDF B template record (rendering options)).1
                   ++ pre ++ [Hook (setProgress (of_nat (i + 1) / of_nat total * 100))])%list
                success' failed') as [before E].
    exists before. rewrite E.
    replace (S i + length (record' :: records))%nat
      with (i + length (record :: record' :: records))%nat by (cbn [length]; lia).
    reflexivity.
Qed.

Lemma non_decreasing_adjacent (l1 l2 : list Q) (a b : Q) :
  non_decreasing (l1 ++ a :: b :: l2) -> a <= b.
Proof.
  induction l1 as [| c l1 IH]; cbn [app non_decreasing].
  - intros [H _]. exact H.
  - intros [_ H]. exact (IH H).
Qed.

Lemma of_nat_positive (n : nat) : (0 < n)%nat -> 0 < of_nat n.
Proof.
  intros H. unfold of_nat. change 0 with (inject_Z 0). rewrite <- Zlt_Qlt. lia.
Qed.

(** X20. In a batch the progress value is the one [generatePDF] reports
    into: every record starts again at 0 after the batch has reported the
    share of the records done.  With two records or more the reported
    progress is therefore not monotone; the last value reported is 100. *)
Theorem batch_progress_restarts (template : Template) (records : list (gmap string Value))
    (options : Options) :
  (2 <= length records)%nat ->
  let ps := progress_values (hook_events (batchExport B saveAs template records options).1) in
  ~ non_decreasing ps /\
  exists before p, ps = (before ++ [p])%list /\ p == 100.
Proof.
  intros Hlen. cbn zeta. unfold batchExport.
  set (start := [Hook (setIsGenerating true); Hook (setProgress 0)]).
  split.
  - destruct records as [| r1 [| r2 rest]]; cbn [length] in Hlen; try lia.
    set (total := length (r1 :: r2 :: rest)).
    destruct (batchLoop_step template options total r1 (r2 :: rest) 0 start 0 0)
      as (pre1 & s1 & f1 & -> & Hpre1).
    match goal with
    | |- context [batchLoop B saveAs template options total (r2 :: rest) 1 ?obs s1 f1] =>
        set (obs1 := obs);
        destruct (batchLoop_step template options total r2 rest 1 obs1 s1 f1)
          as (pre2 & s2 & f2 & -> & Hpre2)
    end.
    match goal with
    | |- context [batchLoop B saveAs template options total rest 2 ?obs s2 f2] =>
        destruct (batchLoop_spec template options total rest 2 obs s2 f2)
          as (more & E & _);
        cbn zeta in E;
        destruct (batchLoop B saveAs template options total rest 2 obs s2 f2)
          as [observed counts]
    end.
    cbn [fst] in E |- *. subst observed obs1.
    destruct (generatePDF_shape Doc Blob B template r2 (rendering options))
      as (middle & -> & _).
    rewrite !hook_events_app, !progress_values_app, !hook_events_Hook.
    cbn [app hook_events progress_values]. rewrite Hpre1. cbn [app].
    rewrite <- !app_assoc. cbn [app].
    intros Hmono. rewrite app_assoc in Hmono.
    match type of Hmono with
    | non_decreasing (?a ++ ?p :: 0 :: ?z) =>
        pose proof (non_decreasing_adjacent a z p 0 Hmono) as Hle
    end.
    apply (Qlt_irrefl 0). eapply Qlt_le_trans; [ | exact Hle ].
    apply Qmult_lt_0_compat; [ | reflexivity ].
    apply Qlt_shift_div_l; [ apply of_nat_positive; subst total; cbn [length]; lia | ].
    rewrite Qmult_0_l. apply of_nat_positive. lia.
  - destruct (batchLoop_last template options (length records) records
                ltac:(destruct records; [ cbn in Hlen; lia | discriminate ]) 0 start 0 0)
      as [before E].
    destruct (batchLoop B saveAs template options (length records) records 0 start 0 0)
      as [observed counts].
    cbn [fst] in E |- *. subst observed.
    rewrite !hook_events_app, !progress_values_app. cbn [hook_events progress_values].
    rewrite app_nil_r. eexists _, _. split; [ reflexivity | ].
    cbn [Nat.add]. field. intros H0.
    assert (Hpos : 0 < of_nat (length records)) by (apply of_nat_positive; lia).
    rewrite H0 in Hpos. exact (Qlt_irrefl 0 Hpos).
Qed.

End ExportFacts.


Section ExportExamples.
Import PDFGeneration PDFExport RenderSpec ExportSpec.

Lemma batch_progress_restarts_witness :
  let ps := progress_values
              (hook_events (batchExport accepting_backend saving two_fields
                              [two_values; other_values] default_export).1) in
  ~ non_decreasing ps /\
  exists before p, ps = (before ++ [p])%list /\ p == 100.
Proof.
  apply (batch_progress_restarts unit string accepting_backend saving two_fields
           [two_values; other_values] default_export).
  cbn [length]. lia.
Defined.

(** Three records; [saveAs] throws on the second file.  The first and the
    third file are saved all the same. *)
Example batch_of_three :
  let run := batchExport accepting_backend saving_but_second two_fields
               [two_values; other_values; two_values] default_export in
  run.2 = (2%nat, 1%nat) /\
  map snd (saved run.1) = ["form_1.pdf"; "form_2.pdf"; "form_3.pdf"]%string.
Proof. cbn zeta. split; vm_compute; reflexivity. Qed.

(** A record that cannot be drawn is counted as failed, and the next
    record is exported. *)
Example batch_with_failing_record :
  let run := batchExport failing_backend saving two_fields
               [two_values; other_values] default_export in
  run.2 = (1%nat, 1%nat) /\
  saved run.1 = [("blob", "form_2.pdf")]%string.
Proof. cbn zeta. split; vm_compute; reflexivity. Qed.

(** The download of a form that cannot be drawn. *)
Example export_of_failing_form :
  let run := exportPDF failing_backend saving two_fields two_values default_export in
  run.2 = false /\ saved run.1 = [] /\
  error_after None (hook_events run.1) = Some "Failed to generate PDF: cannot draw"%string.
Proof. cbn zeta. repeat split; vm_compute; reflexivity. Qed.

End ExportExamples.


(** *** The store of templates *)

Section StoreFacts.
Import TemplateStore TemplateSpec StoreSpec.

Variable JSON_stringify : json -> string.
Variable JSON_stringify_indented : json -> string.
Variable JSON_parse : string -> option json.
Variable refused : Storage -> string -> string -> bool.
Variable String_of : option json -> string.

Lemma append_inj_l (p a b : string) : (p ++ a)%string = (p ++ b)%string -> a = b.
Proof.
  induction p as [| c p IH]; cbn [String.append]; [ exact (fun H => H) | ].
  intros H. inversion H. auto.
Qed.

Lemma key_not_list (templateId : string) :
  (STORAGE_KEY_PREFIX ++ templateId)%string <> TEMPLATES_LIST_KEY.
Proof. unfold STORAGE_KEY_PREFIX, TEMPLATES_LIST_KEY. cbn [String.append]. discriminate. Qed.

Lemma key_inj (a b : string) :
  (STORAGE_KEY_PREFIX ++ a)%string = (STORAGE_KEY_PREFIX ++ b)%string -> a = b.
Proof. apply append_inj_l. Qed.

Lemma getAllTemplates_ext (storage storage' : Storage) :
  storage' !! TEMPLATES_LIST_KEY = storage !! TEMPLATES_LIST_KEY ->
  getAllTemplates JSON_parse storage' = getAllTemplates JSON_parse storage.
Proof. intros H. unfold getAllTemplates, getItem. rewrite H. reflexivity. Qed.

Lemma setItem_list_frame (storage storage' : Storage) (value key : string) :
  setItem refused storage TEMPLATES_LIST_KEY value = Some storage' ->
  key <> TEMPLATES_LIST_KEY -> storage' !! key = storage !! key.
Proof.
  unfold setItem. destruct (refused _ _ _); [ discriminate | ].
  intros [= <-] Hkey. apply lookup_insert_ne. congruence.
Qed.

Lemma addToTemplatesList_frame (storage : Storage) (templateId name key : string) :
  key <> TEMPLATES_LIST_KEY ->
  addToTemplatesList JSON_stringify JSON_parse refused storage templateId name !! key
  = storage !! key.
Proof.
  intros Hkey. unfold addToTemplatesList.
  destruct (getAllTemplates JSON_parse storage); try reflexivity.
  destruct (findIndex _ _ _); [ | reflexivity ].
  destruct (setItem _ _ _ _) eqn:E; [ | reflexivity ].
  exact (setItem_list_frame _ _ _ _ E Hkey).
Qed.


Lemma loadTemplate_ext (storage storage' : Storage) (templateId : string) :
  storage' !! (STORAGE_KEY_PREFIX ++ templateId)%string
  = storage !! (STORAGE_KEY_PREFIX ++ templateId)%string ->
  loadTemplate JSON_parse storage' templateId = loadTemplate JSON_parse storage templateId.
Proof. intros H. unfold loadTemplate, getItem. rewrite H. reflexivity. Qed.

Lemma truthy_string_nonempty (s : string) : s <> ""%string -> truthy_string s = true.
Proof. destruct s; [ congruence | reflexivity ]. Qed.

(** X21. A template that was saved can be loaded again.  When
    [saveTemplate] returns, and [JSON.parse] reads back what
    [JSON.stringify] wrote, [loadTemplate] with the template's id gives the
    template; when [saveTemplate] throws, the storage is as before.
    Either way the other templates load as before. *)
Theorem saveTemplate_then_load (storage : Storage) (template : Template) :
  round_trips JSON_stringify JSON_parse (toObject template) ->
  let run := saveTemplate JSON_stringify JSON_parse refused storage template in
  match run.2 with
  | inr _ => loadTemplate JSON_parse run.1 (id template) = Some (toObject template)
  | inl message =>
      run.1 = storage /\ message = "Failed to save template to local storage"%string
  end /\
  forall other,
    other <> id template ->
    loadTemplate JSON_parse run.1 other = loadTemplate JSON_parse storage other.
Proof.
  intros [Hparse Hne]. cbn zeta. unfold saveTemplate, setItem.
  destruct (refused _ _ _); cbn [fst snd].
  - split; [ split; reflexivity | reflexivity ].
  - split.
    + unfold loadTemplate, getItem.
      rewrite addToTemplatesList_frame by apply key_not_list.
      rewrite lookup_insert_eq, (truthy_string_nonempty _ Hne). exact Hparse.
    + intros other Hother. apply loadTemplate_ext.
      rewrite addToTemplatesList_frame by apply key_not_list.
      apply lookup_insert_ne. intros H. apply key_inj in H. congruence.
Qed.

Lemma has_id_entry_id (templateId : string) (t : json) :
  t <> JNull ->
  exists same, has_id templateId t = Some same /\
               (same = true <-> entry_id t = Some templateId).
Proof.
  intros Ht. unfold has_id, entry_id, member.
  destruct t as [| b | q | s | elements | members]; try congruence;
    cbn [get_property]; try (exists false; split; [ reflexivity | split; discriminate ]).
  destruct (assoc "id" members) as [[| b | q | s | elements | members'] |];
    try (exists false; split; [ reflexivity | split; discriminate ]).
  exists (String.eqb s templateId). split; [ reflexivity | ].
  rewrite String.eqb_eq. split; [ intros ->; reflexivity | intros [= ->]; reflexivity ].
Qed.

Lemma assoc_assoc_set_ne {A : Type} (key key' : string) (v : A) (members : list (string * A)) :
  key <> key' -> assoc key (assoc_set key' v members) = assoc key members.
Proof.
  intros Hne. induction members as [| [k w] members IH]; cbn [assoc_set assoc].
  - destruct (String.eqb_spec key' key); [ congruence | reflexivity ].
  - destruct (String.eqb_spec k key') as [-> | Hk]; cbn [assoc].
    + destruct (String.eqb_spec key' key); [ congruence | reflexivity ].
    + rewrite IH. reflexivity.
Qed.

Lemma assoc_assoc_set_eq {A : Type} (key : string) (v : A) (members : list (string * A)) :
  assoc key (assoc_set key v members) = Some v.
Proof.
  induction members as [| [k w] members IH]; cbn [assoc_set assoc].
  - rewrite String.eqb_refl. reflexivity.
  - destruct (String.eqb_spec k key) as [-> | Hk]; cbn [assoc].
    + rewrite String.eqb_refl. reflexivity.
    + destruct (String.eqb_spec k key); [ congruence | exact IH ].
Qed.

Lemma entry_id_set_name (name : string) (t : json) :
  entry_id (set_name name t) = entry_id t.
Proof.
  destruct t; try reflexivity. unfold entry_id, set_name, member.
  rewrite assoc_assoc_set_ne by discriminate. reflexivity.
Qed.

Lemma listed_ids_alter (name : string) (entries : list json) (i : nat) :
  listed_ids (alter (set_name name) i entries) = listed_ids entries.
Proof.
  unfold listed_ids. revert i. induction entries as [| t entries IH]; intros [| i];
    try reflexivity; cbn.
  - rewrite entry_id_set_name. reflexivity.
  - specialize (IH i). cbn in IH. rewrite IH. reflexivity.
Qed.

Lemma listed_ids_app (a b : list json) :
  listed_ids (a ++ b) = (listed_ids a ++ listed_ids b)%list.
Proof. apply omap_app. Qed.

Lemma listed_ids_In (entries : list json) (templateId : string) :
  In templateId (listed_ids entries) <->
  exists t, In t entries /\ entry_id t = Some templateId.
Proof.
  unfold listed_ids. rewrite <- list_elem_of_In, list_elem_of_omap.
  split; intros (t & H1 & H2); exists t; split; try assumption;
    apply list_elem_of_In; assumption.
Qed.

Lemma findIndex_spec (templateId : string) (entries : list json) :
  readable entries ->
  forall i,
    match findIndex templateId entries i with
    | None => False
    | Some None => ~ In templateId (listed_ids entries)
    | Some (Some j) =>
        exists k t, j = (i + k)%nat /\ entries !! k = Some t /\ entry_id t = Some templateId
    end.
Proof.
  induction 1 as [| t entries Ht _ IH]; intros i; cbn [findIndex].
  - intros [].
  - destruct (has_id_entry_id templateId t Ht) as (same & -> & Hsame).
    destruct same.
    + exists 0%nat, t. rewrite Nat.add_0_r. repeat split. apply Hsame. reflexivity.
    + specialize (IH (S i)). destruct (findIndex templateId entries (S i)) as [[j |] |].
      * destruct IH as (k & t' & -> & Hk & Hid). exists (S k), t'.
        split; [ lia | split; assumption ].
      * intros Hin. apply IH. unfold listed_ids in *. cbn [omap list_omap] in Hin.
        destruct (entry_id t) as [s |] eqn:Es; [ | exact Hin ].
        destruct Hin as [<- | Hin]; [ | exact Hin ].
        destruct Hsame as [_ Hsame]. specialize (Hsame eq_refl). discriminate.
      * exact IH.
Qed.

Lemma names_set_name (name templateId : string) (entries : list json) (k : nat) (t : json) :
  entries !! k = Some t -> entry_id t = Some templateId ->
  names (alter (set_name name) k entries) templateId name.
Proof.
  intros Hk Hid. exists (set_name name t). split; [ | split ].
  - apply list_elem_of_In, list_elem_of_lookup. exists k.
    rewrite list_lookup_alter_eq, Hk. reflexivity.
  - rewrite entry_id_set_name. exact Hid.
  - destruct t; try discriminate Hid. unfold set_name, member.
    apply assoc_assoc_set_eq.
Qed.

(** X22. Saving keeps the list of templates free of duplicates.  When the
    list read from the storage is an array without [null] entries in which
    no id occurs twice, and the two writes are not refused, then the list
    written by [saveTemplate] again has no id twice; it names the saved
    template by its name; and its ids are those of before, followed by the
    template's id if it was not among them. *)
Theorem saveTemplate_lists_once (storage : Storage) (template : Template)
    (entries : list json) :
  getAllTemplates JSON_parse storage = JArray entries ->
  readable entries ->
  NoDup (listed_ids entries) ->
  (forall st key value, refused st key value = false) ->
  let run := saveTemplate JSON_stringify JSON_parse refused storage template in
  exists entries',
    run.1 !! TEMPLATES_LIST_KEY = Some (JSON_stringify (JArray entries')) /\
    NoDup (listed_ids entries') /\
    names entries' (id template) (templateName template) /\
    listed_ids entries'
    = if bool_decide (id template ∈ listed_ids entries)
      then listed_ids entries
      else (listed_ids entries ++ [id template])%list.
Proof.
  intros Hlist Hread Hnodup Hfree. cbn zeta. unfold saveTemplate, setItem.
  rewrite Hfree. cbn [fst]. unfold addToTemplatesList, setItem.
  rewrite (getAllTemplates_ext storage); [ | apply lookup_insert_ne, key_not_list ].
  rewrite Hlist. pose proof (findIndex_spec (id template) entries Hread 0) as Hfind.
  destruct (findIndex (id template) entries 0) as [[j |] |]; [ | | destruct Hfind ];
    rewrite Hfree; eexists; (split; [ apply lookup_insert_eq | ]).
  - destruct Hfind as (k & t & -> & Hk & Hid). cbn [Nat.add].
    rewrite listed_ids_alter. split; [ exact Hnodup | ].
    split; [ exact (names_set_name _ _ _ _ _ Hk Hid) | ].
    rewrite bool_decide_eq_true_2; [ reflexivity | ].
    apply list_elem_of_In, listed_ids_In. exists t. split; [ | exact Hid ].
    apply list_elem_of_In, list_elem_of_lookup. exists k. exact Hk.
  - rewrite listed_ids_app. change (listed_ids [entry _ _]) with [id template].
    split.
    { apply NoDup_app. split; [ exact Hnodup | ]. split; [ | apply NoDup_singleton ].
      intros s Hs Hs'. apply list_elem_of_In in Hs. apply list_elem_of_singleton in Hs'.
      subst s. exact (Hfind Hs). }
    split.
    { exists (entry (id template) (templateName template)).
      split; [ apply in_or_app; right; left; reflexivity | split; reflexivity ]. }
    rewrite bool_decide_eq_false_2; [ reflexivity | ].
    intros Hin. apply list_elem_of_In in Hin. exact (Hfind Hin).
Qed.




Lemma removeEach_spec (entries : list json) :
  readable entries ->
  forall storage,
    (removeEach String_of storage entries).2 = true /\
    forall key,
      (removeEach String_of storage entries).1 !! key
      = if bool_decide (key ∈ map (fun t => key_of String_of (member t "id")) entries)
        then None else storage !! key.
Proof.
  induction 1 as [| t entries Ht _ IH]; intros storage; cbn [removeEach map].
  - split; [ reflexivity | ]. intros key. rewrite bool_decide_eq_false_2; [ reflexivity | ].
    apply not_elem_of_nil.
  - assert (Hget : get_property t "id" = inr (member t "id")).
    { destruct t; try reflexivity. congruence. }
    rewrite Hget. destruct (IH (removeItem storage (key_of String_of (member t "id"))))
      as [Hfin Hlook].
    split; [ exact Hfin | ]. intros key. rewrite Hlook. unfold removeItem.
    destruct (decide (key = key_of String_of (member t "id"))) as [-> | Hne].
    + rewrite lookup_delete_eq, (bool_decide_eq_true_2 (_ ∈ _ :: _));
        [ | apply list_elem_of_here ].
      destruct (bool_decide _); reflexivity.
    + rewrite lookup_delete_ne by congruence.
      destruct (bool_decide (key ∈ map _ entries)) eqn:E.
      * apply bool_decide_eq_true in E.
        rewrite bool_decide_eq_true_2; [ reflexivity | apply list_elem_of_further, E ].
      * apply bool_decide_eq_false in E.
        rewrite bool_decide_eq_false_2; [ reflexivity | ].
        intros Hin. apply elem_of_cons in Hin as [Hin | Hin]; [ congruence | exact (E Hin) ].
Qed.

(** X24. [clearAllTemplates] on a list that is an array without [null]
    entries: afterwards the list is empty, none of the listed templates
    can be loaded, and, when every entry has a string as id, the templates
    that were not on the list are still there. *)
Theorem clearAllTemplates_clears (storage : Storage) (entries : list json) :
  getAllTemplates JSON_parse storage = JArray entries ->
  readable entries ->
  let storage' := clearAllTemplates JSON_parse String_of storage in
  getAllTemplates JSON_parse storage' = JArray [] /\
  (forall templateId,
     In templateId (listed_ids entries) ->
     loadTemplate JSON_parse storage' templateId = None) /\
  (Forall (fun t => is_Some (entry_id t)) entries ->
   forall templateId,
     ~ In templateId (listed_ids entries) ->
     loadTemplate JSON_parse storage' templateId = loadTemplate JSON_parse storage templateId).
Proof.
  intros Hlist Hread. cbn zeta. unfold clearAllTemplates. rewrite Hlist.
  destruct (removeEach_spec entries Hread storage) as [Hfin Hlook].
  destruct (removeEach String_of storage entries) as [storage' finished].
  cbn [fst snd] in Hfin, Hlook. subst finished. unfold removeItem.
  split; [ | split ].
  - unfold getAllTemplates, getItem. rewrite lookup_delete_eq. reflexivity.
  - intros templateId Hin. unfold loadTemplate, getItem.
    rewrite lookup_delete_ne by (apply not_eq_sym, key_not_list).
    rewrite Hlook, bool_decide_eq_true_2; [ reflexivity | ].
    apply listed_ids_In in Hin as (t & Ht & Hid).
    apply list_elem_of_fmap. exists t. split; [ | apply list_elem_of_In, Ht ].
    unfold entry_id in Hid. destruct (member t "id") as [[| | | s | |] |]; try discriminate Hid.
    injection Hid as <-. reflexivity.
  - intros Hids templateId Hout. apply loadTemplate_ext.
    rewrite lookup_delete_ne by (apply not_eq_sym, key_not_list).
    rewrite Hlook, bool_decide_eq_false_2; [ reflexivity | ].
    intros Hin. apply list_elem_of_fmap in Hin as (t & Hkey & Ht).
    apply Hout, listed_ids_In. exists t. split; [ apply list_elem_of_In, Ht | ].
    rewrite List.Forall_forall in Hids.
    destruct (Hids t (proj1 (list_elem_of_In _ _) Ht)) as [s Hs]. rewrite Hs. f_equal.
    unfold entry_id in Hs. destruct (member t "id") as [[| | | s' | |] |]; try discriminate Hs.
    injection Hs as ->. cbn [key_of] in Hkey. apply key_inj in Hkey. congruence.
Qed.

Lemma validateTemplate_toObject (template : Template) :
  TemplateSaver.validateTemplate (toObject template) = inr (has_size template).
Proof.
  unfold TemplateSaver.validateTemplate, toObject, has_size.
  cbn [truthy typeof_object negb orb]. cbn -[Qeq_bool].
  destruct (Qeq_bool (width (pdfDimensions template)) 0); cbn [negb andb]; [ reflexivity | ].
  destruct (Qeq_bool (height (pdfDimensions template)) 0); reflexivity.
Qed.

(** X25. A template that was exported can be imported again exactly when
    both of its dimensions are other than zero; the import then gives the
    same template, with [updatedAt] set to the time of the import. *)
Theorem exported_template_imports_back (template : Template) (now : string) :
  round_trips JSON_stringify_indented JSON_parse (toObject template) ->
  TemplateSaver.importTemplate JSON_parse now
    (Some (content (exportTemplate JSON_stringify_indented template)))
  = if has_size template
    then TemplateSaver.Resolved (toObject (touched template now))
    else TemplateSaver.Rejected "Invalid template format".
Proof.
  intros [Hparse _]. unfold TemplateSaver.importTemplate, exportTemplate. cbn [content].
  rewrite Hparse, validateTemplate_toObject.
  destruct (has_size template); reflexivity.
Qed.

End StoreFacts.


Section StoreExamples.
Import TemplateStore TemplateSpec StoreSpec.

Lemma sample_round_trips :
  round_trips sample_stringify sample_parse (toObject stored_template).
Proof. split; [ vm_compute; reflexivity | discriminate ]. Qed.

Lemma never_refused_false (st : gmap string string) (key value : string) :
  never_refused st key value = false.
Proof. reflexivity. Qed.

Lemma saveTemplate_then_load_witness :
  let run := saveTemplate sample_stringify sample_parse never_refused ∅ stored_template in
  match run.2 with
  | inr _ => loadTemplate sample_parse run.1 (id stored_template) = Some (toObject stored_template)
  | inl message =>
      run.1 = ∅ /\ message = "Failed to save template to local storage"%string
  end /\
  forall other,
    other <> id stored_template ->
    loadTemplate sample_parse run.1 other = loadTemplate sample_parse ∅ other.
Proof.
  apply (saveTemplate_then_load sample_stringify sample_parse never_refused ∅
           stored_template).
  exact sample_round_trips.
Defined.

(** The storage with [stored_template] reads as a list of one entry. *)
Lemma sample_storage_list :
  getAllTemplates sample_parse sample_storage = JArray [entry "template_1" "Tax form"].
Proof. vm_compute. reflexivity. Qed.

Lemma sample_list_readable : readable [entry "template_1" "Tax form"].
Proof. repeat constructor. discriminate. Qed.

Lemma sample_list_NoDup : NoDup (listed_ids [entry "template_1" "Tax form"]).
Proof. apply NoDup_singleton. Qed.

(** The template is saved once more, under another name, into the storage
    that lists it already: its entry is renamed, and none is added. *)
Lemma saveTemplate_lists_once_witness :
  let run := saveTemplate sample_stringify sample_parse never_refused sample_storage
               renamed_template in
  exists entries',
    run.1 !! TEMPLATES_LIST_KEY = Some (sample_stringify (JArray entries')) /\
    NoDup (listed_ids entries') /\
    names entries' (id renamed_template) (templateName renamed_template) /\
    listed_ids entries'
    = if bool_decide (id renamed_template ∈ listed_ids [entry "template_1" "Tax form"])
      then listed_ids [entry "template_1" "Tax form"]
      else (listed_ids [entry "template_1" "Tax form"] ++ [id renamed_template])%list.
Proof.
  apply (saveTemplate_lists_once sample_stringify sample_parse never_refused sample_storage
           renamed_template [entry "template_1" "Tax form"]).
  - exact sample_storage_list.
  - exact sample_list_readable.
  - exact sample_list_NoDup.
  - exact never_refused_false.
Defined.

(** The id is on the list of the example, so that the list is the one of
    the first branch, with the ids of before. *)
Example saved_id_is_listed :
  bool_decide (id renamed_template ∈ listed_ids [entry "template_1" "Tax form"]) = true /\
  findIndex (id renamed_template) [entry "template_1" "Tax form"] 0 = Some (Some 0%nat) /\
  alter (set_name (templateName renamed_template)) 0%nat [entry "template_1" "Tax form"]
  = [entry "template_1" "Tax form 2025"].
Proof. repeat split; vm_compute; reflexivity. Qed.


Lemma clearAllTemplates_clears_witness :
  loadTemplate sample_parse
    (clearAllTemplates sample_parse sample_String_of sample_storage) "template_1" = None.
Proof.
  apply (proj1 (proj2 (clearAllTemplates_clears sample_parse sample_String_of sample_storage
                         [entry "template_1" "Tax form"] sample_storage_list
                         sample_list_readable))).
  left. reflexivity.
Defined.

Lemma exported_template_imports_back_witness :
  TemplateSaver.importTemplate sample_parse "2024-02-01T00:00:00.000Z"
    (Some (content (exportTemplate sample_stringify stored_template)))
  = if has_size stored_template
    then TemplateSaver.Resolved
           (toObject (touched stored_template "2024-02-01T00:00:00.000Z"))
    else TemplateSaver.Rejected "Invalid template format".
Proof.
  apply (exported_template_imports_back sample_stringify sample_parse stored_template
           "2024-02-01T00:00:00.000Z").
  exact sample_round_trips.
Defined.

(** A new template without a width is created all the same, and it is one
    that cannot be imported back. *)
Example new_template_without_width :
  has_size (createNewTemplate "template_2" "now" "now" "Untitled Form" 0 1123) = false.
Proof. reflexivity. Qed.

(** The name under which a template is offered for download. *)
Example exportTemplate_download :
  download (exportTemplate sample_stringify
              (createNewTemplate "template_2" "now" "now" "Tax  form 2024" 794 1123))
  = "Tax_form_2024_template.json"%string.
Proof. vm_compute. reflexivity. Qed.

End StoreExamples.


(** *** The field mapper *)

Section FieldMapperFacts.
Import PDFGeneration FormContext FieldMapper MapperSpec.

Lemma zoom_step (scale : Q) (op : ZoomOp) :
  0 < scale <= 3 ->
  0 < zoom scale op <= 3 /\
  ((1 # 10) <= scale \/ op <> ZoomIn -> (1 # 10) <= zoom scale op).
Proof.
  intros [Hpos Hle]. destruct op; cbn [zoom]; unfold handleZoomIn, handleZoomOut, handleZoomReset.
  - split; [ split | ].
    + apply Q.min_glb_lt; lra.
    + apply Q.le_min_r.
    + intros [H | H]; [ | congruence ]. apply Q.min_glb; lra.
  - split; [ split | ].
    + eapply Qlt_le_trans; [ | apply Q.le_max_r ]. reflexivity.
    + apply Q.max_lub; lra.
    + intros _. apply Q.le_max_r.
  - split; [ split; lra | intros _; lra ].
Qed.

Lemma initialScale_range (clientWidth clientHeight : Q) (dims : PDFDimensions) :
  40 < clientWidth -> 100 < clientHeight -> 0 < width dims -> 0 < height dims ->
  0 < initialScale clientWidth clientHeight dims <= 3.
Proof.
  intros Hw Hh Hpw Hph. unfold initialScale. cbn zeta. split.
  - apply Q.min_glb_lt; [ apply Q.min_glb_lt | reflexivity ];
      (apply Qlt_shift_div_l; [ assumption | lra ]).
  - eapply Qle_trans; [ apply Q.le_min_r | discriminate ].
Qed.

(** X26. The zoom stays usable.  When the container is larger than its
    margins and the page has a positive size, the scale is positive and at
    most 3 after any sequence of zoom buttons; it is at least 0.1 as soon
    as it was so at the start or a button other than zoom-in was used. *)
Theorem zoom_stays_in_range (clientWidth clientHeight : Q) (dims : PDFDimensions)
    (ops : list ZoomOp) :
  40 < clientWidth -> 100 < clientHeight -> 0 < width dims -> 0 < height dims ->
  let start := initialScale clientWidth clientHeight dims in
  let scale := fold_left zoom ops start in
  0 < scale <= 3 /\
  ((1 # 10) <= start \/ (exists op, In op ops /\ op <> ZoomIn) -> (1 # 10) <= scale).
Proof.
  intros Hw Hh Hpw Hph. cbn zeta.
  pose proof (initialScale_range clientWidth clientHeight dims Hw Hh Hpw Hph) as Hstart.
  generalize dependent (initialScale clientWidth clientHeight dims). clear.
  induction ops as [| op ops IH]; intros start Hstart; cbn [fold_left].
  - split; [ exact Hstart | ]. intros [H | (op & [] & _)]. exact H.
  - destruct (zoom_step start op Hstart) as [Hrange Hlow].
    destruct (IH (zoom start op) Hrange) as [Hfinal Hfloor].
    split; [ exact Hfinal | ]. intros H. apply Hfloor.
    destruct H as [H | (op' & [<- | Hin] & Hop)].
    + left. apply Hlow. left. exact H.
    + left. apply Hlow. right. exact Hop.
    + right. exists op'. split; assumption.
Qed.

Lemma zoom_stays_in_range_witness :
  let scale := fold_left zoom [ZoomIn; ZoomOut; ZoomOut]
                 (initialScale 1000 900 (mkDimensions 794 1123)) in
  0 < scale <= 3 /\ (1 # 10) <= scale.
Proof.
  destruct (zoom_stays_in_range 1000 900 (mkDimensions 794 1123) [ZoomIn; ZoomOut; ZoomOut]
              eq_refl eq_refl eq_refl eq_refl) as [Hrange Hfloor].
  split; [ exact Hrange | ]. apply Hfloor. right. exists ZoomOut.
  split; [ right; left; reflexivity | discriminate ].
Defined.

Lemma position_rescaled (scale scale' a : Q) (field : Field) (b : Q) :
  ~ scale == 0 -> x field = a / scale -> y field = b / scale ->
  Coords_eq (position scale' field)
            {| cx := a * (scale' / scale); cy := b * (scale' / scale) |}.
Proof.
  intros Hs Hx Hy. unfold Coords_eq, position. cbn [cx cy]. rewrite Hx, Hy.
  split; field; exact Hs.
Qed.

Lemma Coords_eq_same_scale (scale scale' a b : Q) (p : Coords) :
  ~ scale == 0 -> scale' == scale ->
  Coords_eq p {| cx := a * (scale' / scale); cy := b * (scale' / scale) |} ->
  Coords_eq p {| cx := a; cy := b |}.
Proof.
  intros Hs E [Hx Hy]. unfold Coords_eq in *. cbn [cx cy] in *.
  rewrite Hx, Hy, E. split; field; exact Hs.
Qed.

(** X27. Where a dragged field ends up.  After a drag of the fields with
    id [fieldId] that stopped at [(dataX, dataY)] while the scale was [s],
    each of these fields is stored at [(dataX / s, dataY / s)]; the other
    fields are as they were; no field is added, removed or moved in the
    list, and nothing but the position of a field changes.  With a
    template the reducer has built a new one, so the effect runs: with a
    container the scale is then the one that fits, whatever zoom was set.
    Over exact rationals, and for [s] other than zero, the marker of a
    dragged field is then at the drop point times the new scale over [s]:
    at the drop point itself only when the scale is again [s]. *)
Theorem dragged_field_is_rescaled (now : string) (container : option (Q * Q)) (m : Mapper)
    (fieldId : string) (dataX dataY : Q) :
  let m' := dragStop now container m fieldId dataX dataY in
  Forall2 (fun before after =>
             same_but_position before after /\
             if String.eqb (id before) fieldId
             then x after = dataX / scale m /\ y after = dataY / scale m /\
                  (~ scale m == 0 ->
                   Coords_eq (position (scale m') after)
                             {| cx := dataX * (scale m' / scale m);
                                cy := dataY * (scale m' / scale m) |} /\
                   (scale m' == scale m ->
                    Coords_eq (position (scale m') after) {| cx := dataX; cy := dataY |}))
             else after = before)
          (current_fields (app m)) (current_fields (app m')) /\
  formData (app m') = formData (app m) /\
  selectedFieldId (app m') = selectedFieldId (app m) /\
  scale m' = match currentTemplate (app m), container with
             | Some current, Some (clientWidth, clientHeight) =>
                 initialScale clientWidth clientHeight (pdfDimensions (template current))
             | _, _ => scale m
             end.
Proof.
  cbn zeta. unfold dragStop, handleFieldDrag, formReducer, current_fields, fitEffect.
  cbn [app scale].
  destruct (currentTemplate (app m)) as [current |] eqn:E;
    cbn [currentTemplate formData selectedFieldId template with_fields pdfDimensions];
    rewrite ?E.
  - split; [ | split; [ reflexivity | split; [ reflexivity | ] ] ].
    + set (scale' := match container with
                     | Some (clientWidth, clientHeight) =>
                         initialScale clientWidth clientHeight (pdfDimensions (template current))
                     | None => scale m
                     end).
      cbn [fields].
      induction (fields (template current)) as [| field rest IH]; cbn [map]; constructor.
      * destruct (String.eqb (id field) fieldId).
        -- split; [ repeat split | ]. cbn [x y spread or_default u_x u_y].
           split; [ reflexivity | split; [ reflexivity | ] ]. intros Hs.
           assert (H : Coords_eq
                         (position scale' (spread field
                            (mkUpdates None None None (Some (dataX / scale m))
                               (Some (dataY / scale m)) None None None None None None None)))
                         {| cx := dataX * (scale' / scale m);
                            cy := dataY * (scale' / scale m) |})
             by (apply position_rescaled; [ exact Hs | reflexivity .. ]).
           split; [ exact H | ]. intros Hsame.
           exact (Coords_eq_same_scale _ _ _ _ _ Hs Hsame H).
        -- split; [ repeat split | reflexivity ].
      * exact IH.
    + destruct container as [[clientWidth clientHeight] |]; reflexivity.
  - split; [ constructor | repeat split ].
Qed.

(** A drag at half size in a container of 1000 by 900: the field is stored
    at twice the drop point, and the scale becomes the one that fits. *)
Lemma dragged_field_is_rescaled_witness :
  let m := mkMapper (mkState (Some (mkEdited two_fields "t0")) ∅ None) (1 # 2) in
  let m' := dragStop "t1" (Some (1000, 900)) m "second" 120 80 in
  scale m' = initialScale 1000 900 (mkDimensions 794 1123).
Proof.
  exact (proj2 (proj2 (proj2
           (dragged_field_is_rescaled "t1" (Some (1000, 900))
              (mkMapper (mkState (Some (mkEdited two_fields "t0")) ∅ None) (1 # 2))
              "second" 120 80)))).
Defined.

(** In that example the marker is not where the field was dropped: the
    scale went from 1/2 to 800/1123, and the marker from (120, 80) to
    240 and 160 times that scale. *)
Example dragged_field_moves :
  let m := mkMapper (mkState (Some (mkEdited two_fields "t0")) ∅ None) (1 # 2) in
  let m' := dragStop "t1" (Some (1000, 900)) m "second" 120 80 in
  scale m' == 800 / 1123 /\
  Forall2 Coords_eq (map (position (scale m')) (current_fields (app m')))
          [ {| cx := 50 * (800 / 1123); cy := 100 * (800 / 1123) |};
            {| cx := 240 * (800 / 1123); cy := 160 * (800 / 1123) |} ].
Proof.
  cbn zeta. split; [ vm_compute; reflexivity | ].
  repeat constructor; vm_compute; reflexivity.
Qed.

(** X28. Where a clicked field ends up.  With a template and a bounding
    rectangle, a click on the canvas while the scale was [s] appends one
    field to the list, with the generated id, stored at the point of the
    click, measured from the corner of the canvas, over [s]; it leaves the
    fields before it as they are and selects the new field.  The reducer has
    built a new template, so the effect runs: with a container the scale is
    then the one that fits.  Over exact rationals, and for [s] other than
    zero, the marker of the new field is then at the point of the click
    times the new scale over [s]: under the cursor only when the scale is
    again [s]. *)
Theorem clicked_field_is_rescaled (now generatedId : string) (container : option (Q * Q))
    (m : Mapper) (current : EditedTemplate) (rect_left rect_top clientX clientY : Q) :
  currentTemplate (app m) = Some current ->
  let m' := canvasClick now generatedId container m true (Some (rect_left, rect_top))
              clientX clientY in
  exists newField,
    current_fields (app m') = (current_fields (app m) ++ [newField])%list /\
    id newField = generatedId /\
    x newField = (clientX - rect_left) / scale m /\
    y newField = (clientY - rect_top) / scale m /\
    selectedFieldId (app m') = Some generatedId /\
    formData (app m') = formData (app m) /\
    scale m' = match container with
               | Some (clientWidth, clientHeight) =>
                   initialScale clientWidth clientHeight (pdfDimensions (template current))
               | None => scale m
               end /\
    (~ scale m == 0 ->
     Coords_eq (position (scale m') newField)
               {| cx := (clientX - rect_left) * (scale m' / scale m);
                  cy := (clientY - rect_top) * (scale m' / scale m) |} /\
     (scale m' == scale m ->
      Coords_eq (position (scale m') newField)
                {| cx := clientX - rect_left; cy := clientY - rect_top |})).
Proof.
  intros Hcurrent. cbn zeta. unfold canvasClick, handleCanvasClick. cbn [app scale].
  rewrite Hcurrent. unfold formReducer, current_fields, fitEffect. rewrite Hcurrent.
  cbn [currentTemplate formData selectedFieldId template with_fields fields pdfDimensions].
  eexists. split; [ reflexivity | ]. do 5 (split; [ reflexivity | ]).
  split; [ destruct container as [[clientWidth clientHeight] |]; reflexivity | ].
  intros Hs.
  match goal with
  | |- Coords_eq ?p ?q /\ _ => assert (H : Coords_eq p q)
  end.
  { apply position_rescaled; [ exact Hs | reflexivity .. ]. }
  split; [ exact H | ]. intros Hsame.
  exact (Coords_eq_same_scale _ _ _ _ _ Hs Hsame H).
Qed.

Lemma clicked_field_is_rescaled_witness :
  let m := mkMapper (mkState (Some (mkEdited two_fields "t0")) ∅ None) 2 in
  let m' := canvasClick "t1" "field_9" (Some (1000, 900)) m true (Some (10, 20)) 110 220 in
  exists newField,
    current_fields (app m') = (current_fields (app m) ++ [newField])%list /\
    id newField = "field_9"%string /\
    x newField = (110 - 10) / scale m /\
    y newField = (220 - 20) / scale m /\
    selectedFieldId (app m') = Some "field_9"%string /\
    formData (app m') = formData (app m) /\
    scale m' = initialScale 1000 900 (pdfDimensions (template (mkEdited two_fields "t0"))) /\
    (~ scale m == 0 ->
     Coords_eq (position (scale m') newField)
               {| cx := (110 - 10) * (scale m' / scale m);
                  cy := (220 - 20) * (scale m' / scale m) |} /\
     (scale m' == scale m ->
      Coords_eq (position (scale m') newField) {| cx := 110 - 10; cy := 220 - 20 |})).
Proof.
  exact (clicked_field_is_rescaled "t1" "field_9" (Some (1000, 900))
           (mkMapper (mkState (Some (mkEdited two_fields "t0")) ∅ None) 2)
           (mkEdited two_fields "t0") 10 20 110 220 eq_refl).
Defined.

(** Without a template, or when the click hits a field, nothing
    happens. *)
Example click_without_template :
  handleCanvasClick "t1" "field_9" 1 (mkState None ∅ None) true (Some (0, 0)) 5 5
  = mkState None ∅ None.
Proof. reflexivity. Qed.

End FieldMapperFacts.


(** *** The preview and the export *)

Section PreviewFacts.
Import PDFGeneration PDFPreview RenderSpec ExportSpec PreviewSpec.

Variables Doc Blob : Type.
Variable B : Backend Doc Blob.
Variable mark : string.

Lemma filled_texts_app (a b : list CanvasCall) :
  filled_texts (a ++ b) = (filled_texts a ++ filled_texts b)%list.
Proof.
  induction a as [| c a IH]; cbn [app filled_texts]; [ reflexivity | ].
  destruct c; cbn [app]; rewrite ?IH; reflexivity.
Qed.

Lemma filled_texts_lines (f : nat -> string -> Q) (px : Q) (lines : list string) :
  filled_texts (imap (fun i line => fillText line px (f i line)) lines) = lines.
Proof.
  revert f. induction lines as [| line lines IH]; intros f; cbn [imap filled_texts];
    [ reflexivity | ].
  f_equal. exact (IH (fun i => f (S i))).
Qed.

Lemma Forall2_same_refl (l : list string) : Forall2 (same_string mark) l l.
Proof. induction l; constructor; [ left; reflexivity | assumption ]. Qed.

Lemma preview_field_texts (formData : gmap string Value) (field : Field) :
  Forall2 (same_string mark)
          (filled_texts (renderFieldOnCanvas B mark formData field))
          (field_texts B formData field).
Proof.
  unfold renderFieldOnCanvas, field_texts. cbn zeta.
  destruct (unfilled _); [ constructor | ].
  rewrite filled_texts_app. cbn [filled_texts app].
  destruct (is_checkbox _).
  - destruct (isChecked _); [ | constructor ].
    constructor; [ right; split; reflexivity | constructor ].
  - destruct (maxWidth field) as [w |]; [ | apply Forall2_same_refl ].
    destruct (multiline field) as [[|] |];
      destruct (truthy_number (Some w)); cbn [filled_texts];
      try apply Forall2_same_refl.
    rewrite filled_texts_lines. apply Forall2_same_refl.
Qed.

(** X29. The preview and the export show the same strings.  On a document
    that accepts the drawing calls, the strings that [generatePDF] draws
    and the strings that the preview fills in for the same fields and
    values are as many, in the same order, and pairwise equal but for the
    marks of ticked checkboxes, where each side draws its own mark. *)
Theorem preview_matches_export (template : Template) (formData : gmap string Value)
    (options : ExportOptions) :
  (forall orientation w h, exists pdf0, jsPDF_new B orientation w h = inr pdf0) ->
  accepts_drawing B ->
  (forall d f q, exists blob, toBlob B d f q = inr blob) ->
  Forall2 (same_string mark)
          (filled_texts (renderFieldsOnCanvas B mark (fields template) formData))
          (drawn_texts (calls (generatePDF B template formData options).1)).
Proof.
  intros Hnew Hacc Hblob.
  destruct (run_draws_fields Doc Blob B template formData options Hnew Hacc Hblob) as [_ ->].
  unfold renderFieldsOnCanvas.
  induction (fields template) as [| field rest IH]; cbn [flat_map]; [ constructor | ].
  rewrite filled_texts_app. apply Forall2_app; [ apply preview_field_texts | exact IH ].
Qed.

End PreviewFacts.

Section PreviewExamples.
Import PDFGeneration PDFPreview RenderSpec ExportSpec PreviewSpec.

Lemma preview_matches_export_witness :
  Forall2 (same_string "v")
          (filled_texts (renderFieldsOnCanvas accepting_backend "v" (fields two_fields)
                           two_values))
          (drawn_texts (calls (generatePDF accepting_backend two_fields two_values
                                 no_options).1)).
Proof.
  apply (preview_matches_export unit string accepting_backend "v" two_fields two_values
           no_options).
  - intros orientation w h. exists tt. reflexivity.
  - intros d c _. exists tt. reflexivity.
  - intros d f q. exists "blob"%string. reflexivity.
Defined.

(** The preview draws a single-line field one font size below its [y],
    counted from the top of the canvas. *)
Example preview_of_a_field :
  exists font,
    renderFieldOnCanvas accepting_backend "v" two_values second_field
    = [ set_font font; set_fillStyle "#000000"; set_textAlign "left";
        save; fillText "fine" 50 (200 + 12); restore ].
Proof. eexists. vm_compute. reflexivity. Qed.

End PreviewExamples.


(** *** The font loader *)

Section FontRegistryFacts.
Import FontMatcher FontRegistry RegistrySpec.

Lemma assoc_set_lookup {A : Type} (key key' : string) (v : A) (members : list (string * A)) :
  assoc key (assoc_set key' v members)
  = if String.eqb key' key then Some v else assoc key members.
Proof.
  induction members as [| [k w] members IH]; cbn [assoc_set assoc].
  - reflexivity.
  - destruct (String.eqb_spec k key') as [-> | Hk]; cbn [assoc].
    + destruct (String.eqb key' key); reflexivity.
    + rewrite IH. destruct (String.eqb_spec k key) as [-> | Hk'].
      * destruct (String.eqb_spec key' key); [ congruence | reflexivity ].
      * reflexivity.
Qed.

Lemma consistent_set (this : t) (font : Font) (fontName : string) :
  loaded font = true ->
  consistent_at this fontName ->
  consistent_at {| fonts := assoc_set (name font) font (fonts this);
                   loadedFonts := {[ name font ]} ∪ loadedFonts this |} fontName.
Proof.
  intros Hloaded [H1 H2]. unfold consistent_at, isFontLoaded, getFont in *.
  cbn [fonts loadedFonts]. rewrite assoc_set_lookup.
  destruct (String.eqb_spec (name font) fontName) as [E | E].
  - split.
    + intros _. exists font. split; [ reflexivity | exact E ].
    + intros font' [= <-]. split; [ exact E | ]. intros _.
      apply bool_decide_eq_true. apply elem_of_union_l, elem_of_singleton. symmetry. exact E.
  - split.
    + intros H. apply H1. apply bool_decide_eq_true in H. apply bool_decide_eq_true.
      apply elem_of_union in H as [H | H]; [ | exact H ].
      apply elem_of_singleton in H. congruence.
    + intros font' Hf. destruct (H2 font' Hf) as [Hn Hl]. split; [ exact Hn | ].
      intros Hl'. specialize (Hl Hl'). apply bool_decide_eq_true in Hl.
      apply bool_decide_eq_true. apply elem_of_union_r. exact Hl.
Qed.

Lemma consistent_apply (this : t) (op : Op) (fontName : string) :
  consistent_at this fontName -> consistent_at (apply this op) fontName.
Proof.
  intros H. destruct op as [n f p ok | |]; cbn [apply].
  - unfold loadFont. cbn [fst]. destruct ok.
    + exact (consistent_set this (mkFont n f p true) fontName eq_refl H).
    + destruct H as [H1 H2]. unfold consistent_at, isFontLoaded, getFont in *.
      cbn [fonts loadedFonts]. rewrite assoc_set_lookup.
      destruct (String.eqb_spec n fontName) as [E | E].
      * split.
        -- intros _. eexists. split; [ reflexivity | exact E ].
        -- intros font' [= <-]. split; [ exact E | discriminate ].
      * split; [ exact H1 | exact H2 ].
  - unfold loadSystemFonts, systemFonts. cbn [fst fold_left].
    repeat (apply consistent_set; [ reflexivity | ]). exact H.
  - unfold consistent_at, isFontLoaded, getFont, clear. cbn [fonts loadedFonts assoc].
    split; [ | discriminate ]. intros Hin. apply bool_decide_eq_true in Hin.
    apply elem_of_empty in Hin. destruct Hin.
Qed.

(** X30. The two members of a font loader stay consistent.  After any
    sequence of settled loads, loads of the system fonts and clearings: a
    font that [isFontLoaded] reports is registered under its name, and a
    registered font whose [loaded] is true is reported by [isFontLoaded].
    A load that succeeded registers the font as loaded. *)
Theorem font_loader_consistent (ops : list Op) (fontName : string) :
  let loader := fold_left apply ops new in
  (isFontLoaded loader fontName = true ->
   exists font, getFont loader fontName = Some font /\ name font = fontName) /\
  (forall font,
     getFont loader fontName = Some font ->
     name font = fontName /\ (loaded font = true -> isFontLoaded loader fontName = true)) /\
  (forall fontFamily fontPath,
     let after := loadFont loader fontName fontFamily fontPath true in
     getFont after.1 fontName = Some after.2 /\ loaded after.2 = true /\
     isFontLoaded after.1 fontName = true).
Proof.
  cbn zeta.
  assert (H : consistent_at (fold_left apply ops new) fontName).
  { assert (H0 : consistent_at new fontName).
    { split; [ | discriminate ]. unfold isFontLoaded, new. cbn [loadedFonts].
      intros Hin. apply bool_decide_eq_true in Hin. apply elem_of_empty in Hin. destruct Hin. }
    generalize dependent new. induction ops as [| op ops IH]; intros start H0; cbn [fold_left].
    - exact H0.
    - apply IH, consistent_apply, H0. }
  destruct H as [H1 H2]. split; [ exact H1 | ]. split; [ exact H2 | ].
  intros fontFamily fontPath. unfold loadFont, getFont, isFontLoaded. cbn [fst snd fonts loadedFonts].
  rewrite assoc_set_lookup, String.eqb_refl. split; [ reflexivity | ].
  split; [ reflexivity | ]. apply bool_decide_eq_true, elem_of_union_l, elem_of_singleton.
  reflexivity.
Qed.

(** A font that was loaded and then failed to load again is still reported
    by [isFontLoaded], while its entry says that it is not loaded. *)
Example reload_that_fails :
  let loader := fold_left apply
                  [LoadFont "Inter" "Inter" "/fonts/inter.ttf" true;
                   LoadFont "Inter" "Inter" "/fonts/inter.ttf" false] new in
  isFontLoaded loader "Inter" = true /\
  option_map loaded (getFont loader "Inter") = Some false.
Proof. cbn zeta. split; vm_compute; reflexivity. Qed.

End FontRegistryFacts.
